(** * SHIELD demo: a shallow embedding of the simulation engine of [script.js]

    The engine is the part of [script.js] above the visualisation helpers:
    the random-draw helpers, the salvo generator, the classifier, the
    engagement doctrine, the trial-level degradation, the trial loop and the
    Monte Carlo aggregation.

    Modelling conventions.
    - [Math.random()] is the only source of entropy.  It is an infinite
      stream of numbers read through a cursor; every stochastic function is
      a state-passing computation over that cursor ([Rand]).
    - A JavaScript number that holds a count (missiles, shots, inventory) is
      a [Z].  Counters that advance by one per array element or per loop
      iteration are exact; the subtraction of shots from the inventory and
      the running shot totals take operands of any size and are rounded as
      the double-precision operations they are ([jsSub], [jsAdd]).  A number
      that holds a probability or a statistic is an exact rational [Q]; the
      statistics additionally have the value [NaN].
    - A JavaScript array is a [list]; indexed reads and writes are stdpp's
      lookup and insert. *)

From Stdlib Require Import ZArith QArith Qround Qminmax Sorted Lia Lqa.
From stdpp Require Import base list strings pretty.

Local Open Scope Z_scope.

(** ** The entropy source and the [Rand] monad *)

Record Rng : Type := mkRng { stream : nat -> Q; cursor : nat }.

Definition Rand (A : Type) : Type := Rng -> A * Rng.

Definition ret {A : Type} (a : A) : Rand A := fun r => (a, r).

Definition bind {A B : Type} (m : Rand A) (k : A -> Rand B) : Rand B :=
  fun r => let (a, r') := m r in k a r'.

Notation "x <- m ;; k" := (bind m (fun x => k))
  (at level 100, m at next level, right associativity).

(** The contract of [Math.random]: every draw lies in [0, 1). *)
Definition uniform_draws (r : Rng) : Prop :=
  forall n : nat, (0 <= stream r n)%Q /\ (stream r n < 1)%Q.

(** The [k]-th draw still to come, counted from the cursor. *)
Definition upcoming (r : Rng) (k : nat) : Q := stream r (k + cursor r)%nat.

(** The source advanced by [k] draws. *)
Definition advance (k : nat) (r : Rng) : Rng :=
  mkRng (stream r) (k + cursor r)%nat.

(** ** Helpers *)

Definition Qltb (x y : Q) : bool := negb (Qle_bool y x).

Definition clamp01 (x : Q) : Q := Qmax 0 (Qmin 1 x).

Definition randUniform : Rand Q :=
  fun r => (stream r (cursor r), mkRng (stream r) (S (cursor r))).

Definition bernoulli (p : Q) : Rand bool :=
  u <- randUniform;; ret (Qltb u p).

(** [[arr[i], arr[j]] = [arr[j], arr[i]]].  The index [j] is a number; an
    index outside the array would leave a hole in a JavaScript array, which a
    list cannot hold: the list is then left as it is.  Draws in [0, 1) never
    reach that case ([shuffle_index_in_range]). *)
Definition swap {A : Type} (arr : list A) (i : nat) (j : Z) : list A :=
  match arr !! i, (if j <? 0 then None else arr !! Z.to_nat j) with
  | Some x, Some y => <[Z.to_nat j := x]> (<[i := y]> arr)
  | _, _ => arr
  end.

(** [Math.floor(randUniform() * (i + 1))] *)
Definition shuffleIndex (u : Q) (i : nat) : Z :=
  Qfloor (u * inject_Z (Z.of_nat i + 1)).

(** The loop of [shuffle]: [i] runs from [arr.length - 1] down to 1. *)
Fixpoint shuffleLoop {A : Type} (i : nat) (arr : list A) : Rand (list A) :=
  match i with
  | O => ret arr
  | S i' =>
      u <- randUniform;;
      shuffleLoop i' (swap arr i (shuffleIndex u i))
  end.

Definition shuffle {A : Type} (arr : list A) : Rand (list A) :=
  shuffleLoop (length arr - 1)%nat arr.

(** ** Statistics: numbers with a not-a-number value *)

(** The values the statistics handle: a finite number, [NaN], and the
    [undefined] that reading an array outside its bounds gives. *)
Inductive Num : Type :=
  | Undefined : Num
  | NaN : Num
  | Fin : Q -> Num.

(** Arithmetic on [Num]: [undefined] and [NaN] both give [NaN]. *)
Definition num_lift2 (f : Q -> Q -> Q) (x y : Num) : Num :=
  match x, y with
  | Fin a, Fin b => Fin (f a b)
  | _, _ => NaN
  end.

Definition num_mul : Num -> Num -> Num := num_lift2 Qmult.
Definition num_add : Num -> Num -> Num := num_lift2 Qplus.

(** Division by a number that the caller has checked to be positive. *)
Definition num_div (x : Num) (d : Q) : Num :=
  match x with
  | Fin q => Fin (q / d)
  | _ => NaN
  end.

(** Equality of numbers as values: rationals up to [Qeq]; [NaN] and
    [undefined] each only with itself (as a sentinel, not as [===]). *)
Definition num_eq (x y : Num) : Prop :=
  match x, y with
  | Undefined, Undefined => True
  | NaN, NaN => True
  | Fin a, Fin b => (a == b)%Q
  | _, _ => False
  end.

(** [[...arr].sort((a, b) => a - b)]: a stable sort by the sign of [a - b]. *)
Fixpoint sortInsert (a : Q) (sorted : list Q) : list Q :=
  match sorted with
  | [] => [a]
  | b :: rest =>
      if Qltb (a - b) 0 then a :: b :: rest else b :: sortInsert a rest
  end.

Definition sortNumeric (arr : list Q) : list Q :=
  foldr sortInsert [] (reverse arr).

(** [sorted[i]] for an integral index [i]. *)
Definition at_index (arr : list Q) (i : Z) : Num :=
  if i <? 0 then Undefined
  else match arr !! Z.to_nat i with
       | Some q => Fin q
       | None => Undefined
       end.

Definition percentile (arr : list Q) (p : Q) : Num :=
  if decide (length arr = 0%nat) then NaN
  else
    let sorted := sortNumeric arr in
    let idx := ((p / 100) * inject_Z (Z.of_nat (length sorted) - 1))%Q in
    let lo := Qfloor idx in
    let hi := Qceiling idx in
    if decide (lo = hi) then at_index sorted lo
    else
      let w := (idx - inject_Z lo)%Q in
      num_add (num_mul (at_index sorted lo) (Fin (1 - w)))
              (num_mul (at_index sorted hi) (Fin w)).

Definition mean (arr : list Q) : Num :=
  if decide (length arr = 0%nat) then NaN
  else Fin (foldl Qplus 0%Q arr / inject_Z (Z.of_nat (length arr)))%Q.

(** ** Salvo generator *)

Inductive Kind : Type := warhead | decoy.

#[global] Instance Kind_eq_dec : EqDecision Kind.
Proof. solve_decision. Defined.

Record Target : Type := mkTarget { kind : Kind; id : string }.

Definition isWarhead (tgt : Target) : bool := bool_decide (kind tgt = warhead).

Record Params : Type := mkParams {
  nMissiles : Z;
  mirvsPerMissile : Z;
  decoysPerWarhead : Z;
  pDetectTrack : Q;
  pClassifyWarhead : Q;
  pFalseAlarmDecoy : Q;
  doctrineMode : string;
  shotsPerTarget : Z;
  maxShotsPerTarget : Z;
  pReengage : Q;
  pkWarhead : Q;
  pkDecoy : Q;
  nInventory : Z;
  nTrials : Z;
  pSystemUp : Q;
  detectDegradeFactor : Q;
  pkDegradeFactor : Q
}.

Record Salvo : Type := mkSalvo {
  targets : list Target;
  salvoRealWarheads : Z;
  salvoDecoys : Z
}.

(** The objects pushed by [for (let k = 0; k < n; k++) targets.push(...)]. *)
Definition pushed (k : Kind) (tag : string) (n : Z) : list Target :=
  (fun i : nat => mkTarget k (tag +:+ pretty i)) <$> seq 0 (Z.to_nat n).

Definition generateTargets (params : Params) : Rand Salvo :=
  let realWarheads := nMissiles params * mirvsPerMissile params in
  let decoys := realWarheads * decoysPerWarhead params in
  let targets := pushed warhead "W" realWarheads ++ pushed decoy "D" decoys in
  shuffled <- shuffle targets;;
  ret (mkSalvo shuffled realWarheads decoys).

(** ** Classification *)

Definition classifyTarget (tgt : Target) (params : Params) : Rand bool :=
  if isWarhead tgt then bernoulli (pClassifyWarhead params)
  else bernoulli (pFalseAlarmDecoy params).

(** ** Arithmetic on counts *)

(** Every integer up to 2^53 in magnitude is a double. *)
Definition exactBound : Z := 9007199254740992.

(** [a] rounded to the nearest multiple of [q], a tie going to the even
    multiple. *)
Definition roundHalfEven (a q : Z) : Z :=
  let d := a / q in
  let r := a mod q in
  if 2 * r <? q then d * q
  else if q <? 2 * r then (d + 1) * q
  else if Z.even d then d * q else (d + 1) * q.

(** The double nearest to a non-negative integer: from 2^53 on, doubles are
    the multiples of 2^(e - 52) in [2^e, 2^(e + 1)]. *)
Definition toDoubleNonneg (a : Z) : Z :=
  if a <? exactBound then a
  else roundHalfEven a (2 ^ (Z.log2 a - 52)).

(** The double nearest to an integer (round to nearest, ties to even).
    Integers beyond the largest finite double are outside this model. *)
Definition toDouble (z : Z) : Z :=
  if z <? 0 then - toDoubleNonneg (- z) else toDoubleNonneg z.

(** [x + y] and [x - y] on numbers that hold integers: the exact result,
    rounded. *)
Definition jsAdd (x y : Z) : Z := toDouble (x + y).
Definition jsSub (x y : Z) : Z := toDouble (x - y).

#[global] Arguments toDouble : simpl never.
#[global] Arguments jsAdd : simpl never.
#[global] Arguments jsSub : simpl never.

(** ** Engagement *)

Record EngagementOutcome : Type := mkOutcome {
  killed : bool;
  shotsFired : Z;
  inventoryRemaining : Z
}.

(** The barrage loop: up to [n] kill draws, stopping at the first hit. *)
Fixpoint barrageLoop (n : nat) (pk : Q) : Rand bool :=
  match n with
  | O => ret false
  | S n' =>
      hit <- bernoulli pk;;
      if hit then ret true else barrageLoop n' pk
  end.

(** The shoot-look-shoot loop with [n] iterations left and [fired] shots
    already taken.  [fired] counts the iterations of the loop, of which no
    run takes 2^53, so [shotsFired += 1] is exact. *)
Fixpoint slsLoop (n : nat) (pk pRe : Q) (inventory fired : Z)
  : Rand EngagementOutcome :=
  match n with
  | O => ret (mkOutcome false fired (jsSub inventory fired))
  | S n' =>
      let fired := fired + 1 in
      hit <- bernoulli pk;;
      if hit then ret (mkOutcome true fired (jsSub inventory fired))
      else
        canReengage <- bernoulli pRe;;
        if negb canReengage
        then ret (mkOutcome false fired (jsSub inventory fired))
        else slsLoop n' pk pRe inventory fired
  end.

Definition engageTarget (tgt : Target) (params : Params) (inventory : Z)
  : Rand EngagementOutcome :=
  let pk := if isWarhead tgt then pkWarhead params else pkDecoy params in
  if inventory <=? 0 then ret (mkOutcome false 0 inventory)
  else if String.eqb (doctrineMode params) "barrage" then
    let alloc := Z.min (shotsPerTarget params) inventory in
    if alloc <=? 0 then ret (mkOutcome false 0 inventory)
    else
      killed <- barrageLoop (Z.to_nat alloc) pk;;
      ret (mkOutcome killed alloc (jsSub inventory alloc))
  else
    let cap := Z.min (maxShotsPerTarget params) inventory in
    slsLoop (Z.to_nat cap) pk (pReengage params) inventory 0.

(** ** Trial reliability *)

Record Degradation : Type := mkDegradation {
  pDetectTrack_trial : Q;
  pkWarhead_trial : Q;
  pkDecoy_trial : Q;
  degSystemUp : bool
}.

Definition applyTrialDegradation (params : Params) : Rand Degradation :=
  up <- bernoulli (pSystemUp params);;
  if up then
    ret (mkDegradation (pDetectTrack params) (pkWarhead params)
           (pkDecoy params) true)
  else
    ret (mkDegradation
            (clamp01 (pDetectTrack params * detectDegradeFactor params))
            (clamp01 (pkWarhead params * pkDegradeFactor params))
            (clamp01 (pkDecoy params * pkDegradeFactor params))
            false).

(** ** Core simulation *)

(** The local variables of [runOneTrial] that its loop updates. *)
Record TrialState : Type := mkTrialState {
  inventory : Z;
  st_penetratedRealWarheads : Z;
  st_interceptedRealWarheads : Z;
  st_detectedObjects : Z;
  st_detectedRealWarheads : Z;
  st_truePositives : Z;
  st_falseNegatives : Z;
  st_falsePositives : Z;
  st_shotsTotal : Z;
  st_shotsAtTrueWarheads : Z;
  st_shotsAtDecoys : Z
}.

Record TrialResult : Type := mkTrialResult {
  realWarheads : Z;
  penetratedRealWarheads : Z;
  interceptedRealWarheads : Z;
  detectedObjects : Z;
  detectedRealWarheads : Z;
  truePositives : Z;
  falseNegatives : Z;
  falsePositives : Z;
  shotsTotal : Z;
  shotsAtTrueWarheads : Z;
  shotsAtDecoys : Z;
  trialInventoryRemaining : Z;
  systemUp : bool
}.

Definition initialState (params : Params) : TrialState :=
  mkTrialState (nInventory params) 0 0 0 0 0 0 0 0 0 0.

(** [if (tgt.kind === "warhead") penetratedRealWarheads += 1] *)
Definition notePenetrated (tgt : Target) (st : TrialState) : TrialState :=
  if isWarhead tgt
  then mkTrialState (inventory st) (st_penetratedRealWarheads st + 1)
         (st_interceptedRealWarheads st) (st_detectedObjects st)
         (st_detectedRealWarheads st) (st_truePositives st)
         (st_falseNegatives st) (st_falsePositives st) (st_shotsTotal st)
         (st_shotsAtTrueWarheads st) (st_shotsAtDecoys st)
  else st.

(** [detectedObjects += 1;
    if (tgt.kind === "warhead") detectedRealWarheads += 1] *)
Definition noteDetected (tgt : Target) (st : TrialState) : TrialState :=
  mkTrialState (inventory st) (st_penetratedRealWarheads st)
    (st_interceptedRealWarheads st) (st_detectedObjects st + 1)
    (if isWarhead tgt then st_detectedRealWarheads st + 1
     else st_detectedRealWarheads st)
    (st_truePositives st) (st_falseNegatives st) (st_falsePositives st)
    (st_shotsTotal st) (st_shotsAtTrueWarheads st) (st_shotsAtDecoys st).

(** The classification diagnostics. *)
Definition noteClassified (tgt : Target) (classifiedAsWarhead : bool)
    (st : TrialState) : TrialState :=
  mkTrialState (inventory st) (st_penetratedRealWarheads st)
    (st_interceptedRealWarheads st) (st_detectedObjects st)
    (st_detectedRealWarheads st)
    (if isWarhead tgt && classifiedAsWarhead
     then st_truePositives st + 1 else st_truePositives st)
    (if isWarhead tgt && negb classifiedAsWarhead
     then st_falseNegatives st + 1 else st_falseNegatives st)
    (if negb (isWarhead tgt) && classifiedAsWarhead
     then st_falsePositives st + 1 else st_falsePositives st)
    (st_shotsTotal st) (st_shotsAtTrueWarheads st) (st_shotsAtDecoys st).

(** The bookkeeping after [engageTarget] returned [res]. *)
Definition noteEngaged (tgt : Target) (res : EngagementOutcome)
    (st : TrialState) : TrialState :=
  mkTrialState (inventoryRemaining res)
    (if isWarhead tgt && negb (killed res)
     then st_penetratedRealWarheads st + 1 else st_penetratedRealWarheads st)
    (if isWarhead tgt && killed res
     then st_interceptedRealWarheads st + 1
     else st_interceptedRealWarheads st)
    (st_detectedObjects st) (st_detectedRealWarheads st)
    (st_truePositives st) (st_falseNegatives st) (st_falsePositives st)
    (jsAdd (st_shotsTotal st) (shotsFired res))
    (if isWarhead tgt then jsAdd (st_shotsAtTrueWarheads st) (shotsFired res)
     else st_shotsAtTrueWarheads st)
    (if isWarhead tgt then st_shotsAtDecoys st
     else jsAdd (st_shotsAtDecoys st) (shotsFired res)).

(** [{ ...params, pkWarhead, pkDecoy }] *)
Definition withPk (params : Params) (pkW pkD : Q) : Params :=
  mkParams (nMissiles params) (mirvsPerMissile params)
    (decoysPerWarhead params) (pDetectTrack params) (pClassifyWarhead params)
    (pFalseAlarmDecoy params) (doctrineMode params) (shotsPerTarget params)
    (maxShotsPerTarget params) (pReengage params) pkW pkD
    (nInventory params) (nTrials params) (pSystemUp params)
    (detectDegradeFactor params) (pkDegradeFactor params).

(** One iteration of [for (const tgt of targets)]. *)
Definition trialStep (params : Params) (d : Degradation)
    (st : TrialState) (tgt : Target) : Rand TrialState :=
  detected <- bernoulli (pDetectTrack_trial d);;
  if negb detected then ret (notePenetrated tgt st)
  else
    let st := noteDetected tgt st in
    classifiedAsWarhead <- classifyTarget tgt params;;
    let st := noteClassified tgt classifiedAsWarhead st in
    if negb classifiedAsWarhead then ret (notePenetrated tgt st)
    else
      let engageParams :=
        withPk params (pkWarhead_trial d) (pkDecoy_trial d) in
      res <- engageTarget tgt engageParams (inventory st);;
      ret (noteEngaged tgt res st).

(** [for (const x of xs) st = body(st, x)] *)
Fixpoint forOf {S A : Type} (body : S -> A -> Rand S) (xs : list A) (st : S)
  : Rand S :=
  match xs with
  | [] => ret st
  | x :: xs' => st' <- body st x;; forOf body xs' st'
  end.

Definition trialResult (rw : Z) (d : Degradation) (st : TrialState)
  : TrialResult :=
  mkTrialResult rw (st_penetratedRealWarheads st)
    (st_interceptedRealWarheads st) (st_detectedObjects st)
    (st_detectedRealWarheads st) (st_truePositives st)
    (st_falseNegatives st) (st_falsePositives st) (st_shotsTotal st)
    (st_shotsAtTrueWarheads st) (st_shotsAtDecoys st) (inventory st)
    (degSystemUp d).

Definition runOneTrial (params : Params) : Rand TrialResult :=
  g <- generateTargets params;;
  d <- applyTrialDegradation params;;
  st <- forOf (trialStep params d) (targets g) (initialState params);;
  ret (trialResult (salvoRealWarheads g) d st).

(** ** Monte Carlo *)

(** The arrays that [runMonteCarlo] fills, and [realWarheadsConst]
    ([None] is [null]). *)
Record McArrays : Type := mkMcArrays {
  penReal : list Z;
  intReal : list Z;
  detObj : list Z;
  detReal : list Z;
  tp : list Z;
  fn : list Z;
  fp : list Z;
  shotsTot : list Z;
  shotsW : list Z;
  shotsD : list Z;
  invLeft : list Z;
  systemUpFlags : list Z;
  realWarheadsConst : option Z
}.

Definition emptyArrays : McArrays :=
  mkMcArrays [] [] [] [] [] [] [] [] [] [] [] [] None.

(** The body of the trial loop after [r = runOneTrial(params)]. *)
Definition record (a : McArrays) (r : TrialResult) : McArrays :=
  mkMcArrays
    (penReal a ++ [penetratedRealWarheads r])
    (intReal a ++ [interceptedRealWarheads r])
    (detObj a ++ [detectedObjects r])
    (detReal a ++ [detectedRealWarheads r])
    (tp a ++ [truePositives r])
    (fn a ++ [falseNegatives r])
    (fp a ++ [falsePositives r])
    (shotsTot a ++ [shotsTotal r])
    (shotsW a ++ [shotsAtTrueWarheads r])
    (shotsD a ++ [shotsAtDecoys r])
    (invLeft a ++ [trialInventoryRemaining r])
    (systemUpFlags a ++ [if systemUp r then 1 else 0])
    (match realWarheadsConst a with
     | None => Some (realWarheads r)
     | Some c => Some c
     end).

(** [for (let t = 0; t < nTrials; t++)] with [n] iterations left. *)
Fixpoint trialsLoop (n : nat) (params : Params) (a : McArrays)
  : Rand McArrays :=
  match n with
  | O => ret a
  | S n' => r <- runOneTrial params;; trialsLoop n' params (record a r)
  end.

Record Summary : Type := mkSummary {
  sumRealWarheads : option Z;
  meanPenReal : Num;
  p10PenReal : Num;
  medianPenReal : Num;
  p90PenReal : Num;
  meanIntReal : Num;
  meanDetObjects : Num;
  meanDetReal : Num;
  meanTP : Num;
  meanFN : Num;
  meanFP : Num;
  meanShotsTotal : Num;
  meanShotsWarheads : Num;
  meanShotsDecoys : Num;
  meanInventoryRemaining : Num;
  meanSystemUp : Num;
  meanPenRateReal : Num
}.

Record McResult : Type := mkMcResult {
  resPenReal : list Z;
  resIntReal : list Z;
  resShotsTot : list Z;
  resFp : list Z;
  summary : Summary
}.

(** An array of counts read as an array of numbers. *)
Definition nums (xs : list Z) : list Q := inject_Z <$> xs.

(** [realWarheadsConst > 0 ? mean(penReal) / realWarheadsConst : 0];
    [null > 0] is false. *)
Definition penRate (c : option Z) (pens : list Z) : Num :=
  match c with
  | Some rw => if 0 <? rw then num_div (mean (nums pens)) (inject_Z rw)
               else Fin 0
  | None => Fin 0
  end.

Definition summarize (a : McArrays) : Summary :=
  mkSummary (realWarheadsConst a)
    (mean (nums (penReal a)))
    (percentile (nums (penReal a)) 10)
    (percentile (nums (penReal a)) 50)
    (percentile (nums (penReal a)) 90)
    (mean (nums (intReal a)))
    (mean (nums (detObj a)))
    (mean (nums (detReal a)))
    (mean (nums (tp a)))
    (mean (nums (fn a)))
    (mean (nums (fp a)))
    (mean (nums (shotsTot a)))
    (mean (nums (shotsW a)))
    (mean (nums (shotsD a)))
    (mean (nums (invLeft a)))
    (mean (nums (systemUpFlags a)))
    (penRate (realWarheadsConst a) (penReal a)).

Definition runMonteCarlo (params : Params) : Rand McResult :=
  a <- trialsLoop (Z.to_nat (nTrials params)) params emptyArrays;;
  ret (mkMcResult (penReal a) (intReal a) (shotsTot a) (fp a) (summarize a)).

(** ** Histogram bins *)

(** The numeric part of [renderHistogramHTML]: from the guard on an empty
    array to the end of the counting loop.  The rest of the function builds
    markup from the counts. *)
Inductive Histogram : Type :=
  | NoData : Histogram
  | RangeError : Histogram
  | Bins : list Z -> Histogram.

(** [Math.floor(((v - minV) / span) * bins)], clamped by the two [if]s. *)
Definition binIndex (v minV span : Q) (bins : Z) : Z :=
  let idx := Qfloor (((v - minV) / span) * inject_Z bins) in
  let idx := if idx <? 0 then 0 else idx in
  if bins <=? idx then bins - 1 else idx.

(** [counts[idx] += 1].  A negative index names a property, not an element,
    so the elements stay as they are. *)
Definition increment (counts : list Z) (idx : Z) : list Z :=
  if idx <? 0 then counts
  else match counts !! Z.to_nat idx with
       | Some c => <[Z.to_nat idx := c + 1]> counts
       | None => counts
       end.

(** 2^52: for a double [v] of smaller magnitude the doubles [v - 0.5] and
    [v + 0.5] differ, so that widening an empty range gives a positive span,
    as it does for the rationals of this model. *)
Definition halfUnitBound : Q := 4503599627370496.

(** [new Array(bins)] throws for a length that is negative or above
    2^32 - 1. *)
Definition histogramCounts (arr : list Q) (bins : Z) : Histogram :=
  match arr with
  | [] => NoData
  | x :: xs =>
      let minV := foldl Qmin x xs in
      let maxV := foldl Qmax x xs in
      let widen := Qeq_bool minV maxV in
      let minV := if widen then (minV - (1 # 2))%Q else minV in
      let maxV := if widen then (maxV + (1 # 2))%Q else maxV in
      if (bins <? 0) || (4294967295 <? bins) then RangeError
      else
        let span := (maxV - minV)%Q in
        Bins (foldl
                (fun counts v =>
                   increment counts (binIndex v minV span bins))
                (replicate (Z.to_nat bins) 0) arr)
  end.

(** ** Reading the form *)

(** What the form hands to [readParamsFromUI]: for each number input the
    result of [parseInt(value, 10)] or [parseFloat(value)], where [None] is
    [NaN] (a number input holds a finite number or nothing), and the value
    of the doctrine selector. *)
Record FormValues : Type := mkFormValues {
  form_nMissiles : option Z;
  form_mirvsPerMissile : option Z;
  form_decoysPerWarhead : option Z;
  form_pDetectTrack : option Q;
  form_pClassifyWarhead : option Q;
  form_pFalseAlarmDecoy : option Q;
  form_doctrineMode : string;
  form_shotsPerTarget : option Z;
  form_maxShotsPerTarget : option Z;
  form_pReengage : option Q;
  form_pkWarhead : option Q;
  form_pkDecoy : option Q;
  form_nInventory : option Z;
  form_nTrials : option Z;
  form_pSystemUp : option Q;
  form_detectDegradeFactor : option Q;
  form_pkDegradeFactor : option Q
}.

(** [parsed || d]: [NaN] and 0 are falsy. *)
Definition intOr (parsed : option Z) (d : Z) : Z :=
  match parsed with
  | Some n => if n =? 0 then d else n
  | None => d
  end.

Definition floatOr (parsed : option Q) (d : Q) : Q :=
  match parsed with
  | Some q => if Qeq_bool q 0 then d else q
  | None => d
  end.

Definition readParamsFromUI (form : FormValues) : Params :=
  mkParams
    (Z.max 0 (intOr (form_nMissiles form) 0))
    (Z.max 1 (intOr (form_mirvsPerMissile form) 1))
    (Z.max 0 (intOr (form_decoysPerWarhead form) 0))
    (clamp01 (floatOr (form_pDetectTrack form) 0))
    (clamp01 (floatOr (form_pClassifyWarhead form) 0))
    (clamp01 (floatOr (form_pFalseAlarmDecoy form) 0))
    (form_doctrineMode form)
    (Z.max 0 (intOr (form_shotsPerTarget form) 0))
    (Z.max 0 (intOr (form_maxShotsPerTarget form) 0))
    (clamp01 (floatOr (form_pReengage form) 0))
    (clamp01 (floatOr (form_pkWarhead form) 0))
    (clamp01 (floatOr (form_pkDecoy form) 0))
    (Z.max 0 (intOr (form_nInventory form) 0))
    (Z.max 1 (intOr (form_nTrials form) 1000))
    (clamp01 (floatOr (form_pSystemUp form) 0))
    (clamp01 (floatOr (form_detectDegradeFactor form) 0))
    (clamp01 (floatOr (form_pkDegradeFactor form) 0)).

(** * Vocabulary of the properties *)

(** The kill probability that applies to an object: by its true kind. *)
Definition killProbability (tgt : Target) (params : Params) : Q :=
  if isWarhead tgt then pkWarhead params else pkDecoy params.

(** The doctrine mode replaced by [mode], everything else kept. *)
Definition withMode (params : Params) (mode : string) : Params :=
  mkParams (nMissiles params) (mirvsPerMissile params)
    (decoysPerWarhead params) (pDetectTrack params) (pClassifyWarhead params)
    (pFalseAlarmDecoy params) mode (shotsPerTarget params)
    (maxShotsPerTarget params) (pReengage params) (pkWarhead params)
    (pkDecoy params) (nInventory params) (nTrials params) (pSystemUp params)
    (detectDegradeFactor params) (pkDegradeFactor params).

(** The number of objects of kind [k] in a sequence. *)
Definition countKind (k : Kind) (l : list Target) : Z :=
  Z.of_nat (length (filter (fun t => kind t = k) l)).

(** The salvo before it is shuffled. *)
Definition population (params : Params) : list Target :=
  pushed warhead "W" (nMissiles params * mirvsPerMissile params) ++
  pushed decoy "D"
    (nMissiles params * mirvsPerMissile params * decoysPerWarhead params).

(** What an object adds to the number of real warheads. *)
Definition warheadCount (tgt : Target) : Z := if isWarhead tgt then 1 else 0.

(** The salvo and the degradation that [runOneTrial] works with when it
    starts from the source [r]. *)
Definition salvoOf (params : Params) (r : Rng) : Salvo :=
  fst (generateTargets params r).

Definition degradationOf (params : Params) (r : Rng) : Degradation :=
  fst (applyTrialDegradation params (snd (generateTargets params r))).

(** The loop of [runOneTrial] stopped after its first [k] objects. *)
Definition trialPrefix (params : Params) (k : nat) : Rand TrialState :=
  g <- generateTargets params;;
  d <- applyTrialDegradation params;;
  forOf (trialStep params d) (take k (targets g)) (initialState params).

(** The inventory counter after the first [k] objects of the trial. *)
Definition inventoryAfter (params : Params) (r : Rng) (k : nat) : Z :=
  inventory (fst (trialPrefix params k r)).

(** The ranges of a configuration record (as the form reader produces it). *)
Record valid_config (params : Params) : Prop := mkValid {
  valid_missiles : 0 <= nMissiles params;
  valid_mirvs : 1 <= mirvsPerMissile params;
  valid_decoys : 0 <= decoysPerWarhead params;
  valid_shots : 0 <= shotsPerTarget params;
  valid_maxShots : 0 <= maxShotsPerTarget params;
  valid_inventory : 0 <= nInventory params;
  valid_trials : 1 <= nTrials params;
  valid_mode : doctrineMode params = "barrage" \/ doctrineMode params = "sls";
  valid_pDetectTrack : (0 <= pDetectTrack params <= 1)%Q;
  valid_pClassifyWarhead : (0 <= pClassifyWarhead params <= 1)%Q;
  valid_pFalseAlarmDecoy : (0 <= pFalseAlarmDecoy params <= 1)%Q;
  valid_pReengage : (0 <= pReengage params <= 1)%Q;
  valid_pkWarhead : (0 <= pkWarhead params <= 1)%Q;
  valid_pkDecoy : (0 <= pkDecoy params <= 1)%Q;
  valid_pSystemUp : (0 <= pSystemUp params <= 1)%Q;
  valid_detectDegradeFactor : (0 <= detectDegradeFactor params <= 1)%Q;
  valid_pkDegradeFactor : (0 <= pkDegradeFactor params <= 1)%Q
}.

(** The trials of one run, in order, each reading the draws its predecessor
    left. *)
Fixpoint trialRuns (n : nat) (params : Params) : Rand (list TrialResult) :=
  match n with
  | O => ret []
  | S n' =>
      x <- runOneTrial params;;
      xs <- trialRuns n' params;;
      ret (x :: xs)
  end.

Definition sumZ (xs : list Z) : Z := foldr Z.add 0 xs.

(** The most shots one engagement may take under the configured doctrine. *)
Definition perTargetCap (params : Params) : Z :=
  if String.eqb (doctrineMode params) "barrage"
  then shotsPerTarget params else maxShotsPerTarget params.

(** How the diagnostic counters of a trial move while [n] objects, [w] of
    them real warheads, are processed: from [st] to [st']. *)
Record diagnostics_step (n w : Z) (st st' : TrialState) : Prop :=
  mkDiagnosticsStep {
  diag_classified :
    st_truePositives st' + st_falseNegatives st'
      - st_detectedRealWarheads st' =
    st_truePositives st + st_falseNegatives st - st_detectedRealWarheads st;
  diag_detected :
    0 <= st_detectedObjects st' - st_detectedObjects st <= n;
  diag_detected_real :
    0 <= st_detectedRealWarheads st' - st_detectedRealWarheads st <= w;
  diag_detected_decoys :
    (st_detectedRealWarheads st' - st_detectedRealWarheads st) +
    (st_falsePositives st' - st_falsePositives st) <=
    st_detectedObjects st' - st_detectedObjects st;
  diag_false_positives : 0 <= st_falsePositives st' - st_falsePositives st;
  diag_false_negatives : 0 <= st_falseNegatives st' - st_falseNegatives st;
  diag_intercepted :
    0 <= st_interceptedRealWarheads st' - st_interceptedRealWarheads st
      <= st_truePositives st' - st_truePositives st;
  diag_penetrated :
    0 <= st_penetratedRealWarheads st' - st_penetratedRealWarheads st
}.

(** An integer that a double holds: converting it changes nothing.  Every
    count that the code computes or receives is one. *)
Definition is_number (n : Z) : Prop := toDouble n = n.

(** The shot counters of a trial that started with [n] interceptors and fires
    at most [cap] shots at a target, as long as no sum was rounded. *)
Record exact_counts (n cap : Z) (st : TrialState) : Prop := mkExactCounts {
  exact_inventory : inventory st + st_shotsTotal st = n;
  exact_split :
    st_shotsTotal st = st_shotsAtTrueWarheads st + st_shotsAtDecoys st;
  exact_warheads :
    0 <= st_shotsAtTrueWarheads st <= cap * st_truePositives st;
  exact_decoys : 0 <= st_shotsAtDecoys st <= cap * st_falsePositives st;
  exact_started : 0 <= inventory st \/ st_shotsTotal st = 0;
  exact_intercepted :
    st_interceptedRealWarheads st <= st_shotsAtTrueWarheads st
}.

(** The source of draws as the loop of [runOneTrial] finds it: after the
    shuffle and the degradation draw. *)
Definition loopRng (params : Params) (r : Rng) : Rng :=
  snd (applyTrialDegradation params (snd (generateTargets params r))).

(** The identifier prefix of a kind. *)
Definition idTag (k : Kind) : string :=
  match k with warhead => "W" | decoy => "D" end.

(** How many objects of a kind the salvo of a configuration holds. *)
Definition kindCount (params : Params) (k : Kind) : Z :=
  match k with
  | warhead => nMissiles params * mirvsPerMissile params
  | decoy =>
      nMissiles params * mirvsPerMissile params * decoysPerWarhead params
  end.

(** The index at which [percentile] reads a sorted sequence of [n] values. *)
Definition percentileIndex (n : nat) (p : Q) : Q :=
  ((p / 100) * inject_Z (Z.of_nat n - 1))%Q.

(** A form filled with the values of a configuration. *)
Definition formOf (params : Params) : FormValues :=
  mkFormValues (Some (nMissiles params)) (Some (mirvsPerMissile params))
    (Some (decoysPerWarhead params)) (Some (pDetectTrack params))
    (Some (pClassifyWarhead params)) (Some (pFalseAlarmDecoy params))
    (doctrineMode params) (Some (shotsPerTarget params))
    (Some (maxShotsPerTarget params)) (Some (pReengage params))
    (Some (pkWarhead params)) (Some (pkDecoy params))
    (Some (nInventory params)) (Some (nTrials params))
    (Some (pSystemUp params)) (Some (detectDegradeFactor params))
    (Some (pkDegradeFactor params)).

(** Two configurations with the same counts and mode and equal
    probabilities (as rational numbers). *)
Record same_config (p q : Params) : Prop := mkSameConfig {
  same_nMissiles : nMissiles p = nMissiles q;
  same_mirvsPerMissile : mirvsPerMissile p = mirvsPerMissile q;
  same_decoysPerWarhead : decoysPerWarhead p = decoysPerWarhead q;
  same_pDetectTrack : (pDetectTrack p == pDetectTrack q)%Q;
  same_pClassifyWarhead : (pClassifyWarhead p == pClassifyWarhead q)%Q;
  same_pFalseAlarmDecoy : (pFalseAlarmDecoy p == pFalseAlarmDecoy q)%Q;
  same_doctrineMode : doctrineMode p = doctrineMode q;
  same_shotsPerTarget : shotsPerTarget p = shotsPerTarget q;
  same_maxShotsPerTarget : maxShotsPerTarget p = maxShotsPerTarget q;
  same_pReengage : (pReengage p == pReengage q)%Q;
  same_pkWarhead : (pkWarhead p == pkWarhead q)%Q;
  same_pkDecoy : (pkDecoy p == pkDecoy q)%Q;
  same_nInventory : nInventory p = nInventory q;
  same_nTrials : nTrials p = nTrials q;
  same_pSystemUp : (pSystemUp p == pSystemUp q)%Q;
  same_detectDegradeFactor :
    (detectDegradeFactor p == detectDegradeFactor q)%Q;
  same_pkDegradeFactor : (pkDegradeFactor p == pkDegradeFactor q)%Q
}.

(** ** Sample inputs *)

(** A source of draws 0, 0.7, 0.4, 0.1, 0.8, ... *)
Definition demoRng : Rng :=
  mkRng (fun n => Z.of_nat (n * 7 mod 10) # 10) 0.

(** The defaults of the form, scaled down: two missiles of two warheads with
    one decoy each against five interceptors, barrage of two. *)
Definition demoParams : Params :=
  mkParams 2 2 1 (8 # 10) (8 # 10) (2 # 10) "barrage" 2 4 (85 # 100)
    (6 # 10) (8 # 10) 5 3 (9 # 10) (1 # 2) (7 # 10).

Definition demoSls : Params := withMode demoParams "sls".

(** A doctrine mode that the form does not offer. *)
Definition demoUnknownMode : Params := withMode demoParams "salvo".

(** One missile, one warhead, no decoys, certain detection and
    classification, and no interceptor. *)
Definition scenarioParams : Params :=
  mkParams 1 1 0 1 1 0 "barrage" 1 1 0 1 1 0 1 1 1 1.

Definition demoWarhead : Target := mkTarget warhead "W0".

(** The sample configuration with a blind sensor. *)
Definition blindParams : Params :=
  mkParams 2 2 1 0 (8 # 10) (2 # 10) "sls" 2 4 (85 # 100)
    (6 # 10) (8 # 10) 5 3 (9 # 10) (1 # 2) (7 # 10).

(** A defence that never fails, with two shots for each of four warheads. *)
Definition sureParams : Params :=
  mkParams 2 2 1 1 1 0 "barrage" 2 4 1 1 1 8 3 1 1 1.

(** Shoot-look-shoot without any chance of a second shot. *)
Definition singleShotParams : Params :=
  mkParams 2 2 1 (8 # 10) (8 # 10) (2 # 10) "sls" 2 4 0
    (6 # 10) (8 # 10) 5 3 (9 # 10) (1 # 2) (7 # 10).

(** The sample configuration with a trial count of zero. *)
Definition noTrialsParams : Params :=
  mkParams 2 2 1 (8 # 10) (8 # 10) (2 # 10) "barrage" 2 4 (85 # 100)
    (6 # 10) (8 # 10) 5 0 (9 # 10) (1 # 2) (7 # 10).

(** An inventory above 2^53, where the doubles are two apart. *)
Definition largeInventory : Z := 9007199254740994.

(** One missile, one warhead, no decoys, a defence that never fails and
    takes one shot at a target, with the large inventory. *)
Definition largeInventoryParams : Params :=
  mkParams 1 1 0 1 1 0 "barrage" 1 1 0 1 1 largeInventory 1 1 1 1.

Definition largeInventorySls : Params := withMode largeInventoryParams "sls".

(** A form with two unreadable fields, a zero trial count, a negative
    inventory and a probability above one. *)
Definition demoForm : FormValues :=
  mkFormValues (Some 3) None (Some 2) (Some (3 # 2)) (Some (1 # 2)) None
    "sls" (Some 2) (Some 4) (Some (1 # 2)) (Some (6 # 10)) (Some (8 # 10))
    (Some (-5)) (Some 0) (Some (9 # 10)) (Some (1 # 2)) (Some (7 # 10)).

(** * Properties *)

(** ** Arithmetic on counts *)

Lemma roundHalfEven_cases (a q : Z) :
  0 < q ->
  (roundHalfEven a q = (a / q) * q \/ roundHalfEven a q = (a / q + 1) * q) /\
  (a mod q = 0 -> roundHalfEven a q = a).
Proof.
  intros Hq. unfold roundHalfEven. cbv zeta.
  pose proof (Z.mod_pos_bound a q Hq) as Hr.
  pose proof (Z.div_mod a q ltac:(lia)) as Hdm.
  split.
  - destruct (2 * (a mod q) <? q); [auto|].
    destruct (q <? 2 * (a mod q)); [auto|].
    destruct (Z.even (a / q)); auto.
  - intros H0. rewrite H0 in *.
    destruct (2 * 0 <? q) eqn:E; [lia|]. apply Z.ltb_ge in E. lia.
Qed.

Lemma roundHalfEven_mono (a b q : Z) :
  0 < q -> a <= b -> roundHalfEven a q <= roundHalfEven b q.
Proof.
  intros Hq Hab.
  pose proof (Z.mod_pos_bound a q Hq) as Hra.
  pose proof (Z.mod_pos_bound b q Hq) as Hrb.
  pose proof (Z.div_mod a q ltac:(lia)) as Hda.
  pose proof (Z.div_mod b q ltac:(lia)) as Hdb.
  assert (Hd : a / q <= b / q) by (apply Z.div_le_mono; lia).
  destruct (Z.eq_dec (a / q) (b / q)) as [E|N].
  - unfold roundHalfEven. cbv zeta. rewrite <- E.
    assert (Hr : a mod q <= b mod q) by nia.
    destruct (Z.ltb_spec (2 * (a mod q)) q);
      destruct (Z.ltb_spec (2 * (b mod q)) q);
      destruct (Z.ltb_spec q (2 * (a mod q)));
      destruct (Z.ltb_spec q (2 * (b mod q)));
      destruct (Z.even (a / q)); nia.
  - destruct (roundHalfEven_cases a q Hq) as [[Ha|Ha] _];
    destruct (roundHalfEven_cases b q Hq) as [[Hb|Hb] _];
    rewrite Ha, Hb; nia.
Qed.

Lemma log2_binade (a : Z) :
  exactBound <= a ->
  let q := 2 ^ (Z.log2 a - 52) in
  0 < q /\ 4503599627370496 * q <= a < 9007199254740992 * q.
Proof.
  intros Ha. cbv zeta. unfold exactBound in Ha.
  assert (H53 : 53 <= Z.log2 a).
  { change 53 with (Z.log2 9007199254740992). apply Z.log2_le_mono. exact Ha. }
  destruct (Z.log2_spec a ltac:(lia)) as [L U].
  replace (Z.log2 a) with ((Z.log2 a - 52) + 52) in L at 1 by lia.
  replace (Z.succ (Z.log2 a)) with ((Z.log2 a - 52) + 53) in U by lia.
  rewrite Z.pow_add_r in L, U by lia.
  change (2 ^ 52) with 4503599627370496 in L.
  change (2 ^ 53) with 9007199254740992 in U.
  assert (0 < 2 ^ (Z.log2 a - 52)) by (apply Z.pow_pos_nonneg; lia).
  lia.
Qed.

Lemma toDoubleNonneg_binade (a : Z) :
  exactBound <= a ->
  let q := 2 ^ (Z.log2 a - 52) in
  4503599627370496 * q <= toDoubleNonneg a <= 9007199254740992 * q.
Proof.
  intros Ha. cbv zeta. destruct (log2_binade a Ha) as (Hq & L & U).
  unfold toDoubleNonneg. destruct (a <? exactBound) eqn:E;
    [apply Z.ltb_lt in E; lia|].
  set (q := 2 ^ (Z.log2 a - 52)) in *.
  assert (Hd : 4503599627370496 <= a / q < 9007199254740992).
  { split; [apply Z.div_le_lower_bound; lia|].
    apply Z.div_lt_upper_bound; lia. }
  destruct (roundHalfEven_cases a q Hq) as [[H|H] _]; rewrite H; nia.
Qed.

Lemma toDoubleNonneg_mono (a b : Z) :
  0 <= a -> a <= b -> toDoubleNonneg a <= toDoubleNonneg b.
Proof.
  intros Ha Hab.
  destruct (Z.lt_ge_cases b exactBound) as [Hb|Hb].
  - unfold toDoubleNonneg.
    destruct (a <? exactBound) eqn:Ea; [|apply Z.ltb_ge in Ea; lia].
    destruct (b <? exactBound) eqn:Eb; [lia | apply Z.ltb_ge in Eb; lia].
  - pose proof (toDoubleNonneg_binade b Hb) as Bb. cbv zeta in Bb.
    destruct (log2_binade b Hb) as (Hqb & Lb & Ub).
    destruct (Z.lt_ge_cases a exactBound) as [Ha'|Ha'].
    + unfold toDoubleNonneg at 1.
      destruct (a <? exactBound) eqn:Ea; [|apply Z.ltb_ge in Ea; lia].
      unfold exactBound in *. nia.
    + pose proof (toDoubleNonneg_binade a Ha') as Ba. cbv zeta in Ba.
      destruct (log2_binade a Ha') as (Hqa & La & Ua).
      assert (Hlog : Z.log2 a <= Z.log2 b) by (apply Z.log2_le_mono; lia).
      destruct (Z.eq_dec (Z.log2 a) (Z.log2 b)) as [E|N].
      * unfold toDoubleNonneg.
        destruct (a <? exactBound) eqn:Ea; [apply Z.ltb_lt in Ea; lia|].
        destruct (b <? exactBound) eqn:Eb; [apply Z.ltb_lt in Eb; lia|].
        rewrite E. apply roundHalfEven_mono; assumption.
      * assert (Hpow : 2 * 2 ^ (Z.log2 a - 52) <= 2 ^ (Z.log2 b - 52)).
        { replace (Z.log2 b - 52)
            with ((Z.log2 b - Z.log2 a - 1) + 1 + (Z.log2 a - 52)) by lia.
          assert (53 <= Z.log2 a).
          { change 53 with (Z.log2 9007199254740992).
            apply Z.log2_le_mono. exact Ha'. }
          rewrite !Z.pow_add_r by lia. change (2 ^ 1) with 2.
          assert (1 <= 2 ^ (Z.log2 b - Z.log2 a - 1)).
          { assert (0 < 2 ^ (Z.log2 b - Z.log2 a - 1))
              by (apply Z.pow_pos_nonneg; lia).
            lia. }
          nia. }
        nia.
Qed.

Lemma toDoubleNonneg_nonneg (a : Z) : 0 <= a -> 0 <= toDoubleNonneg a.
Proof.
  intros Ha. destruct (Z.lt_ge_cases a exactBound) as [H|H].
  - unfold toDoubleNonneg. destruct (a <? exactBound) eqn:E; [lia|].
    apply Z.ltb_ge in E. lia.
  - pose proof (toDoubleNonneg_binade a H) as B. cbv zeta in B.
    destruct (log2_binade a H) as (Hq & _). nia.
Qed.

Lemma toDouble_mono (x y : Z) : x <= y -> toDouble x <= toDouble y.
Proof.
  intros Hxy. unfold toDouble.
  destruct (x <? 0) eqn:Ex; destruct (y <? 0) eqn:Ey;
    try (apply Z.ltb_lt in Ex); try (apply Z.ltb_ge in Ex);
    try (apply Z.ltb_lt in Ey); try (apply Z.ltb_ge in Ey); try lia.
  - pose proof (toDoubleNonneg_mono (- y) (- x) ltac:(lia) ltac:(lia)). lia.
  - pose proof (toDoubleNonneg_nonneg (- x) ltac:(lia)).
    pose proof (toDoubleNonneg_nonneg y ltac:(lia)). lia.
  - apply toDoubleNonneg_mono; lia.
Qed.

Lemma toDouble_exact (z : Z) :
  - exactBound <= z <= exactBound -> toDouble z = z.
Proof.
  assert (H : forall a, 0 <= a <= exactBound -> toDoubleNonneg a = a).
  { intros a Ha. unfold toDoubleNonneg.
    destruct (a <? exactBound) eqn:E; [reflexivity|].
    apply Z.ltb_ge in E. assert (a = exactBound) as -> by lia. reflexivity. }
  intros Hz. unfold toDouble. destruct (z <? 0) eqn:E.
  - apply Z.ltb_lt in E. rewrite H by lia. lia.
  - apply Z.ltb_ge in E. apply H. lia.
Qed.

Lemma toDoubleNonneg_idem (a : Z) :
  0 <= a -> toDoubleNonneg (toDoubleNonneg a) = toDoubleNonneg a.
Proof.
  intros Ha. destruct (Z.lt_ge_cases a exactBound) as [H|H].
  - unfold toDoubleNonneg at 2. destruct (a <? exactBound) eqn:E;
      [|apply Z.ltb_ge in E; lia].
    unfold toDoubleNonneg. rewrite E. reflexivity.
  - pose proof (toDoubleNonneg_binade a H) as B. cbv zeta in B.
    destruct (log2_binade a H) as (Hq & L & U).
    set (q := 2 ^ (Z.log2 a - 52)) in *.
    assert (Hmult : exists k, toDoubleNonneg a = k * q /\
                      4503599627370496 <= k <= 9007199254740992).
    { unfold toDoubleNonneg in *. destruct (a <? exactBound) eqn:E;
        [apply Z.ltb_lt in E; lia|].
      fold q in B |- *.
      destruct (roundHalfEven_cases a q Hq) as [[R|R] _]; rewrite R in *;
        eexists; (split; [reflexivity|]); nia. }
    destruct Hmult as (k & Hk & Hrange). rewrite Hk.
    assert (Hq2 : 2 <= q) by (unfold exactBound in H; nia).
    assert (Hb : exactBound <= k * q) by (unfold exactBound; nia).
    unfold toDoubleNonneg. destruct (k * q <? exactBound) eqn:E;
      [apply Z.ltb_lt in E; lia|].
    destruct (log2_binade (k * q) Hb) as (Hq' & L' & U').
    set (q' := 2 ^ (Z.log2 (k * q) - 52)) in *.
    apply roundHalfEven_cases; [exact Hq'|].
    (* q' divides k*q *)
    assert (53 <= Z.log2 a).
    { change 53 with (Z.log2 9007199254740992). apply Z.log2_le_mono. exact H. }
    assert (P52 : 2 ^ Z.log2 a = 4503599627370496 * q).
    { unfold q. replace (Z.log2 a) with (52 + (Z.log2 a - 52)) at 1 by lia.
      rewrite (Z.pow_add_r 2 52 (Z.log2 a - 52)) by lia. reflexivity. }
    assert (P53 : 2 ^ Z.succ (Z.log2 a) = 9007199254740992 * q).
    { unfold q. replace (Z.succ (Z.log2 a)) with (53 + (Z.log2 a - 52)) by lia.
      rewrite (Z.pow_add_r 2 53 (Z.log2 a - 52)) by lia. reflexivity. }
    destruct (Z.eq_dec k 9007199254740992) as [->|Nk].
    + assert (E1 : Z.log2 (9007199254740992 * q) = Z.succ (Z.log2 a)).
      { rewrite <- P53. apply Z.log2_pow2. lia. }
      unfold q'. rewrite E1.
      replace (Z.succ (Z.log2 a) - 52) with (1 + (Z.log2 a - 52)) by lia.
      rewrite (Z.pow_add_r 2 1 (Z.log2 a - 52)) by lia. fold q.
      change (2 ^ 1) with 2.
      replace (9007199254740992 * q) with (4503599627370496 * (2 * q)) by lia.
      apply Z.mod_mul. lia.
    + assert (E1 : Z.log2 (k * q) = Z.log2 a).
      { apply Z.log2_unique; [lia|]. rewrite P52, P53. nia. }
      unfold q'. rewrite E1. fold q. apply Z.mod_mul. lia.
Qed.

Lemma toDouble_idem (z : Z) : toDouble (toDouble z) = toDouble z.
Proof.
  unfold toDouble. destruct (z <? 0) eqn:E.
  - apply Z.ltb_lt in E.
    pose proof (toDoubleNonneg_nonneg (- z) ltac:(lia)) as Hn.
    destruct (- toDoubleNonneg (- z) <? 0) eqn:E2.
    + rewrite Z.opp_involutive, toDoubleNonneg_idem by lia. reflexivity.
    + apply Z.ltb_ge in E2. assert (toDoubleNonneg (- z) = 0) as -> by lia.
      reflexivity.
  - apply Z.ltb_ge in E.
    pose proof (toDoubleNonneg_nonneg z E) as Hn.
    destruct (toDoubleNonneg z <? 0) eqn:E2;
      [apply Z.ltb_lt in E2; lia|].
    apply toDoubleNonneg_idem. exact E.
Qed.

Lemma toDouble_nonneg (z : Z) : 0 <= z -> 0 <= toDouble z.
Proof.
  intros Hz. change 0 with (toDouble 0) at 1. by apply toDouble_mono.
Qed.

(** Doubles above 2^53: odd integers go to a neighbour with an even
    mantissa, and in the next binade the doubles are four apart. *)
Example toDouble_above_exactBound :
  toDouble 9007199254740993 = 9007199254740992 /\
  toDouble 9007199254740995 = 9007199254740996 /\
  toDouble 27021597764222982 = 27021597764222984 /\
  jsSub 27021597764222984 9007199254740994 = 18014398509481992 /\
  jsSub 18014398509481992 9007199254740994 = 9007199254740998.
Proof. vm_compute. repeat split. Qed.

(** ** The entropy source *)

Lemma Qltb_lt (x y : Q) : Qltb x y = true <-> (x < y)%Q.
Proof.
  unfold Qltb. rewrite negb_true_iff, <- not_true_iff_false, Qle_bool_iff.
  split; [apply Qnot_le_lt | apply Qlt_not_le].
Qed.

Lemma Qltb_ge (x y : Q) : Qltb x y = false <-> ~ (x < y)%Q.
Proof. rewrite <- Qltb_lt. destruct (Qltb x y); split; congruence. Qed.

Lemma bernoulli_draw (p : Q) (r : Rng) :
  bernoulli p r = (Qltb (upcoming r 0) p, advance 1 r).
Proof. reflexivity. Qed.

Lemma advance_advance (a b : nat) (r : Rng) :
  advance a (advance b r) = advance (a + b) r.
Proof. unfold advance; simpl. f_equal. lia. Qed.

Lemma advance_0 (r : Rng) : advance 0 r = r.
Proof. destruct r; reflexivity. Qed.

Lemma upcoming_advance (a k : nat) (r : Rng) :
  upcoming (advance a r) k = upcoming r (k + a).
Proof. unfold upcoming, advance; simpl. f_equal. lia. Qed.

(** ** Engagement *)

(** The barrage loop reports a kill exactly when one of its [n] draws is a
    hit, and reads no draw after the first hit. *)
Lemma barrageLoop_spec (n : nat) (pk : Q) (r : Rng) :
  (fst (barrageLoop n pk r) = true <->
     exists i : nat, (i < n)%nat /\ (upcoming r i < pk)%Q) /\
  exists m : nat, (m <= n)%nat /\ snd (barrageLoop n pk r) = advance m r /\
    (fst (barrageLoop n pk r) = true ->
       (1 <= m)%nat /\ (upcoming r (m - 1) < pk)%Q).
Proof.
  revert r. induction n as [|n IH]; intros r.
  - simpl. split.
    + split; [discriminate | intros (i & Hi & _); lia].
    + exists 0%nat. rewrite advance_0.
      split; [lia | split; [reflexivity | discriminate]].
  - cbn [barrageLoop]. unfold bind. rewrite bernoulli_draw.
    destruct (Qltb (upcoming r 0) pk) eqn:Hhit.
    + apply Qltb_lt in Hhit. simpl. split.
      * split; [|reflexivity].
        intros _. exists 0%nat. split; [lia | exact Hhit].
      * exists 1%nat.
        split; [lia | split; [reflexivity|]].
        intros _. split; [lia | exact Hhit].
    + apply Qltb_ge in Hhit.
      destruct (IH (advance 1 r)) as [Hk (m & Hm & Hr & Hlast)].
      split.
      * rewrite Hk. split.
        -- intros (i & Hi & Hlt). exists (S i). split; [lia|].
           rewrite upcoming_advance in Hlt.
           replace (i + 1)%nat with (S i) in Hlt by lia. exact Hlt.
        -- intros (i & Hi & Hlt). destruct i as [|i]; [contradiction|].
           exists i. split; [lia|]. rewrite upcoming_advance.
           replace (i + 1)%nat with (S i) by lia. exact Hlt.
      * exists (S m). rewrite Hr, advance_advance.
        replace (m + 1)%nat with (S m) by lia.
        split; [lia | split; [reflexivity |]].
        intros Hkill. destruct (Hlast Hkill) as [H1 Hlt]. split; [lia|].
        rewrite upcoming_advance in Hlt.
        replace (S m - 1)%nat with (m - 1 + 1)%nat by lia. exact Hlt.
Qed.

(** The shoot-look-shoot loop takes [m <= n] shots.  Shot number [k + 1]
    reads draw [2 * k]; the re-engagement draw that follows a miss is draw
    [2 * k + 1]. *)
Lemma slsLoop_spec (n : nat) (pk pRe : Q) (inv fired : Z) (r : Rng) :
  let out := fst (slsLoop n pk pRe inv fired r) in
  let r' := snd (slsLoop n pk pRe inv fired r) in
  exists m : nat,
    (m <= n)%nat /\
    shotsFired out = fired + Z.of_nat m /\
    inventoryRemaining out = jsSub inv (shotsFired out) /\
    (forall k : nat, (S k < m)%nat ->
       ~ (upcoming r (2 * k) < pk)%Q /\ (upcoming r (2 * k + 1) < pRe)%Q) /\
    (killed out = true ->
       (1 <= m)%nat /\ (upcoming r (2 * (m - 1)) < pk)%Q /\
       r' = advance (2 * m - 1) r) /\
    (killed out = false ->
       r' = advance (2 * m) r /\
       (forall k : nat, (k < m)%nat -> ~ (upcoming r (2 * k) < pk)%Q) /\
       ((m < n)%nat ->
          (1 <= m)%nat /\ ~ (upcoming r (2 * m - 1) < pRe)%Q)).
Proof.
  revert fired r. induction n as [|n IH]; intros fired r.
  - exists 0%nat. simpl. rewrite advance_0.
    split; [lia|]. split; [lia|]. split; [reflexivity|].
    split; [intros k Hk; lia|]. split; [discriminate|].
    intros _. split; [reflexivity|]. split; intros; lia.
  - cbn [slsLoop]. unfold bind. rewrite bernoulli_draw.
    destruct (Qltb (upcoming r 0) pk) eqn:Hhit.
    + apply Qltb_lt in Hhit. exists 1%nat. simpl.
      split; [lia|]. split; [lia|]. split; [reflexivity|].
      split; [intros k Hk; lia|]. split; [|discriminate].
      intros _. split; [lia|]. split; [exact Hhit | reflexivity].
    + apply Qltb_ge in Hhit. rewrite bernoulli_draw.
      rewrite upcoming_advance, advance_advance. simpl (0 + 1)%nat.
      simpl (1 + 1)%nat.
      destruct (Qltb (upcoming r 1) pRe) eqn:Hre; cbn [negb].
      * apply Qltb_lt in Hre.
        destruct (IH (fired + 1) (advance 2 r))
          as (m & Hm & Hshots & Hinv & Hearly & Hkill & Hmiss).
        exists (S m).
        split; [lia|]. split; [lia|]. split; [exact Hinv|].
        split; [|split].
        -- intros k Hk. destruct k as [|k].
           ++ split; [exact Hhit | exact Hre].
           ++ destruct (Hearly k ltac:(lia)) as [H1 H2].
              rewrite !upcoming_advance in H1, H2.
              replace (2 * S k)%nat with (2 * k + 2)%nat by lia.
              replace (2 * k + 2 + 1)%nat with (2 * k + 1 + 2)%nat by lia.
              split; assumption.
        -- intros Hk. destruct (Hkill Hk) as (H1 & H2 & H3).
           split; [lia|]. rewrite upcoming_advance in H2. split.
           ++ replace (2 * (S m - 1))%nat with (2 * (m - 1) + 2)%nat by lia.
              exact H2.
           ++ rewrite H3, advance_advance. f_equal. lia.
        -- intros Hk. destruct (Hmiss Hk) as (H1 & H2 & H3).
           split; [|split].
           ++ rewrite H1, advance_advance. f_equal. lia.
           ++ intros k Hlt. destruct k as [|k]; [exact Hhit|].
              specialize (H2 k ltac:(lia)). rewrite upcoming_advance in H2.
              replace (2 * S k)%nat with (2 * k + 2)%nat by lia. exact H2.
           ++ intros Hlt. destruct (H3 ltac:(lia)) as [H4 H5].
              split; [lia|]. rewrite upcoming_advance in H5.
              replace (2 * S m - 1)%nat with (2 * m - 1 + 2)%nat by lia.
              exact H5.
      * apply Qltb_ge in Hre. exists 1%nat. simpl.
        split; [lia|]. split; [lia|]. split; [reflexivity|].
        split; [intros k Hk; lia|]. split; [discriminate|].
        intros _. split; [reflexivity|]. split.
        -- intros k Hk. replace k with 0%nat by lia. exact Hhit.
        -- intros _. split; [lia | exact Hre].
Qed.

(** What every engagement does to the inventory, under either doctrine:
    either nothing is fired and the inventory comes back as it was, or the
    shots are subtracted from it as doubles. *)
Lemma engageTarget_accounting (tgt : Target) (params : Params) (inv : Z)
    (r : Rng) :
  let out := fst (engageTarget tgt params inv r) in
  0 <= shotsFired out /\
  shotsFired out <= Z.max 0 inv /\
  ((shotsFired out = 0 /\ inventoryRemaining out = inv) \/
   (0 < inv /\ inventoryRemaining out = jsSub inv (shotsFired out))).
Proof.
  unfold engageTarget.
  destruct (inv <=? 0) eqn:Hinv; [simpl; lia|].
  apply Z.leb_gt in Hinv.
  destruct (String.eqb (doctrineMode params) "barrage").
  - destruct (Z.min (shotsPerTarget params) inv <=? 0) eqn:Halloc;
      [simpl; lia|].
    apply Z.leb_gt in Halloc. unfold bind.
    destruct (barrageLoop _ _ r) as [k r']. simpl.
    split; [lia|]. split; [lia|]. right. split; [lia | reflexivity].
  - pose proof (slsLoop_spec
      (Z.to_nat (Z.min (maxShotsPerTarget params) inv))
      (if isWarhead tgt then pkWarhead params else pkDecoy params)
      (pReengage params) inv 0 r) as H.
    cbv zeta in H. destruct H as (m & Hm & Hshots & Hrem & _).
    cbv zeta. split; [lia|]. split; [lia|]. right. split; [lia | exact Hrem].
Qed.

(** C2. In barrage mode with inventory left, the allocation is the smaller of
    the configured shots per target and the inventory; the outcome reports
    the whole allocation as fired whatever the draws are and takes it off the
    inventory by a double-precision subtraction, which is exact for an
    inventory of at most 2^53; at most [alloc] kill draws are read, and the
    target is killed exactly when one of those draws is a hit. *)
Theorem barrage_charges_full_allocation (tgt : Target) (params : Params)
    (inv : Z) (r : Rng) :
  doctrineMode params = "barrage" ->
  0 < inv ->
  0 <= shotsPerTarget params ->
  let alloc := Z.min (shotsPerTarget params) inv in
  let out := fst (engageTarget tgt params inv r) in
  shotsFired out = alloc /\
  (alloc = 0 -> inventoryRemaining out = inv) /\
  (0 < alloc -> inventoryRemaining out = jsSub inv alloc) /\
  (inv <= exactBound -> inventoryRemaining out = inv - alloc) /\
  (killed out = true <->
     exists i : nat, (i < Z.to_nat alloc)%nat /\
       (upcoming r i < killProbability tgt params)%Q) /\
  exists m : nat, (m <= Z.to_nat alloc)%nat /\
    snd (engageTarget tgt params inv r) = advance m r.
Proof.
  intros Hmode Hinv Hshots. cbv zeta. unfold engageTarget.
  apply Z.leb_gt in Hinv as Hinv'. rewrite Hinv', Hmode, String.eqb_refl.
  destruct (Z.min (shotsPerTarget params) inv <=? 0) eqn:Halloc.
  - apply Z.leb_le in Halloc.
    assert (Z.min (shotsPerTarget params) inv = 0) as -> by lia. simpl.
    split; [reflexivity|]. split; [reflexivity|]. split; [lia|].
    split; [lia|]. split.
    + split; [discriminate | intros (i & Hi & _); lia].
    + exists 0%nat. rewrite advance_0. split; [lia | reflexivity].
  - apply Z.leb_gt in Halloc. unfold bind.
    destruct (barrageLoop_spec
      (Z.to_nat (Z.min (shotsPerTarget params) inv))
      (killProbability tgt params) r) as [Hk (m & Hm & Hr & _)].
    fold (killProbability tgt params).
    destruct (barrageLoop _ _ r) as [k r']. simpl in *.
    split; [reflexivity|]. split; [lia|]. split; [reflexivity|].
    split; [|split; [exact Hk | exists m; split; [exact Hm | exact Hr]]].
    intros Hsafe. unfold jsSub. apply toDouble_exact.
    unfold exactBound in *. lia.
Qed.

(** C3. In shoot-look-shoot mode the shots fired never exceed the smaller of
    the configured maximum and the inventory, each shot is charged singly,
    and the inventory after is the double-precision difference of the
    inventory and the shots fired, exact for an inventory of at most 2^53.
    Every shot but the last missed and was followed by a successful
    re-engagement draw.  The target is killed exactly when the draw of the
    last shot is a hit, and then no further draw is read.  Without a kill
    every shot missed, and an engagement that stopped below the cap stopped
    because the re-engagement draw after the last shot failed. *)
Theorem sls_charges_per_shot (tgt : Target) (params : Params) (inv : Z)
    (r : Rng) :
  doctrineMode params <> "barrage" ->
  0 <= inv ->
  0 <= maxShotsPerTarget params ->
  let pk := killProbability tgt params in
  let out := fst (engageTarget tgt params inv r) in
  let r' := snd (engageTarget tgt params inv r) in
  exists m : nat,
    shotsFired out = Z.of_nat m /\
    shotsFired out <= Z.min (maxShotsPerTarget params) inv /\
    inventoryRemaining out = jsSub inv (shotsFired out) /\
    (inv <= exactBound -> inventoryRemaining out = inv - shotsFired out) /\
    (forall k : nat, (S k < m)%nat ->
       ~ (upcoming r (2 * k) < pk)%Q /\
       (upcoming r (2 * k + 1) < pReengage params)%Q) /\
    (killed out = true <->
       (1 <= m)%nat /\ (upcoming r (2 * (m - 1)) < pk)%Q) /\
    (killed out = true -> r' = advance (2 * m - 1) r) /\
    (killed out = false ->
       r' = advance (2 * m) r /\
       (forall k : nat, (k < m)%nat -> ~ (upcoming r (2 * k) < pk)%Q) /\
       (shotsFired out < Z.min (maxShotsPerTarget params) inv ->
        (1 <= m)%nat /\ ~ (upcoming r (2 * m - 1) < pReengage params)%Q)).
Proof.
  intros Hmode Hinv Hmax. cbv zeta. unfold engageTarget.
  destruct (inv <=? 0) eqn:Hle.
  - apply Z.leb_le in Hle. assert (inv = 0) as -> by lia.
    exists 0%nat. simpl. rewrite advance_0.
    split; [reflexivity|]. split; [lia|]. split; [reflexivity|].
    split; [reflexivity|]. split; [intros k Hk; lia|].
    split; [split; [discriminate | intros [H _]; lia]|].
    split; [discriminate|]. intros _.
    split; [reflexivity|]. split; intros; lia.
  - apply Z.leb_gt in Hle.
    apply String.eqb_neq in Hmode. rewrite Hmode.
    fold (killProbability tgt params).
    pose proof (slsLoop_spec
      (Z.to_nat (Z.min (maxShotsPerTarget params) inv))
      (killProbability tgt params) (pReengage params) inv 0 r) as H.
    cbv zeta in H.
    destruct H as (m & Hm & Hshots & Hrem & Hearly & Hkill & Hmiss).
    exists m. split; [lia|]. split; [lia|]. split; [exact Hrem|].
    split; [|split; [exact Hearly|]].
    { intros Hsafe. rewrite Hrem. unfold jsSub. apply toDouble_exact.
      unfold exactBound in *. lia. }
    split; [|split].
    + split.
      * intros Hk. destruct (Hkill Hk) as (H1 & H2 & _). split; assumption.
      * intros [H1 H2].
        destruct (killed (fst (slsLoop _ _ _ inv 0 r))) eqn:Hk;
          [reflexivity|].
        destruct (Hmiss eq_refl) as (_ & Hall & _).
        destruct (Hall (m - 1)%nat ltac:(lia) H2).
    + intros Hk. apply (Hkill Hk).
    + intros Hk. destruct (Hmiss Hk) as (H1 & H2 & H3).
      split; [exact H1|]. split; [exact H2|]. intros Hlt. apply H3. lia.
Qed.

(** C10. Any doctrine mode other than the string ["barrage"] is resolved by
    the shoot-look-shoot loop: the engagement is the one that mode ["sls"]
    gives, and it always returns an outcome. *)
Theorem unknown_doctrine_is_sls (tgt : Target) (params : Params) (inv : Z)
    (r : Rng) :
  doctrineMode params <> "barrage" ->
  engageTarget tgt params inv r = engageTarget tgt (withMode params "sls") inv r
  /\
  engageTarget tgt params inv r =
    (if inv <=? 0 then ret (mkOutcome false 0 inv)
     else slsLoop (Z.to_nat (Z.min (maxShotsPerTarget params) inv))
            (killProbability tgt params) (pReengage params) inv 0) r.
Proof.
  intros Hmode. apply String.eqb_neq in Hmode.
  unfold engageTarget, killProbability. rewrite Hmode. simpl.
  destruct (inv <=? 0); split; reflexivity.
Qed.

(** With nothing to fire the engagement is a miss that reads no draw. *)
Lemma engageTarget_nothing_to_fire (tgt : Target) (params : Params) (inv : Z)
    (r : Rng) :
  inv <= 0 \/
  (doctrineMode params = "barrage" /\ Z.min (shotsPerTarget params) inv <= 0) ->
  engageTarget tgt params inv r = (mkOutcome false 0 inv, r).
Proof.
  intros H. unfold engageTarget.
  destruct (inv <=? 0) eqn:Hinv; [reflexivity|].
  apply Z.leb_gt in Hinv. destruct H as [H | [Hmode Halloc]]; [lia|].
  rewrite Hmode, String.eqb_refl.
  apply Z.leb_le in Halloc. rewrite Halloc. reflexivity.
Qed.

Lemma perTargetCap_withPk (params : Params) (pkW pkD : Q) :
  perTargetCap (withPk params pkW pkD) = perTargetCap params.
Proof. reflexivity. Qed.

(** A kill takes at least one shot, and no engagement takes more than the
    configured shots per target. *)
Lemma engageTarget_bounds (tgt : Target) (params : Params) (inv : Z)
    (r : Rng) :
  let out := fst (engageTarget tgt params inv r) in
  (killed out = true -> 1 <= shotsFired out) /\
  shotsFired out <= Z.max 0 (perTargetCap params).
Proof.
  unfold engageTarget, perTargetCap.
  destruct (inv <=? 0) eqn:Hinv; [simpl; split; [discriminate | lia]|].
  apply Z.leb_gt in Hinv.
  destruct (String.eqb (doctrineMode params) "barrage").
  - destruct (Z.min (shotsPerTarget params) inv <=? 0) eqn:Halloc;
      [simpl; split; [discriminate | lia]|].
    apply Z.leb_gt in Halloc. unfold bind.
    destruct (barrageLoop _ _ r) as [k r']. simpl. lia.
  - pose proof (slsLoop_spec
      (Z.to_nat (Z.min (maxShotsPerTarget params) inv))
      (if isWarhead tgt then pkWarhead params else pkDecoy params)
      (pReengage params) inv 0 r) as H.
    cbv zeta in H. destruct H as (m & Hm & Hshots & _ & _ & Hkill & _).
    cbv zeta. split; [|lia].
    intros Hk. destruct (Hkill Hk) as [H1 _]. lia.
Qed.

(** ** Salvo generator *)

Lemma shuffle_index_in_range (u : Q) (i : nat) :
  (0 <= u)%Q -> (u < 1)%Q -> 0 <= shuffleIndex u i <= Z.of_nat i.
Proof.
  intros H0 H1. unfold shuffleIndex.
  set (n := Z.of_nat i + 1).
  assert (Hn : (0 < inject_Z n)%Q).
  { change (inject_Z 0 < inject_Z n)%Q. rewrite <- Zlt_Qlt. unfold n. lia. }
  split.
  - change (Qfloor 0 <= Qfloor (u * inject_Z n)). apply Qfloor_resp_le.
    apply Qmult_le_0_compat; [exact H0 | apply Qlt_le_weak; exact Hn].
  - assert (Hlt : (inject_Z (Qfloor (u * inject_Z n)) < inject_Z n)%Q).
    { apply Qle_lt_trans with (u * inject_Z n)%Q; [apply Qfloor_le|].
      rewrite <- (Qmult_1_l (inject_Z n)) at 2.
      apply Qmult_lt_compat_r; assumption. }
    rewrite <- Zlt_Qlt in Hlt. unfold n in *. lia.
Qed.

Lemma swap_Permutation {A : Type} (arr : list A) (i : nat) (j : Z) :
  (i < length arr)%nat -> 0 <= j < Z.of_nat (length arr) ->
  swap arr i j ≡ₚ arr.
Proof.
  intros Hi Hj. unfold swap.
  destruct (lookup_lt_is_Some_2 arr i Hi) as [x Hx].
  destruct (lookup_lt_is_Some_2 arr (Z.to_nat j) ltac:(lia)) as [y Hy].
  rewrite Hx. destruct (j <? 0) eqn:Hneg; [apply Z.ltb_lt in Hneg; lia|].
  rewrite Hy. apply Permutation_insert_swap; assumption.
Qed.

Lemma shuffleLoop_Permutation {A : Type} (i : nat) (arr : list A) (r : Rng) :
  uniform_draws r -> (i = 0 \/ i < length arr)%nat ->
  fst (shuffleLoop i arr r) ≡ₚ arr.
Proof.
  revert arr r. induction i as [|i IH]; intros arr r Hu Hi; [reflexivity|].
  cbn [shuffleLoop]. unfold bind, randUniform.
  destruct (Hu (cursor r)) as [H0 H1].
  pose proof (shuffle_index_in_range _ (S i) H0 H1) as Hj.
  assert (Hswap : swap arr (S i) (shuffleIndex (stream r (cursor r)) (S i))
                    ≡ₚ arr) by (apply swap_Permutation; lia).
  rewrite <- Hswap at 2. apply IH.
  - intros n. apply Hu.
  - right. rewrite (Permutation_length Hswap). lia.
Qed.

Lemma shuffle_Permutation {A : Type} (arr : list A) (r : Rng) :
  uniform_draws r -> fst (shuffle arr r) ≡ₚ arr.
Proof.
  intros Hu. apply shuffleLoop_Permutation; [exact Hu|].
  destruct arr; simpl; lia.
Qed.

Lemma countKind_Permutation (k : Kind) (l1 l2 : list Target) :
  l1 ≡ₚ l2 -> countKind k l1 = countKind k l2.
Proof. intros H. unfold countKind. by rewrite H. Qed.

Lemma countKind_app (k : Kind) (l1 l2 : list Target) :
  countKind k (l1 ++ l2) = countKind k l1 + countKind k l2.
Proof. unfold countKind. rewrite filter_app, length_app. lia. Qed.

Lemma countKind_cons (k : Kind) (t : Target) (l : list Target) :
  countKind k (t :: l) =
  (if bool_decide (kind t = k) then 1 else 0) + countKind k l.
Proof.
  unfold countKind. rewrite filter_cons.
  case_bool_decide; destruct (decide (kind t = k)); simpl; try lia; done.
Qed.

Lemma countKind_pushed (k k' : Kind) (tag : string) (n : Z) :
  countKind k (pushed k' tag n) =
  if bool_decide (k' = k) then Z.of_nat (Z.to_nat n) else 0.
Proof.
  unfold pushed. generalize 0%nat as start.
  induction (Z.to_nat n) as [|m IH]; intros start.
  - simpl. by case_bool_decide.
  - cbn [seq fmap list_fmap]. rewrite countKind_cons, IH. simpl.
    case_bool_decide; lia.
Qed.

Lemma length_pushed (k : Kind) (tag : string) (n : Z) :
  length (pushed k tag n) = Z.to_nat n.
Proof. unfold pushed. by rewrite length_fmap, length_seq. Qed.

Lemma generateTargets_counts (params : Params) (r : Rng) :
  salvoRealWarheads (fst (generateTargets params r)) =
    nMissiles params * mirvsPerMissile params /\
  salvoDecoys (fst (generateTargets params r)) =
    nMissiles params * mirvsPerMissile params * decoysPerWarhead params.
Proof.
  unfold generateTargets, bind. destruct (shuffle _ r). split; reflexivity.
Qed.

Lemma generateTargets_Permutation (params : Params) (r : Rng) :
  uniform_draws r ->
  targets (fst (generateTargets params r)) ≡ₚ population params.
Proof.
  intros Hu. unfold generateTargets, bind.
  pose proof (shuffle_Permutation (population params) r Hu) as H.
  unfold population in H. destruct (shuffle _ r). exact H.
Qed.

Lemma countKind_population (params : Params) :
  0 <= nMissiles params * mirvsPerMissile params ->
  0 <= nMissiles params * mirvsPerMissile params * decoysPerWarhead params ->
  countKind warhead (population params) =
    nMissiles params * mirvsPerMissile params /\
  countKind decoy (population params) =
    nMissiles params * mirvsPerMissile params * decoysPerWarhead params.
Proof.
  intros Hw Hd. unfold population.
  rewrite !countKind_app, !countKind_pushed. simpl. lia.
Qed.

(** C5. The salvo generator returns M * V real warheads and that many times
    D decoys, whatever the draws are, and its object sequence is a
    permutation of the generated population: exactly that many objects of
    each kind. *)
Theorem salvo_is_permutation_of_population (params : Params) (r : Rng) :
  0 <= nMissiles params ->
  0 <= mirvsPerMissile params ->
  0 <= decoysPerWarhead params ->
  uniform_draws r ->
  let g := fst (generateTargets params r) in
  salvoRealWarheads g = nMissiles params * mirvsPerMissile params /\
  salvoDecoys g = salvoRealWarheads g * decoysPerWarhead params /\
  targets g ≡ₚ pushed warhead "W" (salvoRealWarheads g) ++
               pushed decoy "D" (salvoDecoys g) /\
  countKind warhead (targets g) = salvoRealWarheads g /\
  countKind decoy (targets g) = salvoDecoys g /\
  Z.of_nat (length (targets g)) = salvoRealWarheads g + salvoDecoys g /\
  forall r' : Rng,
    salvoRealWarheads (fst (generateTargets params r')) = salvoRealWarheads g /\
    salvoDecoys (fst (generateTargets params r')) = salvoDecoys g.
Proof.
  intros HM HV HD Hu. cbv zeta.
  destruct (generateTargets_counts params r) as [Hw Hd].
  pose proof (generateTargets_Permutation params r Hu) as Hperm.
  assert (0 <= nMissiles params * mirvsPerMissile params) as Hw0 by lia.
  assert (0 <= nMissiles params * mirvsPerMissile params *
               decoysPerWarhead params) as Hd0 by lia.
  destruct (countKind_population params Hw0 Hd0) as [Hcw Hcd].
  rewrite Hd, Hw.
  split; [reflexivity|]. split; [reflexivity|]. split; [exact Hperm|].
  split; [by rewrite (countKind_Permutation _ _ _ Hperm)|].
  split; [by rewrite (countKind_Permutation _ _ _ Hperm)|].
  split.
  - rewrite (Permutation_length Hperm). unfold population.
    rewrite length_app, !length_pushed. lia.
  - intros r'. destruct (generateTargets_counts params r') as [-> ->].
    split; reflexivity.
Qed.

(** ** The trial loop *)

Lemma countKind_warhead_cons (tgt : Target) (l : list Target) :
  countKind warhead (tgt :: l) = warheadCount tgt + countKind warhead l.
Proof. apply countKind_cons. Qed.

(** In one iteration a real warhead is counted once, as penetrated or as
    intercepted, and a decoy is not counted. *)
Lemma trialStep_fates (params : Params) (d : Degradation)
    (st : TrialState) (tgt : Target) (r : Rng) :
  let st' := fst (trialStep params d st tgt r) in
  st_penetratedRealWarheads st' + st_interceptedRealWarheads st' =
    st_penetratedRealWarheads st + st_interceptedRealWarheads st +
    warheadCount tgt /\
  st_penetratedRealWarheads st <= st_penetratedRealWarheads st' /\
  st_interceptedRealWarheads st <= st_interceptedRealWarheads st'.
Proof.
  unfold trialStep, bind. rewrite bernoulli_draw.
  destruct (Qltb _ (pDetectTrack_trial d)); cbn [negb].
  2: { unfold notePenetrated, warheadCount.
       destruct (isWarhead tgt); simpl; lia. }
  destruct (classifyTarget tgt params (advance 1 r)) as [c r1].
  destruct c; cbn [negb].
  2: { unfold notePenetrated, noteClassified, noteDetected, warheadCount.
       destruct (isWarhead tgt); simpl; lia. }
  destruct (engageTarget _ _ _ r1) as [res r2].
  unfold noteEngaged, noteClassified, noteDetected, warheadCount.
  simpl. destruct (isWarhead tgt), (killed res); simpl; lia.
Qed.

Lemma classifyTarget_reads (tgt : Target) (params : Params) (r : Rng) :
  snd (classifyTarget tgt params r) = advance 1 r.
Proof.
  unfold classifyTarget.
  destruct (isWarhead tgt); rewrite bernoulli_draw; reflexivity.
Qed.

(** The inventory after an iteration is what the engagement returned, when
    the object was detected and classified as a warhead track, and the
    inventory before the iteration otherwise. *)
Lemma trialStep_inventory (params : Params) (d : Degradation)
    (st : TrialState) (tgt : Target) (r : Rng) :
  inventory (fst (trialStep params d st tgt r)) =
  if Qltb (upcoming r 0) (pDetectTrack_trial d) &&
     fst (classifyTarget tgt params (advance 1 r))
  then inventoryRemaining
         (fst (engageTarget tgt
                 (withPk params (pkWarhead_trial d) (pkDecoy_trial d))
                 (inventory st) (advance 2 r)))
  else inventory st.
Proof.
  unfold trialStep, bind. rewrite bernoulli_draw.
  destruct (Qltb _ (pDetectTrack_trial d)); cbn [negb andb].
  2: { unfold notePenetrated. destruct (isWarhead tgt); reflexivity. }
  pose proof (classifyTarget_reads tgt params (advance 1 r)) as Hr.
  destruct (classifyTarget tgt params (advance 1 r)) as [c r1].
  cbn [fst snd] in *. subst r1. rewrite advance_advance.
  change (1 + 1)%nat with 2%nat.
  destruct c; cbn [negb].
  2: { unfold notePenetrated. destruct (isWarhead tgt); reflexivity. }
  cbn [inventory noteClassified noteDetected].
  destruct (engageTarget _ _ _ (advance 2 r)) as [res r2]. reflexivity.
Qed.

(** An iteration leaves the inventory a non-negative number that is not
    above the inventory it found. *)
Lemma trialStep_inventory_bounds (params : Params) (d : Degradation)
    (st : TrialState) (tgt : Target) (r : Rng) :
  is_number (inventory st) -> 0 <= inventory st ->
  let st' := fst (trialStep params d st tgt r) in
  is_number (inventory st') /\ 0 <= inventory st' <= inventory st.
Proof.
  intros Hnum Hpos. cbv zeta. rewrite trialStep_inventory.
  destruct (_ && _); [|split; [exact Hnum | lia]].
  pose proof (engageTarget_accounting tgt
    (withPk params (pkWarhead_trial d) (pkDecoy_trial d))
    (inventory st) (advance 2 r)) as H.
  cbv zeta in H. destruct H as (H0 & Hmax & [[_ ->] | [_ ->]]);
    [split; [exact Hnum | lia]|].
  unfold jsSub, is_number in *. split; [apply toDouble_idem|]. split.
  - apply toDouble_nonneg. lia.
  - etransitivity; [apply (toDouble_mono _ (inventory st)); lia|].
    rewrite Hnum. reflexivity.
Qed.

(** With a configured inventory of at most 2^53 no sum of an iteration is
    rounded: inventory and shots keep adding up to the configured inventory,
    the shots split by the true kind of the target, and no target takes more
    than the cap. *)
Lemma trialStep_exact (params : Params) (d : Degradation)
    (st : TrialState) (tgt : Target) (r : Rng) (n : Z) :
  n <= exactBound ->
  exact_counts n (Z.max 0 (perTargetCap params)) st ->
  exact_counts n (Z.max 0 (perTargetCap params))
    (fst (trialStep params d st tgt r)).
Proof.
  intros Hn [Hinv Hsplit HW HD Hstart Hint].
  unfold trialStep, bind. rewrite bernoulli_draw.
  destruct (Qltb _ (pDetectTrack_trial d)); cbn [negb].
  2: { unfold notePenetrated.
       destruct (isWarhead tgt); constructor; simpl; lia. }
  destruct (classifyTarget tgt params (advance 1 r)) as [c r1].
  destruct c; cbn [negb].
  2: { unfold notePenetrated, noteClassified, noteDetected.
       destruct (isWarhead tgt); constructor; simpl; lia. }
  pose proof (engageTarget_accounting tgt
    (withPk params (pkWarhead_trial d) (pkDecoy_trial d))
    (inventory (noteClassified tgt true (noteDetected tgt st))) r1) as Ha.
  pose proof (engageTarget_bounds tgt
    (withPk params (pkWarhead_trial d) (pkDecoy_trial d))
    (inventory (noteClassified tgt true (noteDetected tgt st))) r1) as Hb.
  cbv zeta in Ha, Hb. rewrite perTargetCap_withPk in Hb.
  destruct (engageTarget _ _ _ r1) as [res r2].
  cbn [fst inventory noteClassified noteDetected] in Ha, Hb.
  destruct Ha as (H0 & Hmax & Hrem). destruct Hb as [Hkill Hcap].
  assert (Hshots : st_shotsTotal st + shotsFired res <= exactBound)
    by (unfold exactBound in *; lia).
  assert (Hrem' : inventoryRemaining res = inventory st - shotsFired res).
  { destruct Hrem as [[-> ->] | [Hpos ->]]; [lia|].
    unfold jsSub. apply toDouble_exact. unfold exactBound in *. lia. }
  assert (HT : jsAdd (st_shotsTotal st) (shotsFired res) =
               st_shotsTotal st + shotsFired res).
  { unfold jsAdd. apply toDouble_exact. unfold exactBound in *. lia. }
  assert (HsW : jsAdd (st_shotsAtTrueWarheads st) (shotsFired res) =
                st_shotsAtTrueWarheads st + shotsFired res).
  { unfold jsAdd. apply toDouble_exact. unfold exactBound in *. lia. }
  assert (HsD : jsAdd (st_shotsAtDecoys st) (shotsFired res) =
                st_shotsAtDecoys st + shotsFired res).
  { unfold jsAdd. apply toDouble_exact. unfold exactBound in *. lia. }
  unfold noteEngaged, noteClassified, noteDetected.
  destruct (isWarhead tgt), (killed res); constructor; simpl;
    rewrite ?HT, ?HsW, ?HsD, ?Hrem'; try specialize (Hkill eq_refl); lia.
Qed.

(** A real warhead is counted as intercepted exactly when it was detected,
    classified as a warhead track, and killed by the engagement. *)
Lemma trialStep_intercepts (params : Params) (d : Degradation)
    (st : TrialState) (tgt : Target) (r : Rng) :
  kind tgt = warhead ->
  let st' := fst (trialStep params d st tgt r) in
  st_interceptedRealWarheads st' = st_interceptedRealWarheads st + 1 <->
  Qltb (upcoming r 0) (pDetectTrack_trial d) = true /\
  Qltb (upcoming r 1) (pClassifyWarhead params) = true /\
  killed (fst (engageTarget tgt
                 (withPk params (pkWarhead_trial d) (pkDecoy_trial d))
                 (inventory st) (advance 2 r))) = true.
Proof.
  intros Hk. assert (Hw : isWarhead tgt = true).
  { unfold isWarhead. by rewrite Hk. }
  cbv zeta. unfold trialStep, bind. rewrite bernoulli_draw.
  destruct (Qltb (upcoming r 0) (pDetectTrack_trial d)); cbn [negb].
  2: { unfold notePenetrated. rewrite Hw. simpl.
       split; [lia | intros (? & _); discriminate]. }
  unfold classifyTarget. rewrite Hw, bernoulli_draw, upcoming_advance.
  rewrite advance_advance. simpl (0 + 1)%nat. simpl (1 + 1)%nat.
  destruct (Qltb (upcoming r 1) (pClassifyWarhead params)); cbn [negb].
  2: { unfold notePenetrated. rewrite Hw. simpl.
       split; [lia | intros (_ & ? & _); discriminate]. }
  cbn [inventory noteClassified noteDetected].
  destruct (engageTarget _ _ (inventory st) (advance 2 r)) as [res r2].
  unfold noteEngaged. rewrite Hw. simpl.
  destruct (killed res); simpl; split; try lia; try tauto;
    intros (_ & _ & ?); discriminate.
Qed.

Lemma forOf_app {S A : Type} (body : S -> A -> Rand S) (xs ys : list A)
    (st : S) (r : Rng) :
  forOf body (xs ++ ys) st r =
  (st' <- forOf body xs st;; forOf body ys st') r.
Proof.
  revert st r. induction xs as [|x xs IH]; intros st r; [reflexivity|].
  cbn [forOf app]. unfold bind in *. destruct (body st x r) as [st1 r1].
  apply IH.
Qed.

(** A property of the trial state that every iteration keeps holds after
    the loop. *)
Lemma forOf_keeps (params : Params) (d : Degradation)
    (P : TrialState -> Prop) :
  (forall (st : TrialState) (tgt : Target) (r : Rng),
     P st -> P (fst (trialStep params d st tgt r))) ->
  forall (xs : list Target) (st : TrialState) (r : Rng),
    P st -> P (fst (forOf (trialStep params d) xs st r)).
Proof.
  intros Hstep xs. induction xs as [|x xs IH]; intros st r HP; [exact HP|].
  cbn [forOf]. unfold bind. pose proof (Hstep st x r HP) as HP1.
  destruct (trialStep params d st x r) as [st1 r1]. apply IH. exact HP1.
Qed.

Lemma forOf_fates (params : Params) (d : Degradation)
    (xs : list Target) (st : TrialState) (r : Rng) :
  let st' := fst (forOf (trialStep params d) xs st r) in
  st_penetratedRealWarheads st' + st_interceptedRealWarheads st' =
    st_penetratedRealWarheads st + st_interceptedRealWarheads st +
    countKind warhead xs.
Proof.
  revert st r. induction xs as [|x xs IH]; intros st r.
  - simpl. unfold countKind. simpl. lia.
  - cbn [forOf]. unfold bind.
    pose proof (trialStep_fates params d st x r) as Hstep.
    cbv zeta in Hstep. destruct (trialStep params d st x r) as [st1 r1].
    specialize (IH st1 r1). cbv zeta in IH. simpl in Hstep.
    rewrite countKind_warhead_cons. lia.
Qed.

Lemma forOf_exact (params : Params) (d : Degradation) (xs : list Target)
    (st : TrialState) (r : Rng) (n : Z) :
  n <= exactBound ->
  exact_counts n (Z.max 0 (perTargetCap params)) st ->
  exact_counts n (Z.max 0 (perTargetCap params))
    (fst (forOf (trialStep params d) xs st r)).
Proof.
  intros Hn. apply forOf_keeps. intros st0 tgt r0.
  apply trialStep_exact. exact Hn.
Qed.

Lemma initialState_exact (params : Params) (cap : Z) :
  exact_counts (nInventory params) cap (initialState params).
Proof. constructor; simpl; lia. Qed.

Lemma runOneTrial_stages (params : Params) (r : Rng) :
  fst (runOneTrial params r) =
  trialResult (salvoRealWarheads (salvoOf params r)) (degradationOf params r)
    (fst (trialPrefix params (length (targets (salvoOf params r))) r)).
Proof.
  unfold runOneTrial, trialPrefix, salvoOf, degradationOf, bind.
  destruct (generateTargets params r) as [g r1]. cbn [fst snd].
  destruct (applyTrialDegradation params r1) as [d r2]. simpl.
  rewrite firstn_all. destruct (forOf _ _ _ r2). reflexivity.
Qed.

Lemma trialPrefix_step (params : Params) (r : Rng) (k : nat) (tgt : Target) :
  targets (salvoOf params r) !! k = Some tgt ->
  trialPrefix params (S k) r =
  (st <- trialPrefix params k;;
   trialStep params (degradationOf params r) st tgt) r.
Proof.
  unfold trialPrefix, salvoOf, degradationOf, bind.
  destruct (generateTargets params r) as [g r1]. cbn [fst snd].
  destruct (applyTrialDegradation params r1) as [d r2]. simpl.
  intros Hk. rewrite (take_S_r _ _ _ Hk), forOf_app. cbn [forOf].
  unfold bind, ret.
  destruct (forOf _ (take k (targets g)) _ r2) as [st r3]. cbn [fst snd].
  destruct (trialStep params d st tgt r3). reflexivity.
Qed.

Lemma trialPrefix_past_end (params : Params) (r : Rng) (k : nat) :
  targets (salvoOf params r) !! k = None ->
  trialPrefix params (S k) r = trialPrefix params k r.
Proof.
  unfold trialPrefix, salvoOf, bind.
  destruct (generateTargets params r) as [g r1]. cbn [fst snd].
  destruct (applyTrialDegradation params r1) as [d r2]. simpl.
  intros Hk. apply lookup_ge_None in Hk.
  rewrite !take_ge by lia. reflexivity.
Qed.

Lemma trialPrefix_fates (params : Params) (r : Rng) (k : nat) :
  let st := fst (trialPrefix params k r) in
  st_penetratedRealWarheads st + st_interceptedRealWarheads st =
    countKind warhead (take k (targets (salvoOf params r))).
Proof.
  unfold trialPrefix, salvoOf, bind.
  destruct (generateTargets params r) as [g r1]. cbn [fst snd].
  destruct (applyTrialDegradation params r1) as [d r2].
  pose proof (forOf_fates params d (take k (targets g))
                (initialState params) r2) as H.
  cbv zeta in *. simpl in *. lia.
Qed.

Lemma trialPrefix_inventory (params : Params) (r : Rng) (k : nat) :
  is_number (nInventory params) -> 0 <= nInventory params ->
  is_number (inventoryAfter params r k) /\ 0 <= inventoryAfter params r k.
Proof.
  intros Hnum Hpos. unfold inventoryAfter, trialPrefix, bind.
  destruct (generateTargets params r) as [g r1].
  destruct (applyTrialDegradation params r1) as [d r2].
  apply (forOf_keeps params d
           (fun st => is_number (inventory st) /\ 0 <= inventory st));
    [|split; assumption].
  intros st tgt r0 [H1 H2].
  pose proof (trialStep_inventory_bounds params d st tgt r0 H1 H2) as H.
  cbv zeta in H. split; [apply H | lia].
Qed.

Lemma trialPrefix_exact (params : Params) (r : Rng) (k : nat) :
  nInventory params <= exactBound ->
  exact_counts (nInventory params) (Z.max 0 (perTargetCap params))
    (fst (trialPrefix params k r)).
Proof.
  intros Hn. unfold trialPrefix, bind.
  destruct (generateTargets params r) as [g r1].
  destruct (applyTrialDegradation params r1) as [d r2].
  apply forOf_exact; [exact Hn | apply initialState_exact].
Qed.

(** ** Trial results *)

Lemma trialPrefix_all (params : Params) (r : Rng) :
  let st :=
    fst (trialPrefix params (length (targets (salvoOf params r))) r) in
  uniform_draws r ->
  0 <= nMissiles params * mirvsPerMissile params ->
  0 <= nMissiles params * mirvsPerMissile params * decoysPerWarhead params ->
  st_penetratedRealWarheads st + st_interceptedRealWarheads st =
    nMissiles params * mirvsPerMissile params.
Proof.
  intros st Hu Hw Hd. subst st.
  rewrite (trialPrefix_fates params r (length (targets (salvoOf params r)))).
  rewrite firstn_all.
  rewrite (countKind_Permutation _ _ _
             (generateTargets_Permutation params r Hu)).
  apply (countKind_population params Hw Hd).
Qed.

(** C1. In every trial of a valid configuration the penetrated and the
    intercepted real warheads add up to the real warheads; in each iteration
    of the loop a real warhead raises exactly one of the two counters by one
    (the intercepted one exactly when it was detected, classified as a
    warhead track and killed by its engagement), and a decoy raises
    neither. *)
Theorem every_real_warhead_counted_once (params : Params) (r : Rng) :
  valid_config params ->
  uniform_draws r ->
  let res := fst (runOneTrial params r) in
  penetratedRealWarheads res + interceptedRealWarheads res = realWarheads res
  /\
  forall (d : Degradation) (st : TrialState) (tgt : Target) (r0 : Rng),
    let st' := fst (trialStep params d st tgt r0) in
    let pen := st_penetratedRealWarheads in
    let int := st_interceptedRealWarheads in
    match kind tgt with
    | warhead => (pen st' = pen st + 1 /\ int st' = int st) \/
                 (pen st' = pen st /\ int st' = int st + 1)
    | decoy => pen st' = pen st /\ int st' = int st
    end /\
    (kind tgt = warhead ->
     int st' = int st + 1 <->
     Qltb (upcoming r0 0) (pDetectTrack_trial d) = true /\
     Qltb (upcoming r0 1) (pClassifyWarhead params) = true /\
     killed (fst (engageTarget tgt
                    (withPk params (pkWarhead_trial d) (pkDecoy_trial d))
                    (inventory st) (advance 2 r0))) = true).
Proof.
  intros Hv Hu. destruct Hv. cbv zeta. split.
  - rewrite runOneTrial_stages. simpl.
    rewrite trialPrefix_all by (try exact Hu; nia).
    symmetry. apply generateTargets_counts.
  - intros d st tgt r0. split.
    + pose proof (trialStep_fates params d st tgt r0) as H.
      cbv zeta in H. unfold warheadCount, isWarhead in H.
      destruct (kind tgt); simpl in H; lia.
    + apply trialStep_intercepts.
Qed.

(** C9. In every trial of a configuration whose inventory is at most 2^53
    the interceptors taken from the inventory are the shots fired: configured
    inventory minus inventory remaining equals the total shot count. *)
Theorem inventory_consumed_equals_shots (params : Params) (r : Rng) :
  nInventory params <= exactBound ->
  let res := fst (runOneTrial params r) in
  nInventory params - trialInventoryRemaining res = shotsTotal res.
Proof.
  intros Hn. cbv zeta. rewrite runOneTrial_stages. simpl.
  destruct (trialPrefix_exact params r
              (length (targets (salvoOf params r))) Hn) as [H _ _ _ _ _]. lia.
Qed.

(** C4. Within a trial whose configured inventory is a non-negative number
    (an integer that a double holds, as every value the code receives is) the
    inventory starts at the configured size, each object is processed from
    the state its predecessor left, the inventory after an object is never
    more than before it and never negative, an iteration replaces the
    inventory by what the engagement returned exactly when the object was
    detected and classified as a warhead track and leaves it alone otherwise,
    and the trial reports the inventory left after the last object. *)
Theorem inventory_non_increasing_non_negative (params : Params) (r : Rng) :
  0 <= nInventory params ->
  is_number (nInventory params) ->
  inventoryAfter params r 0 = nInventory params /\
  (forall k : nat,
     0 <= inventoryAfter params r (S k) <= inventoryAfter params r k) /\
  (forall (k : nat) (tgt : Target),
     targets (salvoOf params r) !! k = Some tgt ->
     trialPrefix params (S k) r =
     (st <- trialPrefix params k;;
      trialStep params (degradationOf params r) st tgt) r) /\
  (forall (d : Degradation) (st : TrialState) (tgt : Target) (r0 : Rng),
     inventory (fst (trialStep params d st tgt r0)) =
     if Qltb (upcoming r0 0) (pDetectTrack_trial d) &&
        fst (classifyTarget tgt params (advance 1 r0))
     then inventoryRemaining
            (fst (engageTarget tgt
                    (withPk params (pkWarhead_trial d) (pkDecoy_trial d))
                    (inventory st) (advance 2 r0)))
     else inventory st) /\
  trialInventoryRemaining (fst (runOneTrial params r)) =
    inventoryAfter params r (length (targets (salvoOf params r))).
Proof.
  intros Hinv Hnum. split; [|split; [|split; [|split]]].
  - unfold inventoryAfter, trialPrefix, bind.
    destruct (generateTargets params r) as [g r1].
    destruct (applyTrialDegradation params r1) as [d r2]. reflexivity.
  - intros k. split.
    + apply (trialPrefix_inventory params r (S k) Hnum Hinv).
    + destruct (trialPrefix_inventory params r k Hnum Hinv) as [H1 H2].
      unfold inventoryAfter in *.
      destruct (targets (salvoOf params r) !! k) as [tgt|] eqn:Hk.
      * rewrite (trialPrefix_step params r k tgt Hk). unfold bind.
        destruct (trialPrefix params k r) as [st r1]. cbn [fst] in *.
        apply (trialStep_inventory_bounds params (degradationOf params r)
                 st tgt r1 H1 H2).
      * rewrite (trialPrefix_past_end params r k Hk). lia.
  - apply trialPrefix_step.
  - intros d st tgt r0. apply trialStep_inventory.
  - unfold inventoryAfter. rewrite runOneTrial_stages. reflexivity.
Qed.

(** C6. An engagement with no inventory, or a barrage with an allocation of
    zero, is a miss with no shot fired, the inventory unchanged and no draw
    read.  In the scenario of one missile with one warhead, no decoys and an
    inventory of zero the trial reports one penetrated real warhead, none
    intercepted and no shot; with detection, classification and system-up
    probabilities of one the warhead was classified as a warhead track. *)
Theorem exhausted_inventory_is_a_miss (tgt : Target) (params : Params)
    (inv : Z) (r : Rng) :
  (inv <= 0 \/
   (doctrineMode params = "barrage" /\
    Z.min (shotsPerTarget params) inv <= 0) ->
   engageTarget tgt params inv r = (mkOutcome false 0 inv, r)) /\
  (nMissiles params = 1 -> mirvsPerMissile params = 1 ->
   decoysPerWarhead params = 0 -> nInventory params = 0 ->
   let res := fst (runOneTrial params r) in
   penetratedRealWarheads res = 1 /\ interceptedRealWarheads res = 0 /\
   shotsTotal res = 0 /\ trialInventoryRemaining res = 0 /\
   ((1 <= pDetectTrack params)%Q -> (1 <= pClassifyWarhead params)%Q ->
    (1 <= pSystemUp params)%Q -> uniform_draws r ->
    truePositives res = 1)).
Proof.
  split; [apply engageTarget_nothing_to_fire|].
  intros HM HV HD HI. cbv zeta.
  set (t := mkTarget warhead (String.append "W" (pretty 0%nat))).
  assert (Hg : generateTargets params r = (mkSalvo [t] 1 0, r)).
  { unfold generateTargets. rewrite HM, HV, HD. reflexivity. }
  assert (Hstep : forall (d : Degradation) (r0 : Rng),
    let st := fst (trialStep params d (initialState params) t r0) in
    st_penetratedRealWarheads st = 1 /\ st_interceptedRealWarheads st = 0 /\
    st_shotsTotal st = 0 /\ inventory st = 0 /\
    (Qltb (upcoming r0 0) (pDetectTrack_trial d) = true ->
     Qltb (upcoming r0 1) (pClassifyWarhead params) = true ->
     st_truePositives st = 1)).
  { intros d r0. cbv zeta. unfold trialStep, bind. rewrite bernoulli_draw.
    destruct (Qltb (upcoming r0 0) (pDetectTrack_trial d)); cbn [negb];
      [|simpl; rewrite HI; repeat split; discriminate].
    unfold classifyTarget. change (isWarhead t) with true. cbv iota.
    rewrite bernoulli_draw, upcoming_advance. simpl (0 + 1)%nat.
    destruct (Qltb (upcoming r0 1) (pClassifyWarhead params)); cbn [negb];
      [|simpl; rewrite HI; repeat split; discriminate].
    rewrite engageTarget_nothing_to_fire
      by (left; simpl; rewrite HI; reflexivity).
    simpl. rewrite HI. repeat split. }
  assert (Hlt : forall p : Q, (1 <= p)%Q -> uniform_draws r ->
            forall k : nat, Qltb (upcoming r k) p = true).
  { intros p Hp Hu k. apply Qltb_lt.
    apply Qlt_le_trans with 1%Q; [apply Hu | exact Hp]. }
  unfold runOneTrial, bind. rewrite Hg.
  destruct (applyTrialDegradation params r) as [d r2] eqn:Hd.
  cbn [forOf targets]. unfold bind.
  pose proof (Hstep d r2) as H. cbv zeta in H.
  destruct (trialStep params d (initialState params) t r2) as [st r3].
  simpl in *. destruct H as (H1 & H2 & H3 & H4 & H5).
  repeat split; try assumption.
  intros Hdet Hcls Hup Hu.
  unfold applyTrialDegradation, bind in Hd. rewrite bernoulli_draw in Hd.
  rewrite (Hlt _ Hup Hu) in Hd. injection Hd as <- <-.
  apply H5; rewrite upcoming_advance; apply Hlt; assumption.
Qed.

(** ** Monte Carlo *)

Lemma trialsLoop_runs (n : nat) (params : Params) (a : McArrays) (r : Rng) :
  trialsLoop n params a r =
  (xs <- trialRuns n params;; ret (foldl record a xs)) r.
Proof.
  revert a r. induction n as [|n IH]; intros a r; [reflexivity|].
  cbn [trialsLoop trialRuns]. unfold bind in *.
  destruct (runOneTrial params r) as [x r1]. rewrite IH.
  destruct (trialRuns n params r1) as [xs r2]. reflexivity.
Qed.

Lemma penReal_foldl (xs : list TrialResult) (a : McArrays) :
  penReal (foldl record a xs) =
  penReal a ++ (penetratedRealWarheads <$> xs).
Proof.
  revert a. induction xs as [|x xs IH]; intros a; simpl.
  - by rewrite app_nil_r.
  - rewrite IH. simpl. by rewrite <- app_assoc.
Qed.

Lemma realWarheadsConst_foldl (xs : list TrialResult) (a : McArrays) :
  realWarheadsConst (foldl record a xs) =
  match realWarheadsConst a with
  | Some c => Some c
  | None => head (realWarheads <$> xs)
  end.
Proof.
  revert a. induction xs as [|x xs IH]; intros a; simpl.
  - by destruct (realWarheadsConst a).
  - rewrite IH. simpl. by destruct (realWarheadsConst a).
Qed.

Lemma runOneTrial_realWarheads (params : Params) (r : Rng) :
  realWarheads (fst (runOneTrial params r)) =
  nMissiles params * mirvsPerMissile params.
Proof. rewrite runOneTrial_stages. simpl. apply generateTargets_counts. Qed.

Lemma trialRuns_realWarheads (n : nat) (params : Params) (r : Rng) :
  Forall
    (fun t => realWarheads t = nMissiles params * mirvsPerMissile params)
    (fst (trialRuns n params r)).
Proof.
  revert r. induction n as [|n IH]; intros r; [constructor|].
  cbn [trialRuns]. unfold bind.
  pose proof (runOneTrial_realWarheads params r) as Hx.
  destruct (runOneTrial params r) as [x r1]. specialize (IH r1).
  destruct (trialRuns n params r1) as [xs r2]. constructor; assumption.
Qed.

Lemma length_trialRuns (n : nat) (params : Params) (r : Rng) :
  length (fst (trialRuns n params r)) = n.
Proof.
  revert r. induction n as [|n IH]; intros r; [reflexivity|].
  cbn [trialRuns]. unfold bind. destruct (runOneTrial params r) as [x r1].
  specialize (IH r1). destruct (trialRuns n params r1) as [xs r2].
  simpl in *. by rewrite IH.
Qed.

Lemma foldl_Qplus_nums (xs : list Z) (acc : Q) :
  (foldl Qplus acc (nums xs) == acc + inject_Z (sumZ xs))%Q.
Proof.
  revert acc. induction xs as [|x xs IH]; intros acc; simpl.
  - change (inject_Z 0) with 0%Q. ring.
  - unfold nums in IH. rewrite IH, inject_Z_plus. ring.
Qed.

Lemma mean_nums (xs : list Z) :
  xs <> [] ->
  num_eq (mean (nums xs))
    (Fin (inject_Z (sumZ xs) / inject_Z (Z.of_nat (length xs)))).
Proof.
  intros Hne. unfold mean, nums. rewrite length_fmap.
  destruct (decide (length xs = 0%nat)) as [H0|_].
  - destruct xs; [done | discriminate].
  - simpl. fold (nums xs). rewrite foldl_Qplus_nums. by rewrite Qplus_0_l.
Qed.

(** C7. The penetration rate of the summary is the mean of the per-trial
    penetrated counts (their sum over the trial count) divided by the
    real-warhead count, which is the same in every trial; it is 0 when that
    count is 0. *)
Theorem penetration_rate_is_mean_over_count (params : Params) (r : Rng) :
  1 <= nTrials params ->
  let res := fst (runMonteCarlo params r) in
  let trials := fst (trialRuns (Z.to_nat (nTrials params)) params r) in
  let pens := penetratedRealWarheads <$> trials in
  let rw := nMissiles params * mirvsPerMissile params in
  resPenReal res = pens /\
  Forall (fun t => realWarheads t = rw) trials /\
  sumRealWarheads (summary res) = Some rw /\
  (0 < rw ->
   meanPenRateReal (summary res) = num_div (mean (nums pens)) (inject_Z rw) /\
   num_eq (meanPenRateReal (summary res))
     (Fin (inject_Z (sumZ pens) / inject_Z (nTrials params) / inject_Z rw))) /\
  (rw <= 0 -> meanPenRateReal (summary res) = Fin 0).
Proof.
  intros Hn. cbv zeta. unfold runMonteCarlo, bind.
  rewrite trialsLoop_runs. unfold bind.
  pose proof (trialRuns_realWarheads (Z.to_nat (nTrials params)) params r)
    as Hrw.
  pose proof (length_trialRuns (Z.to_nat (nTrials params)) params r) as Hlen.
  destruct (trialRuns (Z.to_nat (nTrials params)) params r) as [xs r1].
  cbn [fst snd ret resPenReal summary summarize meanPenRateReal
       sumRealWarheads] in *.
  rewrite realWarheadsConst_foldl, penReal_foldl. cbn [emptyArrays penReal
    realWarheadsConst app].
  destruct xs as [|x xs]; [simpl in Hlen; lia|].
  inversion Hrw as [|? ? Hx Hxs]; subst. cbn [fmap list_fmap head].
  rewrite Hx. unfold penRate.
  split; [reflexivity|]. split; [exact Hrw|]. split; [reflexivity|]. split.
  - intros Hpos. apply Z.ltb_lt in Hpos as Hpos'. rewrite Hpos'.
    split; [reflexivity|].
    pose proof (mean_nums (penetratedRealWarheads x ::
                  (penetratedRealWarheads <$> xs)) ltac:(discriminate)) as Hm.
    replace (Z.of_nat (length (penetratedRealWarheads x ::
               (penetratedRealWarheads <$> xs)))) with (nTrials params) in Hm
      by (simpl in *; rewrite length_fmap; lia).
    destruct (mean _) as [| |q]; simpl in Hm |- *; try contradiction.
    by rewrite Hm.
  - intros Hle. apply Z.ltb_ge in Hle. by rewrite Hle.
Qed.

(** ** Statistics *)

Lemma sortInsert_Permutation (a : Q) (l : list Q) :
  sortInsert a l ≡ₚ a :: l.
Proof.
  induction l as [|b l IH]; simpl; [done|].
  destruct (Qltb (a - b) 0); [done|].
  rewrite IH. apply Permutation_swap.
Qed.

Lemma sortNumeric_Permutation (arr : list Q) : sortNumeric arr ≡ₚ arr.
Proof.
  unfold sortNumeric. rewrite <- (reverse_Permutation arr) at 2.
  induction (reverse arr) as [|a l IH]; simpl; [done|].
  by rewrite sortInsert_Permutation, IH.
Qed.

Lemma sortInsert_sorted (a : Q) (l : list Q) :
  Sorted Qle l -> Sorted Qle (sortInsert a l).
Proof.
  induction 1 as [|b l Hl IH Hb]; simpl; [repeat constructor|].
  destruct (Qltb (a - b) 0) eqn:Hab.
  - apply Qltb_lt in Hab. constructor; [by constructor|]. constructor.
    apply Qlt_le_weak. rewrite <- (Qplus_lt_l _ _ (- b)), Qplus_opp_r.
    exact Hab.
  - apply Qltb_ge in Hab. apply Qnot_lt_le in Hab.
    assert (Hba : (b <= a)%Q).
    { apply Qle_minus_iff. exact Hab. }
    constructor; [exact IH|].
    destruct Hb as [|c l' Hbc]; simpl; [by constructor|].
    destruct (Qltb (a - c) 0); by constructor.
Qed.

Lemma sortNumeric_sorted (arr : list Q) : Sorted Qle (sortNumeric arr).
Proof.
  unfold sortNumeric. induction (reverse arr) as [|a l IH]; simpl.
  - constructor.
  - by apply sortInsert_sorted.
Qed.

(** C8. [percentile] interpolates linearly at index p/100 * (n - 1) of the
    sorted copy; it gives 3 on [1,2,3,4,5] at 50 and 2 on [1,2] at 100; and
    [percentile] and [mean] give [NaN] on the empty sequence. *)
Theorem percentile_interpolates (arr : list Q) (p : Q) :
  num_eq (percentile [1; 2; 3; 4; 5]%Q 50) (Fin 3) /\
  num_eq (percentile [1; 2]%Q 100) (Fin 2) /\
  percentile [] p = NaN /\
  mean [] = NaN /\
  Sorted Qle (sortNumeric arr) /\ sortNumeric arr ≡ₚ arr /\
  (arr <> [] ->
   let sorted := sortNumeric arr in
   let idx := ((p / 100) * inject_Z (Z.of_nat (length arr) - 1))%Q in
   let lo := Qfloor idx in
   let hi := Qceiling idx in
   let w := (idx - inject_Z lo)%Q in
   percentile arr p =
     if decide (lo = hi) then at_index sorted lo
     else num_add (num_mul (at_index sorted lo) (Fin (1 - w)))
                  (num_mul (at_index sorted hi) (Fin w))).
Proof.
  split; [reflexivity|]. split; [reflexivity|].
  split; [reflexivity|]. split; [reflexivity|].
  split; [apply sortNumeric_sorted|]. split; [apply sortNumeric_Permutation|].
  intros Hne. cbv zeta. unfold percentile.
  destruct (decide (length arr = 0%nat)) as [H0|_].
  - destruct arr; [done | discriminate].
  - rewrite (Permutation_length (sortNumeric_Permutation arr)). reflexivity.
Qed.

(** ** The properties at the sample inputs *)

Lemma demoRng_uniform : uniform_draws demoRng.
Proof.
  intros n. unfold demoRng, Qle, Qlt. cbn [stream Qnum Qden].
  pose proof (Nat.mod_upper_bound (n * 7) 10 ltac:(lia)). lia.
Qed.

Ltac prob_range := unfold Qle; simpl; lia.

Lemma demoParams_valid : valid_config demoParams.
Proof.
  constructor; simpl; try lia; try (left; reflexivity);
    split; prob_range.
Qed.

(** One interceptor against the single warhead of the scenario: it is
    intercepted with one shot. *)
Example scenario_one_interceptor :
  let params := mkParams 1 1 0 1 1 0 "barrage" 1 1 0 1 1 1 1 1 1 1 in
  let res := fst (runOneTrial params demoRng) in
  penetratedRealWarheads res = 0 /\ interceptedRealWarheads res = 1 /\
  shotsTotal res = 1 /\ trialInventoryRemaining res = 0.
Proof. vm_compute. repeat split. Qed.

(** A miss followed by a failed re-engagement draw ends a shoot-look-shoot
    engagement below its cap: one shot charged out of four allowed. *)
Example sls_stops_below_cap :
  engageTarget demoWarhead demoSls 5 (mkRng (fun _ => 9 # 10) 0) =
  (mkOutcome false 1 4, advance 2 (mkRng (fun _ => 9 # 10) 0)).
Proof. reflexivity. Qed.

(** A barrage that kills with its first draw still charges both shots. *)
Example barrage_first_draw_kills :
  engageTarget demoWarhead demoParams 5 demoRng =
  (mkOutcome true 2 3, advance 1 demoRng).
Proof. reflexivity. Qed.

Lemma every_real_warhead_counted_once_witness :
  valid_config demoParams /\ uniform_draws demoRng /\
  penetratedRealWarheads (fst (runOneTrial demoParams demoRng)) +
  interceptedRealWarheads (fst (runOneTrial demoParams demoRng)) = 4.
Proof.
  split; [exact demoParams_valid|]. split; [exact demoRng_uniform|].
  exact (proj1 (every_real_warhead_counted_once demoParams demoRng
                  demoParams_valid demoRng_uniform)).
Defined.

Lemma largeInventoryParams_valid : valid_config largeInventoryParams.
Proof.
  constructor; simpl; try (unfold largeInventory; lia);
    try (left; reflexivity); split; prob_range.
Qed.

(** With 2^53 + 2 interceptors a barrage of one shot returns an inventory of
    2^53, which is not the inventory minus the allocation. *)
Lemma barrage_charge_is_rounded :
  doctrineMode largeInventoryParams = "barrage" /\ 0 < largeInventory /\
  let alloc := Z.min (shotsPerTarget largeInventoryParams) largeInventory in
  let out :=
    fst (engageTarget demoWarhead largeInventoryParams largeInventory
           demoRng) in
  shotsFired out = alloc /\
  inventoryRemaining out = 9007199254740992 /\
  inventoryRemaining out <> largeInventory - alloc.
Proof.
  split; [reflexivity|]. split; [reflexivity|]. vm_compute.
  split; [reflexivity|]. split; [reflexivity | discriminate].
Qed.

Lemma barrage_charges_full_allocation_witness :
  doctrineMode demoParams = "barrage" /\ 0 < 5 /\
  0 <= shotsPerTarget demoParams /\
  shotsFired (fst (engageTarget demoWarhead demoParams 5 demoRng)) = 2 /\
  inventoryRemaining (fst (engageTarget demoWarhead demoParams 5 demoRng)) =
    5 - 2.
Proof.
  split; [reflexivity|]. split; [lia|]. split; [simpl; lia|].
  pose proof (barrage_charges_full_allocation demoWarhead demoParams 5
                demoRng eq_refl ltac:(lia) ltac:(simpl; lia)) as H.
  cbv zeta in H. destruct H as (H1 & _ & _ & H4 & _).
  split; [exact H1 | apply H4; unfold exactBound; lia].
Defined.

(** With 2^53 + 2 interceptors a shoot-look-shoot engagement of one shot
    returns an inventory of 2^53, which is not the inventory minus the shot
    fired. *)
Lemma sls_charge_is_rounded :
  doctrineMode largeInventorySls <> "barrage" /\ 0 <= largeInventory /\
  let out :=
    fst (engageTarget demoWarhead largeInventorySls largeInventory demoRng) in
  shotsFired out = 1 /\
  inventoryRemaining out = 9007199254740992 /\
  inventoryRemaining out <> largeInventory - shotsFired out.
Proof.
  split; [discriminate|]. split; [discriminate|]. vm_compute.
  split; [reflexivity|]. split; [reflexivity | discriminate].
Qed.

Lemma sls_charges_per_shot_witness :
  doctrineMode demoSls <> "barrage" /\ 0 <= 5 /\
  0 <= maxShotsPerTarget demoSls /\
  exists m : nat,
    shotsFired (fst (engageTarget demoWarhead demoSls 5 demoRng)) = Z.of_nat m
    /\ shotsFired (fst (engageTarget demoWarhead demoSls 5 demoRng)) <= 4
    /\ inventoryRemaining (fst (engageTarget demoWarhead demoSls 5 demoRng)) =
       5 - shotsFired (fst (engageTarget demoWarhead demoSls 5 demoRng)).
Proof.
  split; [discriminate|]. split; [lia|]. split; [simpl; lia|].
  destruct (sls_charges_per_shot demoWarhead demoSls 5 demoRng
              ltac:(discriminate) ltac:(lia) ltac:(simpl; lia))
    as (m & H1 & H2 & _ & H4 & _).
  exists m. split; [exact H1|]. split; [exact H2|].
  apply H4. unfold exactBound. lia.
Defined.

(** With 2^53 + 2 interceptors and one shot fired the trial reports 2^53
    interceptors left: two are gone from the inventory for one shot. *)
Lemma large_inventory_loses_an_interceptor :
  valid_config largeInventoryParams /\
  let res := fst (runOneTrial largeInventoryParams demoRng) in
  shotsTotal res = 1 /\
  trialInventoryRemaining res = 9007199254740992 /\
  nInventory largeInventoryParams - trialInventoryRemaining res <>
    shotsTotal res.
Proof.
  split; [exact largeInventoryParams_valid|]. vm_compute.
  split; [reflexivity|]. split; [reflexivity | discriminate].
Qed.

Lemma inventory_consumed_equals_shots_witness :
  nInventory demoParams <= exactBound /\
  5 - trialInventoryRemaining (fst (runOneTrial demoParams demoRng)) =
    shotsTotal (fst (runOneTrial demoParams demoRng)).
Proof.
  assert (H : nInventory demoParams <= exactBound)
    by (unfold exactBound; simpl; lia).
  split; [exact H|].
  exact (inventory_consumed_equals_shots demoParams demoRng H).
Defined.

Lemma inventory_non_increasing_non_negative_witness :
  0 <= nInventory demoParams /\ is_number (nInventory demoParams) /\
  inventoryAfter demoParams demoRng 0 = 5 /\
  0 <= inventoryAfter demoParams demoRng 3
    <= inventoryAfter demoParams demoRng 2.
Proof.
  split; [simpl; lia|]. split; [reflexivity|].
  pose proof (inventory_non_increasing_non_negative demoParams demoRng
                ltac:(simpl; lia) eq_refl) as H.
  split; [exact (proj1 H) | exact (proj1 (proj2 H) 2%nat)].
Defined.

Lemma salvo_is_permutation_of_population_witness :
  0 <= nMissiles demoParams /\ 0 <= mirvsPerMissile demoParams /\
  0 <= decoysPerWarhead demoParams /\ uniform_draws demoRng /\
  salvoRealWarheads (fst (generateTargets demoParams demoRng)) = 4 /\
  countKind warhead (targets (fst (generateTargets demoParams demoRng))) = 4.
Proof.
  split; [simpl; lia|]. split; [simpl; lia|]. split; [simpl; lia|].
  split; [exact demoRng_uniform|].
  pose proof (salvo_is_permutation_of_population demoParams demoRng
                ltac:(simpl; lia) ltac:(simpl; lia) ltac:(simpl; lia)
                demoRng_uniform) as H.
  cbv zeta in H. destruct H as (H1 & _ & _ & H4 & _).
  split; [exact H1 | rewrite H4; exact H1].
Defined.

Lemma exhausted_inventory_is_a_miss_witness :
  nMissiles scenarioParams = 1 /\ mirvsPerMissile scenarioParams = 1 /\
  decoysPerWarhead scenarioParams = 0 /\ nInventory scenarioParams = 0 /\
  engageTarget demoWarhead scenarioParams 0 demoRng =
    (mkOutcome false 0 0, demoRng) /\
  penetratedRealWarheads (fst (runOneTrial scenarioParams demoRng)) = 1 /\
  truePositives (fst (runOneTrial scenarioParams demoRng)) = 1.
Proof.
  do 4 (split; [reflexivity|]).
  pose proof (exhausted_inventory_is_a_miss demoWarhead scenarioParams 0
                demoRng) as [Hengage Htrial].
  split; [apply Hengage; left; lia|].
  destruct (Htrial eq_refl eq_refl eq_refl eq_refl) as (Hpen & _ & _ & _ & Htp).
  split; [exact Hpen|].
  apply Htp; [prob_range | prob_range | prob_range | exact demoRng_uniform].
Defined.

Lemma penetration_rate_is_mean_over_count_witness :
  1 <= nTrials demoParams /\
  sumRealWarheads (summary (fst (runMonteCarlo demoParams demoRng))) = Some 4 /\
  num_eq (meanPenRateReal (summary (fst (runMonteCarlo demoParams demoRng))))
    (Fin (3 # 4)).
Proof.
  split; [simpl; lia|].
  pose proof (penetration_rate_is_mean_over_count demoParams demoRng
                ltac:(simpl; lia)) as H.
  cbv zeta in H. destruct H as (_ & _ & Hrw & Hrate & _).
  split; [exact Hrw|].
  destruct (Hrate ltac:(simpl; lia)) as [-> _]. vm_compute. reflexivity.
Defined.

Lemma percentile_interpolates_witness :
  [1; 2; 3; 4]%Q <> [] /\
  num_eq (percentile [4; 2; 1; 3]%Q 50) (Fin (5 # 2)) /\
  percentile [] 50 = NaN.
Proof.
  split; [discriminate|].
  pose proof (percentile_interpolates [4; 2; 1; 3]%Q 50) as H.
  destruct H as (_ & _ & Hnan & _ & _ & _ & Hshape).
  split; [|exact Hnan].
  rewrite (Hshape ltac:(discriminate)). vm_compute. reflexivity.
Defined.

Lemma unknown_doctrine_is_sls_witness :
  doctrineMode demoUnknownMode <> "barrage" /\
  engageTarget demoWarhead demoUnknownMode 5 demoRng =
  engageTarget demoWarhead demoSls 5 demoRng.
Proof.
  split; [discriminate|].
  exact (proj1 (unknown_doctrine_is_sls demoWarhead demoUnknownMode 5 demoRng
                  ltac:(discriminate))).
Defined.

(** * Further properties of the engine *)

(** ** Helpers *)

Lemma clamp01_range_aux (x : Q) :
  (0 <= x)%Q -> (x <= 1)%Q -> (clamp01 x == x)%Q.
Proof.
  intros H0 H1. unfold clamp01. rewrite (Q.min_r 1 x H1).
  apply Q.max_r. exact H0.
Qed.

(** X1. [clamp01] lands in [0, 1], leaves a value of [0, 1] as it is, and
    sends everything below to 0 and everything above to 1. *)
Theorem clamp01_range (x : Q) :
  (0 <= clamp01 x <= 1)%Q /\
  ((0 <= x <= 1)%Q -> (clamp01 x == x)%Q) /\
  ((x <= 0)%Q -> (clamp01 x == 0)%Q) /\
  ((1 <= x)%Q -> (clamp01 x == 1)%Q).
Proof.
  unfold clamp01. split; [split|split; [|split]].
  - apply Q.le_max_l.
  - apply Q.max_lub; [discriminate | apply Q.le_min_l].
  - intros [H0 H1]. rewrite (Q.min_r 1 x H1). apply Q.max_r. exact H0.
  - intros H0. apply Q.max_l.
    apply Qle_trans with x; [apply Q.le_min_r | exact H0].
  - intros H1. rewrite (Q.min_l 1 x H1). apply Q.max_r. discriminate.
Qed.

Lemma uniform_upcoming (r : Rng) (k : nat) :
  uniform_draws r -> (0 <= upcoming r k)%Q /\ (upcoming r k < 1)%Q.
Proof. intros Hu. apply Hu. Qed.

Lemma uniform_advance (r : Rng) (k : nat) :
  uniform_draws r -> uniform_draws (advance k r).
Proof. intros Hu n. apply Hu. Qed.

(** X2. With draws in [0, 1), [bernoulli(p)] is certainly true for p >= 1
    and certainly false for p <= 0; it reads exactly one draw. *)
Theorem bernoulli_extremes (p : Q) (r : Rng) :
  uniform_draws r ->
  snd (bernoulli p r) = advance 1 r /\
  ((1 <= p)%Q -> fst (bernoulli p r) = true) /\
  ((p <= 0)%Q -> fst (bernoulli p r) = false).
Proof.
  intros Hu. rewrite bernoulli_draw. cbn [fst snd].
  destruct (uniform_upcoming r 0 Hu) as [H0 H1].
  split; [reflexivity|]. split; intros Hp.
  - apply Qltb_lt. apply Qlt_le_trans with 1%Q; assumption.
  - apply Qltb_ge. apply Qle_not_lt. apply Qle_trans with 0%Q; assumption.
Qed.

Lemma shuffleLoop_reads {A : Type} (i : nat) (arr : list A) (r : Rng) :
  snd (shuffleLoop i arr r) = advance i r.
Proof.
  revert arr r. induction i as [|i IH]; intros arr r.
  - simpl. by rewrite advance_0.
  - cbn [shuffleLoop]. unfold bind, randUniform. rewrite IH.
    unfold advance. simpl. f_equal. lia.
Qed.

(** X3. With draws in [0, 1), [shuffle] returns a permutation of its
    argument (so nothing is lost, duplicated or added) and reads one draw
    per element but the first. *)
Theorem shuffle_permutes (A : Type) (arr : list A) (r : Rng) :
  uniform_draws r ->
  fst (shuffle arr r) ≡ₚ arr /\
  length (fst (shuffle arr r)) = length arr /\
  snd (shuffle arr r) = advance (length arr - 1) r.
Proof.
  intros Hu. pose proof (shuffle_Permutation arr r Hu) as H.
  split; [exact H|]. split; [by rewrite H|]. apply shuffleLoop_reads.
Qed.

(** ** Trial reliability *)

(** X4. [applyTrialDegradation] reads one draw; the system is up exactly when
    that draw is below [pSystemUp], and then the three probabilities are the
    configured ones.  When it is down, and the configured probabilities and
    degrade factors lie in [0, 1], each probability is the configured one
    times its factor: still in [0, 1] and never above the configured one. *)
Theorem degradation_never_improves (params : Params) (r : Rng) :
  valid_config params ->
  let d := fst (applyTrialDegradation params r) in
  snd (applyTrialDegradation params r) = advance 1 r /\
  (degSystemUp d = true <-> (upcoming r 0 < pSystemUp params)%Q) /\
  (degSystemUp d = true ->
   pDetectTrack_trial d = pDetectTrack params /\
   pkWarhead_trial d = pkWarhead params /\
   pkDecoy_trial d = pkDecoy params) /\
  (degSystemUp d = false ->
   (pDetectTrack_trial d ==
      pDetectTrack params * detectDegradeFactor params)%Q /\
   (pkWarhead_trial d == pkWarhead params * pkDegradeFactor params)%Q /\
   (pkDecoy_trial d == pkDecoy params * pkDegradeFactor params)%Q) /\
  (0 <= pDetectTrack_trial d <= pDetectTrack params)%Q /\
  (0 <= pkWarhead_trial d <= pkWarhead params)%Q /\
  (0 <= pkDecoy_trial d <= pkDecoy params)%Q.
Proof.
  intros Hv. destruct Hv. cbv zeta.
  assert (Hprod : forall p f : Q, (0 <= p <= 1)%Q -> (0 <= f <= 1)%Q ->
            (clamp01 (p * f) == p * f)%Q /\ (0 <= p * f <= p)%Q).
  { intros p f [Hp0 Hp1] [Hf0 Hf1].
    assert (H0 : (0 <= p * f)%Q) by (apply Qmult_le_0_compat; assumption).
    assert (H1 : (p * f <= p)%Q).
    { rewrite <- (Qmult_1_r p) at 2.
      rewrite !(Qmult_comm p). apply Qmult_le_compat_r; assumption. }
    split; [|split; assumption].
    apply clamp01_range_aux; [exact H0 | apply Qle_trans with p; assumption]. }
  unfold applyTrialDegradation, bind. rewrite bernoulli_draw.
  destruct (Qltb (upcoming r 0) (pSystemUp params)) eqn:Hup; cbn.
  - apply Qltb_lt in Hup.
    split; [reflexivity|]. split; [tauto|]. split; [tauto|].
    split; [discriminate|]. repeat split; try (apply Qle_refl); tauto.
  - apply Qltb_ge in Hup.
    destruct (Hprod _ _ valid_pDetectTrack0 valid_detectDegradeFactor0)
      as (E1 & L1 & U1).
    destruct (Hprod _ _ valid_pkWarhead0 valid_pkDegradeFactor0)
      as (E2 & L2 & U2).
    destruct (Hprod _ _ valid_pkDecoy0 valid_pkDegradeFactor0)
      as (E3 & L3 & U3).
    split; [reflexivity|].
    split; [split; [discriminate | contradiction]|].
    split; [discriminate|].
    split; [intros _; repeat split; assumption|].
    rewrite E1, E2, E3. repeat split; assumption.
Qed.

(** ** Engagement *)

(** With a kill probability of at least 1 the first draw kills. *)
Lemma engageTarget_certain_kill (tgt : Target) (params : Params) (inv : Z)
    (r : Rng) :
  uniform_draws r ->
  0 < inv ->
  1 <= perTargetCap params ->
  (1 <= killProbability tgt params)%Q ->
  killed (fst (engageTarget tgt params inv r)) = true /\
  snd (engageTarget tgt params inv r) = advance 1 r /\
  (doctrineMode params <> "barrage" ->
   shotsFired (fst (engageTarget tgt params inv r)) = 1).
Proof.
  intros Hu Hinv Hcap Hp.
  assert (Hhit : Qltb (upcoming r 0) (killProbability tgt params) = true).
  { apply Qltb_lt. apply Qlt_le_trans with 1%Q; [apply Hu | exact Hp]. }
  unfold engageTarget, perTargetCap in *.
  fold (killProbability tgt params).
  apply Z.leb_gt in Hinv as Hinv'. rewrite Hinv'.
  destruct (String.eqb (doctrineMode params) "barrage") eqn:Hmode.
  - assert (Halloc : (Z.min (shotsPerTarget params) inv <=? 0) = false)
      by (apply Z.leb_gt; lia).
    rewrite Halloc.
    destruct (Z.to_nat (Z.min (shotsPerTarget params) inv)) as [|n] eqn:Hn;
      [lia|].
    cbn [barrageLoop]. unfold bind. rewrite bernoulli_draw, Hhit.
    simpl. split; [reflexivity|]. split; [reflexivity|].
    apply String.eqb_eq in Hmode. intros Hne. contradiction.
  - destruct (Z.to_nat (Z.min (maxShotsPerTarget params) inv)) as [|n] eqn:Hn;
      [lia|].
    cbn [slsLoop]. unfold bind. rewrite bernoulli_draw, Hhit.
    simpl. repeat split.
Qed.

(** X5. With draws in [0, 1), something to fire and a kill probability of
    at least 1, the engagement kills with its first draw (and shoot-look-shoot
    charges exactly one shot); with a kill probability of at most 0 it never
    kills although it fires. *)
Theorem certain_and_impossible_kills (tgt : Target) (params : Params)
    (inv : Z) (r : Rng) :
  uniform_draws r ->
  0 < inv ->
  1 <= perTargetCap params ->
  let out := fst (engageTarget tgt params inv r) in
  ((1 <= killProbability tgt params)%Q ->
   killed out = true /\
   snd (engageTarget tgt params inv r) = advance 1 r /\
   (doctrineMode params <> "barrage" -> shotsFired out = 1)) /\
  ((killProbability tgt params <= 0)%Q ->
   killed out = false /\ 1 <= shotsFired out).
Proof.
  intros Hu Hinv Hcap. cbv zeta.
  split; [apply engageTarget_certain_kill; assumption|].
  intros Hp.
  assert (Hmiss : forall k, ~ (upcoming r k < killProbability tgt params)%Q).
  { intros k. apply Qle_not_lt.
    apply Qle_trans with 0%Q; [exact Hp | apply Hu]. }
  unfold engageTarget, perTargetCap in *.
  fold (killProbability tgt params).
  apply Z.leb_gt in Hinv as Hinv'. rewrite Hinv'.
  destruct (String.eqb (doctrineMode params) "barrage") eqn:Hmode.
  - assert (Halloc : (Z.min (shotsPerTarget params) inv <=? 0) = false)
      by (apply Z.leb_gt; lia).
    rewrite Halloc. unfold bind.
    destruct (barrageLoop_spec
      (Z.to_nat (Z.min (shotsPerTarget params) inv))
      (killProbability tgt params) r) as [Hk _].
    destruct (barrageLoop _ _ r) as [k r']. simpl in *.
    split; [|lia]. destruct k; [|reflexivity].
    destruct (proj1 Hk eq_refl) as (i & _ & Hlt).
    destruct (Hmiss i Hlt).
  - pose proof (slsLoop_spec
      (Z.to_nat (Z.min (maxShotsPerTarget params) inv))
      (killProbability tgt params) (pReengage params) inv 0 r) as H.
    cbv zeta in H. destruct H as (m & Hm & Hshots & _ & _ & Hkill & Hnk).
    destruct (killed _) eqn:Hk.
    + destruct (Hkill eq_refl) as (_ & Hlt & _). destruct (Hmiss _ Hlt).
    + split; [reflexivity|].
      destruct (Hnk eq_refl) as (_ & _ & Hlast).
      destruct (decide
        (m < Z.to_nat (Z.min (maxShotsPerTarget params) inv))%nat)
        as [Hlt|Hge]; [destruct (Hlast Hlt); lia | lia].
Qed.

(** ** Draws left behind *)

Lemma stream_barrageLoop (n : nat) (pk : Q) (r : Rng) :
  stream (snd (barrageLoop n pk r)) = stream r.
Proof.
  destruct (barrageLoop_spec n pk r) as [_ (m & _ & -> & _)]. reflexivity.
Qed.

Lemma stream_slsLoop (n : nat) (pk pRe : Q) (inv fired : Z) (r : Rng) :
  stream (snd (slsLoop n pk pRe inv fired r)) = stream r.
Proof.
  pose proof (slsLoop_spec n pk pRe inv fired r) as H. cbv zeta in H.
  destruct H as (m & _ & _ & _ & _ & Hk & Hnk).
  destruct (killed (fst (slsLoop n pk pRe inv fired r))).
  - destruct (Hk eq_refl) as (_ & _ & ->). reflexivity.
  - destruct (Hnk eq_refl) as (-> & _). reflexivity.
Qed.

Lemma stream_engageTarget (tgt : Target) (params : Params) (inv : Z)
    (r : Rng) :
  stream (snd (engageTarget tgt params inv r)) = stream r.
Proof.
  unfold engageTarget. destruct (inv <=? 0); [reflexivity|].
  destruct (String.eqb _ _).
  - destruct (_ <=? 0); [reflexivity|]. unfold bind.
    pose proof (stream_barrageLoop
      (Z.to_nat (Z.min (shotsPerTarget params) inv))
      (if isWarhead tgt then pkWarhead params else pkDecoy params) r) as H.
    destruct (barrageLoop _ _ r). exact H.
  - apply stream_slsLoop.
Qed.

Lemma stream_trialStep (params : Params) (d : Degradation) (st : TrialState)
    (tgt : Target) (r : Rng) :
  stream (snd (trialStep params d st tgt r)) = stream r.
Proof.
  unfold trialStep, bind. rewrite bernoulli_draw.
  destruct (Qltb _ _); cbn [negb]; [|reflexivity].
  unfold classifyTarget.
  destruct (isWarhead tgt); rewrite bernoulli_draw;
    (destruct (Qltb _ _); cbn [negb]; [|reflexivity]);
    match goal with |- context [engageTarget ?t ?p ?i ?r0] =>
      pose proof (stream_engageTarget t p i r0) as H;
      destruct (engageTarget t p i r0); exact H
    end.
Qed.

Lemma stream_forOf (params : Params) (d : Degradation) (xs : list Target)
    (st : TrialState) (r : Rng) :
  stream (snd (forOf (trialStep params d) xs st r)) = stream r.
Proof.
  revert st r. induction xs as [|x xs IH]; intros st r; [reflexivity|].
  cbn [forOf]. unfold bind.
  pose proof (stream_trialStep params d st x r) as H.
  destruct (trialStep params d st x r) as [st1 r1]. rewrite IH. exact H.
Qed.

Lemma stream_generateTargets (params : Params) (r : Rng) :
  stream (snd (generateTargets params r)) = stream r.
Proof.
  unfold generateTargets, bind, shuffle.
  match goal with |- context [shuffleLoop ?i ?l r] =>
    pose proof (shuffleLoop_reads i l r) as H; destruct (shuffleLoop i l r)
  end.
  simpl in *. by rewrite H.
Qed.

Lemma stream_applyTrialDegradation (params : Params) (r : Rng) :
  stream (snd (applyTrialDegradation params r)) = stream r.
Proof.
  unfold applyTrialDegradation, bind. rewrite bernoulli_draw.
  by destruct (Qltb _ _).
Qed.

Lemma stream_runOneTrial (params : Params) (r : Rng) :
  stream (snd (runOneTrial params r)) = stream r.
Proof.
  unfold runOneTrial, bind.
  pose proof (stream_generateTargets params r) as Hg.
  destruct (generateTargets params r) as [g r1].
  pose proof (stream_applyTrialDegradation params r1) as Hd.
  destruct (applyTrialDegradation params r1) as [d r2].
  pose proof (stream_forOf params d (targets g) (initialState params) r2)
    as Hf.
  destruct (forOf _ _ _ r2) as [st r3]. simpl in *. congruence.
Qed.

Lemma uniform_same_stream (r r' : Rng) :
  stream r' = stream r -> uniform_draws r -> uniform_draws r'.
Proof. intros H Hu n. rewrite H. apply Hu. Qed.

(** ** Diagnostics of a trial *)

Lemma diagnostics_step_refl (st : TrialState) : diagnostics_step 0 0 st st.
Proof. constructor; lia. Qed.

Lemma diagnostics_step_trans (n1 n2 w1 w2 : Z) (st0 st1 st2 : TrialState) :
  diagnostics_step n1 w1 st0 st1 ->
  diagnostics_step n2 w2 st1 st2 ->
  diagnostics_step (n1 + n2) (w1 + w2) st0 st2.
Proof. intros [] []. constructor; lia. Qed.

Lemma trialStep_diagnostics (params : Params) (d : Degradation)
    (st : TrialState) (tgt : Target) (r : Rng) :
  diagnostics_step 1 (warheadCount tgt) st
    (fst (trialStep params d st tgt r)).
Proof.
  unfold trialStep, bind. rewrite bernoulli_draw.
  destruct (Qltb _ (pDetectTrack_trial d)); cbn [negb].
  2: { unfold notePenetrated, warheadCount.
       destruct (isWarhead tgt); constructor; simpl; lia. }
  destruct (classifyTarget tgt params (advance 1 r)) as [c r1].
  destruct c; cbn [negb].
  2: { unfold notePenetrated, noteClassified, noteDetected, warheadCount.
       destruct (isWarhead tgt); constructor; simpl; lia. }
  destruct (engageTarget _ _ _ r1) as [res r2].
  unfold noteEngaged, noteClassified, noteDetected, warheadCount.
  simpl. destruct (isWarhead tgt), (killed res); constructor; simpl; lia.
Qed.

Lemma forOf_diagnostics (params : Params) (d : Degradation)
    (xs : list Target) (st : TrialState) (r : Rng) :
  diagnostics_step (Z.of_nat (length xs)) (countKind warhead xs)
    st (fst (forOf (trialStep params d) xs st r)).
Proof.
  revert st r. induction xs as [|x xs IH]; intros st r.
  - apply diagnostics_step_refl.
  - cbn [forOf]. unfold bind.
    pose proof (trialStep_diagnostics params d st x r) as Hstep.
    destruct (trialStep params d st x r) as [st1 r1].
    rewrite countKind_warhead_cons.
    replace (Z.of_nat (length (x :: xs)))
      with (1 + Z.of_nat (length xs)) by (simpl; lia).
    eapply diagnostics_step_trans; [exact Hstep | apply IH].
Qed.

(** No shot counter is ever negative. *)
Lemma trialStep_shots_nonneg (params : Params) (d : Degradation)
    (st : TrialState) (tgt : Target) (r : Rng) :
  0 <= st_shotsTotal st /\ 0 <= st_shotsAtTrueWarheads st /\
  0 <= st_shotsAtDecoys st ->
  let st' := fst (trialStep params d st tgt r) in
  0 <= st_shotsTotal st' /\ 0 <= st_shotsAtTrueWarheads st' /\
  0 <= st_shotsAtDecoys st'.
Proof.
  intros H. cbv zeta. unfold trialStep, bind. rewrite bernoulli_draw.
  destruct (Qltb _ (pDetectTrack_trial d)); cbn [negb].
  2: { unfold notePenetrated. destruct (isWarhead tgt); simpl; exact H. }
  destruct (classifyTarget tgt params (advance 1 r)) as [c r1].
  destruct c; cbn [negb].
  2: { unfold notePenetrated, noteClassified, noteDetected.
       destruct (isWarhead tgt); simpl; exact H. }
  pose proof (engageTarget_accounting tgt
    (withPk params (pkWarhead_trial d) (pkDecoy_trial d))
    (inventory (noteClassified tgt true (noteDetected tgt st))) r1) as Ha.
  cbv zeta in Ha. destruct (engageTarget _ _ _ r1) as [res r2].
  destruct Ha as [H0 _]. cbn [fst] in H0.
  unfold noteEngaged, noteClassified, noteDetected, jsAdd. simpl.
  destruct (isWarhead tgt); repeat split;
    try apply toDouble_nonneg; lia.
Qed.

Lemma runOneTrial_loop (params : Params) (r : Rng) :
  fst (runOneTrial params r) =
  trialResult (nMissiles params * mirvsPerMissile params)
    (degradationOf params r)
    (fst (forOf (trialStep params (degradationOf params r))
            (targets (salvoOf params r)) (initialState params)
            (loopRng params r))).
Proof.
  unfold runOneTrial, salvoOf, degradationOf, loopRng, bind.
  pose proof (generateTargets_counts params r) as [Hrw _].
  destruct (generateTargets params r) as [g r1]. cbn [fst snd] in *.
  destruct (applyTrialDegradation params r1) as [d r2]. cbn [fst snd].
  destruct (forOf _ _ _ r2). simpl. by rewrite Hrw.
Qed.

(** What the loop of a trial establishes: the diagnostics, the fate of every
    real warhead, shot counters that are not negative and, with a configured
    inventory of at most 2^53, exact shot counters. *)
Lemma runOneTrial_facts (params : Params) (r : Rng) :
  exists st : TrialState,
    fst (runOneTrial params r) =
      trialResult (nMissiles params * mirvsPerMissile params)
        (degradationOf params r) st /\
    diagnostics_step (Z.of_nat (length (targets (salvoOf params r))))
      (countKind warhead (targets (salvoOf params r)))
      (initialState params) st /\
    st_penetratedRealWarheads st + st_interceptedRealWarheads st =
      countKind warhead (targets (salvoOf params r)) /\
    (0 <= st_shotsTotal st /\ 0 <= st_shotsAtTrueWarheads st /\
     0 <= st_shotsAtDecoys st) /\
    (nInventory params <= exactBound ->
     exact_counts (nInventory params) (Z.max 0 (perTargetCap params)) st).
Proof.
  eexists. split; [apply runOneTrial_loop|].
  split; [apply forOf_diagnostics|]. split; [|split].
  - pose proof (forOf_fates params (degradationOf params r)
                  (targets (salvoOf params r)) (initialState params)
                  (loopRng params r)) as H.
    cbv zeta in H. simpl in H. lia.
  - apply (forOf_keeps params (degradationOf params r)
             (fun st => 0 <= st_shotsTotal st /\
                        0 <= st_shotsAtTrueWarheads st /\
                        0 <= st_shotsAtDecoys st)); [|simpl; lia].
    intros st tgt r0. apply trialStep_shots_nonneg.
  - intros Hn. apply forOf_exact; [exact Hn | apply initialState_exact].
Qed.

(** X6. In every trial, whatever the configuration and the draws: detected
    real warheads are either true positives or false negatives; false
    positives are detected decoys; an interception is a true positive; and no
    counter is negative.  With a configured inventory of at most 2^53 the
    shots split into shots at warheads and shots at decoys, and an
    interception took at least one shot. *)
Theorem trial_diagnostics_consistent (params : Params) (r : Rng) :
  let res := fst (runOneTrial params r) in
  truePositives res + falseNegatives res = detectedRealWarheads res /\
  detectedRealWarheads res + falsePositives res <= detectedObjects res /\
  interceptedRealWarheads res <= truePositives res /\
  0 <= penetratedRealWarheads res /\ 0 <= interceptedRealWarheads res /\
  0 <= detectedRealWarheads res /\ 0 <= falsePositives res /\
  0 <= falseNegatives res /\ 0 <= shotsTotal res /\
  0 <= shotsAtTrueWarheads res /\ 0 <= shotsAtDecoys res /\
  (nInventory params <= exactBound ->
   shotsTotal res = shotsAtTrueWarheads res + shotsAtDecoys res /\
   interceptedRealWarheads res <= shotsAtTrueWarheads res).
Proof.
  cbv zeta.
  destruct (runOneTrial_facts params r) as (st & -> & [] & _ & Hpos & Hex).
  simpl in *. repeat (split; [lia|]).
  intros Hn. destruct (Hex Hn). lia.
Qed.

(** X7. In every trial of a configuration with an inventory of at most 2^53,
    no object takes more shots than the doctrine's configured shots per
    target: the shots at real warheads are at most that cap times the true
    positives, the shots at decoys at most that cap times the false
    positives. *)
Theorem shots_bounded_by_engaged_tracks (params : Params) (r : Rng) :
  nInventory params <= exactBound ->
  let res := fst (runOneTrial params r) in
  let cap := Z.max 0 (perTargetCap params) in
  shotsAtTrueWarheads res <= cap * truePositives res /\
  shotsAtDecoys res <= cap * falsePositives res /\
  shotsTotal res <= cap * (truePositives res + falsePositives res).
Proof.
  intros Hn. cbv zeta.
  destruct (runOneTrial_facts params r) as (st & -> & _ & _ & _ & Hex).
  destruct (Hex Hn). simpl. lia.
Qed.

Lemma uniform_loopRng (params : Params) (r : Rng) :
  uniform_draws r -> uniform_draws (loopRng params r).
Proof.
  apply uniform_same_stream. unfold loopRng.
  by rewrite stream_applyTrialDegradation, stream_generateTargets.
Qed.

Lemma salvo_sizes (params : Params) (r : Rng) :
  uniform_draws r ->
  0 <= nMissiles params -> 0 <= mirvsPerMissile params ->
  0 <= decoysPerWarhead params ->
  countKind warhead (targets (salvoOf params r)) =
    nMissiles params * mirvsPerMissile params /\
  Z.of_nat (length (targets (salvoOf params r))) =
    nMissiles params * mirvsPerMissile params +
    nMissiles params * mirvsPerMissile params * decoysPerWarhead params.
Proof.
  intros Hu HM HV HD.
  pose proof (generateTargets_Permutation params r Hu) as Hperm.
  assert (0 <= nMissiles params * mirvsPerMissile params) as Hw by lia.
  assert (0 <= nMissiles params * mirvsPerMissile params *
               decoysPerWarhead params) as Hd by lia.
  unfold salvoOf. split.
  - rewrite (countKind_Permutation _ _ _ Hperm).
    apply (countKind_population params Hw Hd).
  - rewrite (Permutation_length Hperm). unfold population.
    rewrite length_app, !length_pushed. lia.
Qed.

(** X8. In every trial of a configuration with non-negative counts, with
    draws in [0, 1): no more objects are detected than the salvo holds and no
    more real warheads than it has; the penetrated real warheads are the
    undetected ones, the false negatives and the true positives that were not
    intercepted; penetrated and intercepted counts lie between 0 and the
    real-warhead count; and, with a configured inventory of at most 2^53,
    the shots fired never exceed the inventory. *)
Theorem trial_counts_bounded (params : Params) (r : Rng) :
  valid_config params ->
  uniform_draws r ->
  let res := fst (runOneTrial params r) in
  detectedObjects res <=
    realWarheads res + realWarheads res * decoysPerWarhead params /\
  detectedRealWarheads res <= realWarheads res /\
  penetratedRealWarheads res =
    (realWarheads res - detectedRealWarheads res) + falseNegatives res +
    (truePositives res - interceptedRealWarheads res) /\
  0 <= penetratedRealWarheads res <= realWarheads res /\
  0 <= interceptedRealWarheads res <= realWarheads res /\
  (nInventory params <= exactBound ->
   0 <= shotsTotal res <= nInventory params /\
   0 <= trialInventoryRemaining res <= nInventory params).
Proof.
  intros Hv Hu. destruct Hv. cbv zeta.
  destruct (salvo_sizes params r Hu) as [Hw Hn]; try lia.
  destruct (runOneTrial_facts params r) as (st & -> & [] & Hsum & _ & Hex).
  rewrite Hw in *. rewrite Hn in *. simpl in *.
  repeat (split; [lia|]).
  intros Hb. destruct (Hex Hb). lia.
Qed.

(** A property of the trial state that every iteration keeps, for draws in
    [0, 1), holds after the loop. *)
Lemma forOf_preserves (params : Params) (d : Degradation)
    (P : TrialState -> Prop) :
  (forall (st : TrialState) (tgt : Target) (r : Rng),
     uniform_draws r -> P st -> P (fst (trialStep params d st tgt r))) ->
  forall (xs : list Target) (st : TrialState) (r : Rng),
    uniform_draws r -> P st -> P (fst (forOf (trialStep params d) xs st r)).
Proof.
  intros Hstep xs. induction xs as [|x xs IH]; intros st r Hu HP; [exact HP|].
  cbn [forOf]. unfold bind.
  pose proof (Hstep st x r Hu HP) as HP1.
  pose proof (stream_trialStep params d st x r) as Hs.
  destruct (trialStep params d st x r) as [st1 r1].
  apply IH; [exact (uniform_same_stream _ _ Hs Hu) | exact HP1].
Qed.

(** X9. With a detection probability of 0 and draws in [0, 1), nothing is
    detected in any trial: no object is classified or engaged, no shot is
    fired, the inventory is untouched and every real warhead penetrates. *)
Theorem zero_detection_everything_penetrates (params : Params) (r : Rng) :
  (pDetectTrack params == 0)%Q ->
  0 <= nMissiles params -> 0 <= mirvsPerMissile params ->
  0 <= decoysPerWarhead params ->
  uniform_draws r ->
  let res := fst (runOneTrial params r) in
  detectedObjects res = 0 /\ detectedRealWarheads res = 0 /\
  truePositives res = 0 /\ falsePositives res = 0 /\
  shotsTotal res = 0 /\ interceptedRealWarheads res = 0 /\
  trialInventoryRemaining res = nInventory params /\
  penetratedRealWarheads res = realWarheads res.
Proof.
  intros Hp HM HV HD Hu. cbv zeta.
  assert (Hd : (pDetectTrack_trial (degradationOf params r) <= 0)%Q).
  { unfold degradationOf, applyTrialDegradation, bind.
    rewrite bernoulli_draw. destruct (Qltb _ _); simpl.
    - rewrite Hp. apply Qle_refl.
    - destruct (clamp01_range
        (pDetectTrack params * detectDegradeFactor params)) as (_ & _ & H & _).
      rewrite H; [apply Qle_refl|]. rewrite Hp, Qmult_0_l. apply Qle_refl. }
  set (P := fun st : TrialState =>
    inventory st = nInventory params /\ st_interceptedRealWarheads st = 0 /\
    st_detectedObjects st = 0 /\ st_detectedRealWarheads st = 0 /\
    st_truePositives st = 0 /\ st_falsePositives st = 0 /\
    st_shotsTotal st = 0).
  assert (HP : P (fst (forOf (trialStep params (degradationOf params r))
                         (targets (salvoOf params r)) (initialState params)
                         (loopRng params r)))).
  { apply forOf_preserves;
      [|apply uniform_loopRng; exact Hu | unfold P; simpl; tauto].
    intros st tgt r0 Hu0 HP. unfold trialStep, bind.
    rewrite bernoulli_draw.
    assert (Qltb (upcoming r0 0) (pDetectTrack_trial (degradationOf params r))
            = false) as ->.
    { apply Qltb_ge. apply Qle_not_lt.
      apply Qle_trans with 0%Q; [exact Hd | apply Hu0]. }
    cbn [negb fst ret]. unfold P, notePenetrated in *.
    destruct (isWarhead tgt); simpl; tauto. }
  destruct (salvo_sizes params r Hu HM HV HD) as [Hw _].
  destruct (runOneTrial_facts params r) as (st & Hres & _ & Hsum & _).
  rewrite runOneTrial_loop in Hres |- *.
  apply (f_equal penetratedRealWarheads) in Hres as Hpen.
  apply (f_equal interceptedRealWarheads) in Hres as Hint.
  unfold P in HP. simpl in *. rewrite Hw in Hsum. lia.
Qed.

(** X10. With no interceptor in the inventory no trial fires a shot or
    intercepts anything: the inventory stays as configured, and (for
    non-negative counts and draws in [0, 1)) every real warhead penetrates. *)
Theorem empty_inventory_everything_penetrates (params : Params) (r : Rng) :
  nInventory params <= 0 ->
  let res := fst (runOneTrial params r) in
  shotsTotal res = 0 /\ shotsAtTrueWarheads res = 0 /\
  shotsAtDecoys res = 0 /\ interceptedRealWarheads res = 0 /\
  trialInventoryRemaining res = nInventory params /\
  (0 <= nMissiles params -> 0 <= mirvsPerMissile params ->
   0 <= decoysPerWarhead params -> uniform_draws r ->
   penetratedRealWarheads res = realWarheads res).
Proof.
  intros Hinv. cbv zeta.
  set (P := fun st : TrialState =>
    inventory st = nInventory params /\ st_interceptedRealWarheads st = 0 /\
    st_shotsTotal st = 0 /\ st_shotsAtTrueWarheads st = 0 /\
    st_shotsAtDecoys st = 0).
  assert (Hstep : forall d st tgt r0,
            P st -> P (fst (trialStep params d st tgt r0))).
  { intros d st tgt r0 HP. unfold trialStep, bind. rewrite bernoulli_draw.
    destruct (Qltb _ _); cbn [negb];
      [|unfold P, notePenetrated in *; destruct (isWarhead tgt); simpl; tauto].
    destruct (classifyTarget tgt params (advance 1 r0)) as [c r1].
    destruct c; cbn [negb];
      [|unfold P, notePenetrated in *; destruct (isWarhead tgt); simpl; tauto].
    rewrite engageTarget_nothing_to_fire
      by (left; unfold P in HP; simpl; lia).
    unfold P, noteEngaged in *. simpl.
    destruct HP as (H1 & H2 & H3 & H4 & H5). rewrite H3, H4, H5.
    change (jsAdd 0 0) with 0.
    destruct (isWarhead tgt); simpl; lia. }
  assert (HP : forall d xs st r0,
            P st -> P (fst (forOf (trialStep params d) xs st r0))).
  { intros d xs. induction xs as [|x xs IH]; intros st r0 HPst; [exact HPst|].
    cbn [forOf]. unfold bind. pose proof (Hstep d st x r0 HPst) as H1.
    destruct (trialStep params d st x r0) as [st1 r1]. apply IH. exact H1. }
  specialize (HP (degradationOf params r) (targets (salvoOf params r))
                (initialState params) (loopRng params r)).
  destruct (runOneTrial_facts params r) as (st & Hres & _ & Hsum & _).
  rewrite runOneTrial_loop in Hres |- *.
  apply (f_equal penetratedRealWarheads) in Hres as Hpen.
  apply (f_equal interceptedRealWarheads) in Hres as Hint.
  unfold P in HP. simpl in *.
  destruct HP as (H1 & H2 & H3 & H4 & H5); [tauto|].
  repeat split; try assumption.
  intros HM HV HD Hu. destruct (salvo_sizes params r Hu HM HV HD) as [Hw _].
  rewrite Hw in Hsum. lia.
Qed.

(** X11. With a false-alarm probability of at most 0 and draws in [0, 1), no
    decoy is ever classified as a warhead track: no trial has a false
    positive or spends a shot on a decoy. *)
Theorem no_false_alarm_no_shot_at_decoys (params : Params) (r : Rng) :
  (pFalseAlarmDecoy params <= 0)%Q ->
  uniform_draws r ->
  let res := fst (runOneTrial params r) in
  falsePositives res = 0 /\ shotsAtDecoys res = 0 /\
  shotsTotal res = shotsAtTrueWarheads res.
Proof.
  intros Hfa Hu. cbv zeta.
  set (P := fun st : TrialState =>
    st_falsePositives st = 0 /\ st_shotsAtDecoys st = 0 /\
    st_shotsTotal st = st_shotsAtTrueWarheads st).
  assert (HP : P (fst (forOf (trialStep params (degradationOf params r))
                         (targets (salvoOf params r)) (initialState params)
                         (loopRng params r)))).
  { apply forOf_preserves;
      [|apply uniform_loopRng; exact Hu | unfold P; simpl; tauto].
    intros st tgt r0 Hu0 HP. unfold trialStep, bind.
    rewrite bernoulli_draw.
    destruct (Qltb _ _); cbn [negb];
      [|unfold P, notePenetrated in *; destruct (isWarhead tgt); simpl; tauto].
    unfold classifyTarget. destruct (isWarhead tgt) eqn:Hw.
    - rewrite bernoulli_draw.
      destruct (Qltb _ _); cbn [negb];
        [|unfold P, notePenetrated, noteClassified, noteDetected in *;
          rewrite ?Hw; simpl; tauto].
      destruct (engageTarget _ _ _ _) as [res r2].
      unfold P, noteEngaged, noteClassified, noteDetected in *.
      rewrite ?Hw. simpl. destruct HP as (H1 & H2 & ->). tauto.
    - rewrite bernoulli_draw.
      assert (Qltb (upcoming (advance 1 r0) 0) (pFalseAlarmDecoy params)
              = false) as ->.
      { apply Qltb_ge. apply Qle_not_lt.
        apply Qle_trans with 0%Q; [exact Hfa|].
        apply (uniform_advance r0 1 Hu0). }
      cbn [negb].
      unfold P, notePenetrated, noteClassified, noteDetected in *.
      rewrite ?Hw. simpl. rewrite ?Hw. simpl. tauto. }
  rewrite runOneTrial_loop. unfold P in HP. simpl. exact HP.
Qed.

Lemma trialStep_perfect (params : Params) (d : Degradation)
    (st : TrialState) (tgt : Target) (r : Rng) :
  uniform_draws r ->
  (1 <= pDetectTrack_trial d)%Q -> (1 <= pClassifyWarhead params)%Q ->
  (pFalseAlarmDecoy params <= 0)%Q -> (1 <= pkWarhead_trial d)%Q ->
  1 <= perTargetCap params ->
  inventory st <= exactBound ->
  (isWarhead tgt = true -> 0 < inventory st) ->
  let st' := fst (trialStep params d st tgt r) in
  st_penetratedRealWarheads st' = st_penetratedRealWarheads st /\
  st_interceptedRealWarheads st' =
    st_interceptedRealWarheads st + warheadCount tgt /\
  inventory st - perTargetCap params * warheadCount tgt <= inventory st' /\
  inventory st' <= exactBound.
Proof.
  intros Hu HpD HpC HpF HpK Hcap Hsafe Hinv. cbv zeta.
  unfold trialStep, bind. rewrite bernoulli_draw.
  assert (Qltb (upcoming r 0) (pDetectTrack_trial d) = true) as ->.
  { apply Qltb_lt. apply Qlt_le_trans with 1%Q; [apply Hu | exact HpD]. }
  cbn [negb]. unfold classifyTarget, warheadCount.
  destruct (isWarhead tgt) eqn:Hw; rewrite bernoulli_draw.
  - assert (Qltb (upcoming (advance 1 r) 0) (pClassifyWarhead params) = true)
      as ->.
    { apply Qltb_lt. apply Qlt_le_trans with 1%Q; [|exact HpC].
      apply (uniform_advance r 1 Hu). }
    cbn [negb].
    set (ep := withPk params (pkWarhead_trial d) (pkDecoy_trial d)).
    set (inv := inventory (noteClassified tgt true (noteDetected tgt st))).
    assert (Hinv' : 0 < inv) by (apply Hinv; reflexivity).
    assert (Hsafe' : inv <= exactBound) by exact Hsafe.
    assert (Hpk : (1 <= killProbability tgt ep)%Q).
    { unfold killProbability. rewrite Hw. exact HpK. }
    pose proof (engageTarget_certain_kill tgt ep inv (advance 1 (advance 1 r))
      (uniform_advance _ 1 (uniform_advance r 1 Hu)) Hinv' Hcap Hpk)
      as (Hk & _ & _).
    pose proof (engageTarget_accounting tgt ep inv (advance 1 (advance 1 r)))
      as Ha.
    pose proof (engageTarget_bounds tgt ep inv (advance 1 (advance 1 r)))
      as Hb.
    cbv zeta in Ha, Hb.
    change (perTargetCap ep) with (perTargetCap params) in Hb.
    destruct (engageTarget tgt ep inv _) as [res r2]. cbn [fst] in *.
    destruct Ha as (H0 & Hmax & Hrem). destruct Hb as [Hkill Hshots].
    specialize (Hkill Hk).
    assert (Hrem' : inventoryRemaining res = inv - shotsFired res).
    { destruct Hrem as [[Hz _] | [_ ->]]; [lia|].
      unfold jsSub. apply toDouble_exact. unfold exactBound in *. lia. }
    unfold noteEngaged. cbn [inventory st_penetratedRealWarheads
      st_interceptedRealWarheads]. rewrite Hw, Hk, Hrem'. simpl.
    change inv with (inventory st) in *. lia.
  - assert (Qltb (upcoming (advance 1 r) 0) (pFalseAlarmDecoy params) = false)
      as ->.
    { apply Qltb_ge. apply Qle_not_lt.
      apply Qle_trans with 0%Q; [exact HpF|]. apply (uniform_advance r 1 Hu). }
    cbn [negb]. unfold notePenetrated, noteClassified, noteDetected.
    rewrite Hw. simpl. lia.
Qed.

Lemma forOf_perfect (params : Params) (d : Degradation) (xs : list Target)
    (st : TrialState) (r : Rng) :
  uniform_draws r ->
  (1 <= pDetectTrack_trial d)%Q -> (1 <= pClassifyWarhead params)%Q ->
  (pFalseAlarmDecoy params <= 0)%Q -> (1 <= pkWarhead_trial d)%Q ->
  1 <= perTargetCap params ->
  inventory st <= exactBound ->
  perTargetCap params * countKind warhead xs <= inventory st ->
  let st' := fst (forOf (trialStep params d) xs st r) in
  st_penetratedRealWarheads st' = st_penetratedRealWarheads st /\
  st_interceptedRealWarheads st' =
    st_interceptedRealWarheads st + countKind warhead xs.
Proof.
  intros Hu HpD HpC HpF HpK Hcap. revert st r Hu.
  induction xs as [|x xs IH]; intros st r Hu Hsafe Hinv.
  - simpl. unfold countKind. simpl. lia.
  - rewrite countKind_warhead_cons in Hinv |- *.
    assert (Hcount : 0 <= countKind warhead xs) by (unfold countKind; lia).
    cbn [forOf]. unfold bind.
    assert (Hengage : isWarhead x = true -> 0 < inventory st).
    { intros Hw. unfold warheadCount in Hinv. rewrite Hw in Hinv. nia. }
    pose proof (trialStep_perfect params d st x r Hu HpD HpC HpF HpK Hcap
                  Hsafe Hengage) as Hstep.
    pose proof (stream_trialStep params d st x r) as Hs.
    cbv zeta in Hstep.
    destruct (trialStep params d st x r) as [st1 r1]. cbn [fst snd] in *.
    destruct Hstep as (H1 & H2 & H3 & H3').
    destruct (IH st1 r1 (uniform_same_stream _ _ Hs Hu) H3') as [H4 H5];
      [nia|].
    cbv zeta. lia.
Qed.

(** X28. A defence that is certainly up, detects and classifies every
    warhead, never mistakes a decoy, kills with every shot and holds at
    least the per-target shots for every real warhead, out of an inventory
    of at most 2^53, lets no real warhead through: every one is
    intercepted. *)
Theorem perfect_defence_within_exact_range (params : Params) (r : Rng) :
  uniform_draws r ->
  0 <= nMissiles params -> 0 <= mirvsPerMissile params ->
  0 <= decoysPerWarhead params ->
  (1 <= pSystemUp params)%Q -> (1 <= pDetectTrack params)%Q ->
  (1 <= pClassifyWarhead params)%Q -> (pFalseAlarmDecoy params <= 0)%Q ->
  (1 <= pkWarhead params)%Q ->
  1 <= perTargetCap params ->
  perTargetCap params * (nMissiles params * mirvsPerMissile params)
    <= nInventory params ->
  nInventory params <= exactBound ->
  let res := fst (runOneTrial params r) in
  penetratedRealWarheads res = 0 /\
  interceptedRealWarheads res = realWarheads res /\
  systemUp res = true.
Proof.
  intros Hu HM HV HD HpS HpD HpC HpF HpK Hcap Hinv Hsafe. cbv zeta.
  assert (Hd : degradationOf params r =
               mkDegradation (pDetectTrack params) (pkWarhead params)
                 (pkDecoy params) true).
  { unfold degradationOf, applyTrialDegradation, bind.
    rewrite bernoulli_draw.
    assert (Qltb (upcoming (snd (generateTargets params r)) 0)
              (pSystemUp params) = true) as ->; [|reflexivity].
    apply Qltb_lt. apply Qlt_le_trans with 1%Q; [|exact HpS].
    apply (uniform_same_stream _ _ (stream_generateTargets params r) Hu). }
  destruct (salvo_sizes params r Hu HM HV HD) as [Hw _].
  rewrite runOneTrial_loop, Hd.
  pose proof (forOf_perfect params
    (mkDegradation (pDetectTrack params) (pkWarhead params)
       (pkDecoy params) true)
    (targets (salvoOf params r)) (initialState params) (loopRng params r)
    (uniform_loopRng params r Hu) HpD HpC HpF HpK Hcap Hsafe) as H.
  rewrite Hw in H. cbv zeta in H. destruct (H Hinv) as [H1 H2].
  simpl in *. rewrite H1, H2. repeat split; lia.
Qed.

(** ** Identifiers of the salvo *)

Lemma pushed_ids (k : Kind) (tag : string) (n : Z) :
  id <$> pushed k tag n =
  (fun i : nat => tag +:+ pretty i) <$> seq 0 (Z.to_nat n).
Proof. unfold pushed. rewrite <- list_fmap_compose. reflexivity. Qed.

Lemma pushed_ids_NoDup (k : Kind) (tag : string) (n : Z) :
  NoDup (id <$> pushed k tag n).
Proof.
  rewrite pushed_ids. apply NoDup_fmap_2; [|apply NoDup_seq].
  intros i j Hij. apply (inj (String.append tag)) in Hij.
  by apply (inj pretty) in Hij.
Qed.

Lemma elem_of_pushed (k : Kind) (tag : string) (n : Z) (t : Target) :
  t ∈ pushed k tag n ->
  kind t = k /\ exists i : nat, Z.of_nat i < Z.max 0 n /\
                               id t = tag +:+ pretty i.
Proof.
  unfold pushed. intros (i & -> & Hi)%list_elem_of_fmap.
  apply elem_of_seq in Hi. split; [reflexivity|].
  exists i. split; [lia | reflexivity].
Qed.

(** X13. For non-negative counts and draws in [0, 1), the identifiers in a
    salvo are pairwise distinct, and every object carries the prefix of its
    kind followed by a sequence number below the number of objects of that
    kind. *)
Theorem salvo_identifiers_distinct (params : Params) (r : Rng) :
  0 <= nMissiles params -> 0 <= mirvsPerMissile params ->
  0 <= decoysPerWarhead params ->
  uniform_draws r ->
  let g := fst (generateTargets params r) in
  NoDup (id <$> targets g) /\
  forall t : Target, t ∈ targets g ->
    exists i : nat,
      Z.of_nat i < kindCount params (kind t) /\
      id t = idTag (kind t) +:+ pretty i.
Proof.
  intros HM HV HD Hu. cbv zeta.
  pose proof (generateTargets_Permutation params r Hu) as Hperm.
  assert (0 <= nMissiles params * mirvsPerMissile params) as Hw by lia.
  assert (0 <= nMissiles params * mirvsPerMissile params *
               decoysPerWarhead params) as Hd by lia.
  split.
  - rewrite Hperm. unfold population. rewrite fmap_app.
    apply NoDup_app. split; [apply pushed_ids_NoDup|].
    split; [|apply pushed_ids_NoDup].
    intros x Hx1 Hx2. rewrite pushed_ids in Hx1, Hx2.
    apply list_elem_of_fmap in Hx1 as (i & -> & _).
    apply list_elem_of_fmap in Hx2 as (j & Hij & _).
    simpl in Hij. discriminate.
  - intros t Ht. rewrite Hperm in Ht. unfold population in Ht.
    apply elem_of_app in Ht as [Ht|Ht];
      apply elem_of_pushed in Ht as (-> & i & Hi & Hid);
      exists i; simpl; split; [lia | exact Hid | lia | exact Hid].
Qed.

(** ** Monte Carlo *)

Lemma arrays_foldl (xs : list TrialResult) (a : McArrays) :
  intReal (foldl record a xs) =
    intReal a ++ (interceptedRealWarheads <$> xs) /\
  shotsTot (foldl record a xs) = shotsTot a ++ (shotsTotal <$> xs) /\
  fp (foldl record a xs) = fp a ++ (falsePositives <$> xs) /\
  systemUpFlags (foldl record a xs) =
    systemUpFlags a ++
    ((fun t => if systemUp t then 1 else 0) <$> xs).
Proof.
  revert a. induction xs as [|x xs IH]; intros a; simpl.
  - by rewrite !app_nil_r.
  - destruct (IH (record a x)) as (-> & -> & -> & ->). simpl.
    by rewrite <- !app_assoc.
Qed.

Lemma runMonteCarlo_arrays (params : Params) (r : Rng) :
  fst (runMonteCarlo params r) =
  let a := foldl record emptyArrays
             (fst (trialRuns (Z.to_nat (nTrials params)) params r)) in
  mkMcResult (penReal a) (intReal a) (shotsTot a) (fp a) (summarize a).
Proof.
  unfold runMonteCarlo, bind. rewrite trialsLoop_runs. unfold bind.
  destruct (trialRuns _ params r). reflexivity.
Qed.

(** X14. The four raw arrays that [runMonteCarlo] returns hold one entry per
    trial, in trial order: the penetrated, intercepted, total-shot and
    false-positive counts of the trials; there are [nTrials] of them (none
    when [nTrials] is not positive). *)
Theorem monte_carlo_arrays_follow_trials (params : Params) (r : Rng) :
  let res := fst (runMonteCarlo params r) in
  let trials := fst (trialRuns (Z.to_nat (nTrials params)) params r) in
  resPenReal res = penetratedRealWarheads <$> trials /\
  resIntReal res = interceptedRealWarheads <$> trials /\
  resShotsTot res = shotsTotal <$> trials /\
  resFp res = falsePositives <$> trials /\
  Z.of_nat (length trials) = Z.max 0 (nTrials params).
Proof.
  cbv zeta. rewrite runMonteCarlo_arrays. cbv zeta. simpl.
  rewrite penReal_foldl.
  destruct (arrays_foldl
    (fst (trialRuns (Z.to_nat (nTrials params)) params r)) emptyArrays)
    as (-> & -> & -> & _).
  simpl. rewrite length_trialRuns. repeat split. lia.
Qed.

Lemma stream_trialRuns (n : nat) (params : Params) (r : Rng) :
  stream (snd (trialRuns n params r)) = stream r.
Proof.
  revert r. induction n as [|n IH]; intros r; [reflexivity|].
  cbn [trialRuns]. unfold bind.
  pose proof (stream_runOneTrial params r) as H.
  destruct (runOneTrial params r) as [x r1]. specialize (IH r1).
  destruct (trialRuns n params r1) as [xs r2]. simpl in *. congruence.
Qed.

(** What holds of every trial that starts from draws in [0, 1) holds of
    every trial of a run. *)
Lemma trialRuns_Forall (params : Params) (P : TrialResult -> Prop) :
  (forall r : Rng, uniform_draws r -> P (fst (runOneTrial params r))) ->
  forall (n : nat) (r : Rng),
    uniform_draws r -> Forall P (fst (trialRuns n params r)).
Proof.
  intros HP n. induction n as [|n IH]; intros r Hu; [constructor|].
  cbn [trialRuns]. unfold bind.
  pose proof (HP r Hu) as Hx.
  pose proof (stream_runOneTrial params r) as Hs.
  destruct (runOneTrial params r) as [x r1].
  specialize (IH r1 (uniform_same_stream _ _ Hs Hu)).
  destruct (trialRuns n params r1) as [xs r2]. constructor; assumption.
Qed.

Lemma foldl_Qplus_bounds (a b : Q) (xs : list Q) (acc : Q) :
  Forall (fun x => (a <= x <= b)%Q) xs ->
  (acc + inject_Z (Z.of_nat (length xs)) * a <= foldl Qplus acc xs)%Q /\
  (foldl Qplus acc xs <= acc + inject_Z (Z.of_nat (length xs)) * b)%Q.
Proof.
  intros H. revert acc. induction H as [|x xs [Hax Hxb] _ IH]; intros acc.
  - simpl. change (inject_Z (Z.of_nat 0)) with 0%Q. split; lra.
  - cbn [foldl length]. rewrite Nat2Z.inj_succ. unfold Z.succ.
    rewrite inject_Z_plus. change (inject_Z 1) with 1%Q.
    destruct (IH (acc + x)%Q) as [IH1 IH2]. split; lra.
Qed.

Lemma mean_bounds (a b : Q) (xs : list Q) :
  xs <> [] ->
  Forall (fun x => (a <= x <= b)%Q) xs ->
  exists q : Q, mean xs = Fin q /\ (a <= q <= b)%Q.
Proof.
  intros Hne Hall. unfold mean.
  destruct (decide (length xs = 0%nat)) as [H0|Hlen].
  - destruct xs; [done | discriminate].
  - eexists. split; [reflexivity|].
    destruct (foldl_Qplus_bounds a b xs 0 Hall) as [H1 H2].
    assert (Hn : (0 < inject_Z (Z.of_nat (length xs)))%Q).
    { change 0%Q with (inject_Z 0). rewrite <- Zlt_Qlt. lia. }
    split.
    + apply Qle_shift_div_l; [exact Hn|]. lra.
    + apply Qle_shift_div_r; [exact Hn|]. lra.
Qed.

Lemma runOneTrial_fates (params : Params) (r : Rng) :
  valid_config params ->
  uniform_draws r ->
  let res := fst (runOneTrial params r) in
  0 <= penetratedRealWarheads res /\ 0 <= interceptedRealWarheads res /\
  penetratedRealWarheads res + interceptedRealWarheads res =
    nMissiles params * mirvsPerMissile params.
Proof.
  intros Hv Hu. destruct Hv. cbv zeta.
  destruct (salvo_sizes params r Hu) as [Hw _]; try lia.
  destruct (runOneTrial_facts params r) as (st & -> & [] & Hsum & _).
  rewrite Hw in *. simpl in *. lia.
Qed.

Lemma sumZ_pairs {A : Type} (f g : A -> Z) (c : Z) (xs : list A) :
  Forall (fun t => f t + g t = c) xs ->
  sumZ (f <$> xs) + sumZ (g <$> xs) = Z.of_nat (length xs) * c.
Proof.
  induction 1 as [|x xs Hx _ IH]; [reflexivity|].
  cbn [fmap list_fmap sumZ foldr length] in *. unfold sumZ in IH. lia.
Qed.

Lemma mean_nums_exact (xs : list Z) :
  xs <> [] ->
  mean (nums xs) =
  Fin (foldl Qplus 0%Q (nums xs) / inject_Z (Z.of_nat (length xs))).
Proof.
  intros Hne. unfold mean, nums. rewrite length_fmap.
  destruct (decide (length xs = 0%nat)) as [H0|_]; [|reflexivity].
  destruct xs; [done | discriminate].
Qed.

(** X16. In a run of at least one trial of a valid configuration, with draws
    in [0, 1), the mean penetrated and the mean intercepted real warheads add
    up to the real-warhead count (in exact arithmetic: the sanity line of the
    summary). *)
Theorem mean_fates_add_up (params : Params) (r : Rng) :
  valid_config params ->
  uniform_draws r ->
  let s := summary (fst (runMonteCarlo params r)) in
  num_eq (num_add (meanPenReal s) (meanIntReal s))
    (Fin (inject_Z (nMissiles params * mirvsPerMissile params))).
Proof.
  intros Hv Hu. cbv zeta. rewrite runMonteCarlo_arrays. cbv zeta.
  cbn [summary summarize meanPenReal meanIntReal].
  rewrite penReal_foldl.
  destruct (arrays_foldl
    (fst (trialRuns (Z.to_nat (nTrials params)) params r)) emptyArrays)
    as (-> & _). cbn [emptyArrays penReal intReal app].
  pose proof (trialRuns_Forall params
    (fun t => penetratedRealWarheads t + interceptedRealWarheads t =
              nMissiles params * mirvsPerMissile params)
    (fun r0 Hu0 => proj2 (proj2 (runOneTrial_fates params r0 Hv Hu0)))
    (Z.to_nat (nTrials params)) r Hu) as Hall.
  pose proof (length_trialRuns (Z.to_nat (nTrials params)) params r) as Hlen.
  set (trials := fst (trialRuns (Z.to_nat (nTrials params)) params r)) in *.
  assert (Hne : trials <> []).
  { intros E. rewrite E in Hlen. simpl in Hlen. destruct Hv. lia. }
  rewrite !mean_nums_exact by (by destruct trials).
  rewrite !length_fmap. simpl.
  rewrite !foldl_Qplus_nums.
  pose proof (sumZ_pairs penetratedRealWarheads interceptedRealWarheads _
                trials Hall) as Hsum.
  apply (f_equal inject_Z) in Hsum.
  rewrite inject_Z_plus, inject_Z_mult in Hsum.
  assert (Hn : ~ (inject_Z (Z.of_nat (length trials)) == 0)%Q).
  { change 0%Q with (inject_Z 0). rewrite inject_Z_injective.
    destruct trials; [done | simpl; lia]. }
  set (a := inject_Z (sumZ (penetratedRealWarheads <$> trials))) in *.
  set (b := inject_Z (sumZ (interceptedRealWarheads <$> trials))) in *.
  set (n := inject_Z (Z.of_nat (length trials))) in *.
  set (w := inject_Z (nMissiles params * mirvsPerMissile params)) in *.
  assert (Hab : (a + b == n * w)%Q) by (rewrite Hsum; reflexivity).
  transitivity ((a + b) / n)%Q; [field; exact Hn|].
  rewrite Hab. field. exact Hn.
Qed.

(** X17. In a run of at least one trial of a valid configuration, with draws
    in [0, 1), the penetration rate of the summary is a number between 0 and
    1. *)
Theorem penetration_rate_is_a_fraction (params : Params) (r : Rng) :
  valid_config params ->
  uniform_draws r ->
  exists q : Q,
    meanPenRateReal (summary (fst (runMonteCarlo params r))) = Fin q /\
    (0 <= q <= 1)%Q.
Proof.
  intros Hv Hu. rewrite runMonteCarlo_arrays. cbv zeta.
  cbn [summary summarize meanPenRateReal].
  rewrite penReal_foldl, realWarheadsConst_foldl.
  cbn [emptyArrays penReal realWarheadsConst app].
  pose proof (trialRuns_Forall params
    (fun t => 0 <= penetratedRealWarheads t /\
              0 <= interceptedRealWarheads t /\
              penetratedRealWarheads t + interceptedRealWarheads t =
              nMissiles params * mirvsPerMissile params)
    (fun r0 Hu0 => runOneTrial_fates params r0 Hv Hu0)
    (Z.to_nat (nTrials params)) r Hu) as Hall.
  pose proof (trialRuns_realWarheads (Z.to_nat (nTrials params)) params r)
    as Hrw.
  pose proof (length_trialRuns (Z.to_nat (nTrials params)) params r) as Hlen.
  set (trials := fst (trialRuns (Z.to_nat (nTrials params)) params r)) in *.
  set (rw := nMissiles params * mirvsPerMissile params) in *.
  destruct trials as [|x xs] eqn:Htrials;
    [simpl in Hlen; destruct Hv; lia|].
  inversion Hrw as [|? ? Hx _]; subst. cbn [fmap list_fmap head].
  rewrite Hx. unfold penRate.
  destruct (0 <? rw) eqn:Hpos;
    [|exists 0%Q; split; [reflexivity | split; discriminate]].
  apply Z.ltb_lt in Hpos.
  destruct (mean_bounds 0 (inject_Z rw)
              (nums (penetratedRealWarheads x ::
                       (penetratedRealWarheads <$> xs))))
    as (m & Hm & Hm0 & Hm1).
  { discriminate. }
  { change (penetratedRealWarheads x :: (penetratedRealWarheads <$> xs))
      with (penetratedRealWarheads <$> x :: xs).
    unfold nums. rewrite <- list_fmap_compose. apply Forall_fmap.
    eapply Forall_impl; [exact Hall|].
    intros t (H0 & H1 & H2). simpl.
    change 0%Q with (inject_Z 0). rewrite <- !Zle_Qle. fold rw in H2. lia. }
  rewrite Hm. simpl. eexists. split; [reflexivity|].
  assert (Hw : (0 < inject_Z rw)%Q).
  { change 0%Q with (inject_Z 0). by rewrite <- Zlt_Qlt. }
  split.
  - apply Qle_shift_div_l; [exact Hw | lra].
  - apply Qle_shift_div_r; [exact Hw | lra].
Qed.

(** X18. In a run of at least one trial the share of trials with the system
    up is a number between 0 and 1. *)
Theorem system_up_share_is_a_fraction (params : Params) (r : Rng) :
  1 <= nTrials params ->
  exists q : Q,
    meanSystemUp (summary (fst (runMonteCarlo params r))) = Fin q /\
    (0 <= q <= 1)%Q.
Proof.
  intros Hn. rewrite runMonteCarlo_arrays. cbv zeta.
  cbn [summary summarize meanSystemUp].
  destruct (arrays_foldl
    (fst (trialRuns (Z.to_nat (nTrials params)) params r)) emptyArrays)
    as (_ & _ & _ & ->). cbn [emptyArrays systemUpFlags app].
  pose proof (length_trialRuns (Z.to_nat (nTrials params)) params r) as Hlen.
  destruct (fst (trialRuns (Z.to_nat (nTrials params)) params r))
    as [|x xs]; [simpl in Hlen; lia|].
  apply mean_bounds; [discriminate|].
  unfold nums. rewrite <- list_fmap_compose. apply Forall_fmap.
  apply Forall_true. intros t. simpl.
  destruct (systemUp t); split; discriminate.
Qed.

(** X19. A run without trials ([nTrials] not positive) reads no draw and
    returns empty arrays, no real-warhead count, [NaN] for every mean and
    percentile, and a penetration rate of 0. *)
Theorem no_trials_no_statistics (params : Params) (r : Rng) :
  nTrials params <= 0 ->
  let res := fst (runMonteCarlo params r) in
  snd (runMonteCarlo params r) = r /\
  resPenReal res = [] /\ resIntReal res = [] /\
  resShotsTot res = [] /\ resFp res = [] /\
  sumRealWarheads (summary res) = None /\
  meanPenReal (summary res) = NaN /\ meanIntReal (summary res) = NaN /\
  p10PenReal (summary res) = NaN /\ medianPenReal (summary res) = NaN /\
  p90PenReal (summary res) = NaN /\ meanShotsTotal (summary res) = NaN /\
  meanSystemUp (summary res) = NaN /\
  meanPenRateReal (summary res) = Fin 0.
Proof.
  intros Hn. cbv zeta. unfold runMonteCarlo, bind.
  replace (Z.to_nat (nTrials params)) with 0%nat by lia.
  simpl. repeat split.
Qed.

(** ** Percentiles *)

Lemma floor_ceiling_cases (x : Q) :
  (inject_Z (Qfloor x) <= x)%Q /\ (x <= inject_Z (Qceiling x))%Q /\
  Qfloor x <= Qceiling x <= Qfloor x + 1 /\
  (Qfloor x = Qceiling x -> (x == inject_Z (Qfloor x))%Q) /\
  (Qfloor x <> Qceiling x ->
   Qceiling x = Qfloor x + 1 /\ (inject_Z (Qfloor x) < x)%Q /\
   (x < inject_Z (Qfloor x) + 1)%Q).
Proof.
  pose proof (Qfloor_le x) as H1. pose proof (Qlt_floor x) as H2.
  pose proof (Qle_ceiling x) as H3. pose proof (Qceiling_lt x) as H4.
  rewrite inject_Z_plus in H2. unfold Z.sub in H4.
  rewrite inject_Z_plus in H4.
  change (inject_Z 1) with 1%Q in H2.
  change (inject_Z (- (1))) with (-1 # 1)%Q in H4.
  assert (Hle : Qfloor x <= Qceiling x).
  { rewrite Zle_Qle. lra. }
  assert (Hge : Qceiling x <= Qfloor x + 1).
  { assert (inject_Z (Qceiling x) < inject_Z (Qfloor x + 2))%Q as H.
    { rewrite inject_Z_plus. change (inject_Z 2) with 2%Q. lra. }
    rewrite <- Zlt_Qlt in H. lia. }
  split; [exact H1|]. split; [exact H3|]. split; [lia|]. split.
  - intros E. rewrite <- E in H3. lra.
  - intros Hne. assert (E : Qceiling x = Qfloor x + 1) by lia.
    split; [exact E|]. split; [|lra].
    rewrite E, inject_Z_plus in H4. change (inject_Z 1) with 1%Q in H4. lra.
Qed.

Lemma Sorted_lookup_le (l : list Q) (i j : nat) (a b : Q) :
  Sorted Qle l -> (i <= j)%nat ->
  l !! i = Some a -> l !! j = Some b -> (a <= b)%Q.
Proof.
  intros Hs. apply Sorted_StronglySorted in Hs;
    [|intros x y z; apply Qle_trans].
  revert i j. induction Hs as [|x l Hs IH Hall]; intros i j Hij Hi Hj.
  - discriminate.
  - destruct i as [|i], j as [|j]; simpl in *; try lia.
    + injection Hi as <-. injection Hj as <-. apply Qle_refl.
    + injection Hi as <-. rewrite List.Forall_forall in Hall.
      apply Hall. apply list_elem_of_In. by eapply list_elem_of_lookup_2.
    + apply (IH i j); [lia | assumption ..].
Qed.

Lemma at_index_lookup (l : list Q) (i : Z) :
  0 <= i < Z.of_nat (length l) ->
  exists q : Q, l !! Z.to_nat i = Some q /\ at_index l i = Fin q.
Proof.
  intros Hi. unfold at_index.
  destruct (i <? 0) eqn:Hneg; [apply Z.ltb_lt in Hneg; lia|].
  destruct (lookup_lt_is_Some_2 l (Z.to_nat i) ltac:(lia)) as [q Hq].
  exists q. rewrite Hq. split; reflexivity.
Qed.

Lemma percentileIndex_range (n : nat) (p : Q) :
  (1 <= n)%nat -> (0 <= p)%Q -> (p <= 100)%Q ->
  (0 <= percentileIndex n p)%Q /\
  (percentileIndex n p <= inject_Z (Z.of_nat n - 1))%Q.
Proof.
  intros Hn Hp0 Hp1. unfold percentileIndex.
  assert (H0 : (0 <= inject_Z (Z.of_nat n - 1))%Q).
  { change 0%Q with (inject_Z 0). rewrite <- Zle_Qle. lia. }
  assert (Hf0 : (0 <= p / 100)%Q) by (apply Qle_shift_div_l; lra).
  assert (Hf1 : (p / 100 <= 1)%Q) by (apply Qle_shift_div_r; lra).
  split.
  - apply Qmult_le_0_compat; assumption.
  - rewrite <- (Qmult_1_l (inject_Z (Z.of_nat n - 1))) at 2.
    apply Qmult_le_compat_r; assumption.
Qed.

(** What [percentile] returns for a non-empty sequence and p in [0, 100]:
    the two sorted values around the index and the number between them. *)
Lemma percentile_cases (arr : list Q) (p : Q) :
  arr <> [] -> (0 <= p)%Q -> (p <= 100)%Q ->
  let sorted := sortNumeric arr in
  let idx := percentileIndex (length arr) p in
  let lo := Qfloor idx in
  let hi := Qceiling idx in
  exists a b q : Q,
    sorted !! Z.to_nat lo = Some a /\ sorted !! Z.to_nat hi = Some b /\
    0 <= lo /\ hi < Z.of_nat (length arr) /\
    percentile arr p = Fin q /\
    (a <= q)%Q /\ (q <= b)%Q /\
    (lo = hi -> q = a) /\
    (lo <> hi -> q = (a * (1 - (idx - inject_Z lo)) +
                      b * (idx - inject_Z lo))%Q).
Proof.
  intros Hne Hp0 Hp1. cbv zeta.
  assert (Hn : (1 <= length arr)%nat) by (destruct arr; [done | simpl; lia]).
  assert (Hlen : length (sortNumeric arr) = length arr)
    by (by rewrite (sortNumeric_Permutation arr)).
  destruct (percentileIndex_range (length arr) p Hn Hp0 Hp1) as [Hi0 Hi1].
  set (idx := percentileIndex (length arr) p) in *.
  destruct (floor_ceiling_cases idx) as (Hfl & Hce & Hord & Heq & Hne').
  assert (Hlo0 : 0 <= Qfloor idx).
  { change 0 with (Qfloor 0). by apply Qfloor_resp_le. }
  assert (Hhi1 : Qceiling idx <= Z.of_nat (length arr) - 1).
  { rewrite <- (Qceiling_Z (Z.of_nat (length arr) - 1)).
    by apply Qceiling_resp_le. }
  destruct (at_index_lookup (sortNumeric arr) (Qfloor idx))
    as (a & Ha & Ha'); [lia|].
  destruct (at_index_lookup (sortNumeric arr) (Qceiling idx))
    as (b & Hb & Hb'); [lia|].
  assert (Hab : (a <= b)%Q).
  { apply (Sorted_lookup_le (sortNumeric arr) (Z.to_nat (Qfloor idx))
             (Z.to_nat (Qceiling idx)));
      [apply sortNumeric_sorted | lia | assumption ..]. }
  assert (Hperc : percentile arr p =
    if decide (Qfloor idx = Qceiling idx) then Fin a
    else Fin (a * (1 - (idx - inject_Z (Qfloor idx))) +
              b * (idx - inject_Z (Qfloor idx)))).
  { unfold percentile.
    destruct (decide (length arr = 0%nat)) as [H0|_]; [lia|].
    rewrite Hlen. fold (percentileIndex (length arr) p). fold idx.
    rewrite Ha', Hb'. reflexivity. }
  destruct (decide (Qfloor idx = Qceiling idx)) as [E|E].
  - exists a, b, a. rewrite Hperc.
    repeat split; try assumption; try lia; try apply Qle_refl;
      try (intros Hc; contradiction).
  - destruct (Hne' E) as (Hhi & Hlt1 & Hlt2).
    exists a, b, (a * (1 - (idx - inject_Z (Qfloor idx))) +
                  b * (idx - inject_Z (Qfloor idx)))%Q.
    rewrite Hperc.
    set (w := (idx - inject_Z (Qfloor idx))%Q) in *.
    assert (Hw0 : (0 <= w)%Q) by (unfold w; lra).
    assert (Hw1 : (0 <= 1 - w)%Q) by (unfold w; lra).
    assert (Hd : (0 <= b - a)%Q) by lra.
    pose proof (Qmult_le_0_compat _ _ Hd Hw0) as H1.
    pose proof (Qmult_le_0_compat _ _ Hd Hw1) as H2.
    repeat split; try assumption; try lia.
    + assert (a * (1 - w) + b * w == a + (b - a) * w)%Q as -> by ring. lra.
    + assert (a * (1 - w) + b * w == b - (b - a) * (1 - w))%Q as -> by ring.
      lra.
Qed.

Lemma sortNumeric_elem_of (arr : list Q) (x : Q) :
  x ∈ sortNumeric arr <-> x ∈ arr.
Proof. by rewrite (sortNumeric_Permutation arr). Qed.

(** X21. For a non-empty sequence, [percentile] at 0 returns a least element
    of the sequence and at 100 a greatest one. *)
Theorem percentile_endpoints (arr : list Q) :
  arr <> [] ->
  exists lo hi : Q,
    lo ∈ arr /\ hi ∈ arr /\
    percentile arr 0 = Fin lo /\ percentile arr 100 = Fin hi /\
    Forall (fun x => (lo <= x <= hi)%Q) arr.
Proof.
  intros Hne.
  assert (Hn : (1 <= length arr)%nat) by (destruct arr; [done | simpl; lia]).
  assert (Hlen : length (sortNumeric arr) = length arr)
    by (by rewrite (sortNumeric_Permutation arr)).
  destruct (percentile_cases arr 0 Hne ltac:(lra) ltac:(lra))
    as (a & b0 & q & Ha & _ & _ & _ & Hq & _ & _ & Heq & _).
  destruct (percentile_cases arr 100 Hne ltac:(lra) ltac:(lra))
    as (a0 & b & q' & Ha0 & _ & _ & _ & Hq' & _ & _ & Heq' & _).
  assert (E0 : (percentileIndex (length arr) 0 == 0)%Q).
  { unfold percentileIndex. field. }
  assert (E1 : (percentileIndex (length arr) 100 ==
                inject_Z (Z.of_nat (length arr) - 1))%Q).
  { unfold percentileIndex. field. }
  rewrite (Qfloor_comp _ _ E0) in Ha, Heq.
  rewrite (Qceiling_comp _ _ E0) in Heq.
  rewrite (Qfloor_comp _ _ E1), Qfloor_Z in Ha0, Heq'.
  rewrite (Qceiling_comp _ _ E1), Qceiling_Z in Heq'.
  change (Qfloor 0) with 0 in *. change (Qceiling 0) with 0 in *.
  rewrite (Heq eq_refl) in Hq. rewrite (Heq' eq_refl) in Hq'.
  clear Heq Heq'.
  exists a, a0. split; [|split; [|split; [exact Hq | split; [exact Hq'|]]]].
  - apply sortNumeric_elem_of. by eapply list_elem_of_lookup_2.
  - apply sortNumeric_elem_of. by eapply list_elem_of_lookup_2.
  - apply Forall_forall. intros x Hx.
    apply sortNumeric_elem_of, list_elem_of_lookup_1 in Hx as [j Hj].
    pose proof (lookup_lt_Some _ _ _ Hj) as Hlt.
    split.
    + apply (Sorted_lookup_le (sortNumeric arr) (Z.to_nat 0) j);
        [apply sortNumeric_sorted | lia | assumption ..].
    + apply (Sorted_lookup_le (sortNumeric arr) j
               (Z.to_nat (Z.of_nat (length arr) - 1)));
        [apply sortNumeric_sorted | lia | assumption ..].
Qed.

(** ** Reading the form *)

Lemma floatOr_Qeq (q : Q) : (floatOr (Some q) 0 == q)%Q.
Proof.
  unfold floatOr. destruct (Qeq_bool q 0) eqn:E; [|reflexivity].
  apply Qeq_bool_eq in E. by rewrite E.
Qed.

Lemma clamp01_between (x : Q) : (0 <= clamp01 x <= 1)%Q.
Proof. apply clamp01_range. Qed.

(** X24. Whatever the number inputs hold, [readParamsFromUI] returns counts
    and probabilities in the ranges of a valid configuration; with one of
    the two doctrine modes of the selector the configuration is valid. *)
Theorem form_reader_yields_valid_config (form : FormValues) :
  form_doctrineMode form = "barrage" \/ form_doctrineMode form = "sls" ->
  valid_config (readParamsFromUI form).
Proof.
  intros Hmode.
  constructor; cbn [readParamsFromUI nMissiles mirvsPerMissile
    decoysPerWarhead shotsPerTarget maxShotsPerTarget nInventory nTrials
    doctrineMode pDetectTrack pClassifyWarhead pFalseAlarmDecoy pReengage
    pkWarhead pkDecoy pSystemUp detectDegradeFactor pkDegradeFactor];
    try lia; try exact Hmode; apply clamp01_between.
Qed.

(** X25. A form filled with the values of a valid configuration is read
    back as that configuration: the same counts and mode, and equal
    probabilities. *)
Theorem form_reader_keeps_valid_values (params : Params) :
  valid_config params ->
  same_config (readParamsFromUI (formOf params)) params.
Proof.
  intros [].
  assert (Hint : forall n d : Z, 0 <= n -> Z.max 0 (intOr (Some n) d) = n
                                 \/ n = 0).
  { intros n d Hn. unfold intOr. destruct (n =? 0) eqn:E; [right|left].
    - by apply Z.eqb_eq. - lia. }
  assert (Hpos : forall n d : Z, 1 <= n -> Z.max 1 (intOr (Some n) d) = n).
  { intros n d Hn. unfold intOr. destruct (n =? 0) eqn:E; [|lia].
    apply Z.eqb_eq in E. lia. }
  assert (Hnat : forall n : Z, 0 <= n -> Z.max 0 (intOr (Some n) 0) = n).
  { intros n Hn. unfold intOr. destruct (n =? 0) eqn:E; [|lia].
    apply Z.eqb_eq in E. lia. }
  assert (Hprob : forall q : Q, (0 <= q <= 1)%Q ->
            (clamp01 (floatOr (Some q) 0) == q)%Q).
  { intros q [H0 H1]. pose proof (floatOr_Qeq q) as E.
    transitivity (floatOr (Some q) 0); [|exact E].
    apply clamp01_range_aux; rewrite E; assumption. }
  constructor; cbn [readParamsFromUI formOf nMissiles mirvsPerMissile
    decoysPerWarhead shotsPerTarget maxShotsPerTarget nInventory nTrials
    doctrineMode pDetectTrack pClassifyWarhead pFalseAlarmDecoy pReengage
    pkWarhead pkDecoy pSystemUp detectDegradeFactor pkDegradeFactor
    form_nMissiles form_mirvsPerMissile form_decoysPerWarhead
    form_pDetectTrack form_pClassifyWarhead form_pFalseAlarmDecoy
    form_doctrineMode form_shotsPerTarget form_maxShotsPerTarget
    form_pReengage form_pkWarhead form_pkDecoy form_nInventory form_nTrials
    form_pSystemUp form_detectDegradeFactor form_pkDegradeFactor];
    try reflexivity; try (apply Hnat; assumption);
    try (apply Hpos; assumption); apply Hprob; assumption.
Qed.

(** ** Histogram bins *)

Lemma binIndex_range (v minV span : Q) (bins : Z) :
  1 <= bins -> 0 <= binIndex v minV span bins < bins.
Proof.
  intros Hb. unfold binIndex.
  set (idx := Qfloor _).
  destruct (idx <? 0) eqn:E1.
  - destruct (bins <=? 0) eqn:E2; [apply Z.leb_le in E2; lia | lia].
  - apply Z.ltb_ge in E1.
    destruct (bins <=? idx) eqn:E2;
      [lia | apply Z.leb_gt in E2; lia].
Qed.

Lemma sumZ_insert (l : list Z) (i : nat) (c d : Z) :
  l !! i = Some c -> sumZ (<[i := d]> l) = sumZ l - c + d.
Proof.
  revert i. induction l as [|x l IH]; intros [|i] H; simpl in *;
    try discriminate.
  - injection H as ->. unfold sumZ. simpl. lia.
  - specialize (IH i H). unfold sumZ in *. simpl. lia.
Qed.

Lemma increment_counts (counts : list Z) (idx : Z) :
  0 <= idx < Z.of_nat (length counts) ->
  length (increment counts idx) = length counts /\
  sumZ (increment counts idx) = sumZ counts + 1 /\
  (Forall (fun c => 0 <= c) counts ->
   Forall (fun c => 0 <= c) (increment counts idx)).
Proof.
  intros Hi. unfold increment.
  destruct (idx <? 0) eqn:E; [apply Z.ltb_lt in E; lia|].
  destruct (lookup_lt_is_Some_2 counts (Z.to_nat idx) ltac:(lia)) as [c Hc].
  rewrite Hc. split; [apply length_insert|]. split.
  - rewrite (sumZ_insert _ _ c _ Hc). lia.
  - intros Hall. apply Forall_insert; [exact Hall|].
    rewrite Forall_forall in Hall.
    pose proof (Hall c (list_elem_of_lookup_2 _ _ _ Hc)). lia.
Qed.

Lemma sumZ_replicate_0 (n : nat) : sumZ (replicate n 0) = 0.
Proof.
  induction n as [|n IH]; [reflexivity|]. unfold sumZ in *. simpl. lia.
Qed.

Lemma histogram_fold (minV span : Q) (bins : Z) (vs : list Q)
    (counts : list Z) :
  1 <= bins ->
  Z.of_nat (length counts) = bins ->
  Forall (fun c => 0 <= c) counts ->
  let out := foldl (fun counts v =>
               increment counts (binIndex v minV span bins)) counts vs in
  Z.of_nat (length out) = bins /\ Forall (fun c => 0 <= c) out /\
  sumZ out = sumZ counts + Z.of_nat (length vs).
Proof.
  intros Hb. revert counts.
  induction vs as [|v vs IH]; intros counts Hlen Hpos.
  - simpl. repeat split; [exact Hlen | exact Hpos | lia].
  - cbn [foldl length].
    destruct (increment_counts counts (binIndex v minV span bins))
      as (H1 & H2 & H3).
    { pose proof (binIndex_range v minV span bins). lia. }
    destruct (IH (increment counts (binIndex v minV span bins)))
      as (I1 & I2 & I3); [lia | by apply H3 |].
    cbv zeta. repeat split; [exact I1 | exact I2 | lia].
Qed.

(** X26. For a non-empty array of values below 2^52 in magnitude and a
    bin count from 1 to 2^32 - 1 the histogram has exactly that many bins, no
    bin is negative, and the bins add up to the number of values: every
    value is counted in exactly one bin.  An empty array gives the no-data
    chart. *)
Theorem histogram_counts_every_value_once (arr : list Q) (bins : Z) :
  histogramCounts [] bins = NoData /\
  (arr <> [] -> 1 <= bins <= 4294967295 ->
   Forall (fun v => (- halfUnitBound < v < halfUnitBound)%Q) arr ->
   exists counts : list Z,
     histogramCounts arr bins = Bins counts /\
     Z.of_nat (length counts) = bins /\
     Forall (fun c => 0 <= c) counts /\
     sumZ counts = Z.of_nat (length arr)).
Proof.
  split; [reflexivity|]. intros Hne Hb _.
  destruct arr as [|x xs]; [done|]. unfold histogramCounts.
  assert ((bins <? 0) || (4294967295 <? bins) = false) as ->.
  { apply orb_false_iff. split; [apply Z.ltb_ge | apply Z.ltb_ge]; lia. }
  eexists. split; [reflexivity|].
  match goal with |- context [binIndex _ ?m ?s bins] =>
    destruct (histogram_fold m s bins (x :: xs) (replicate (Z.to_nat bins) 0))
      as (G1 & G2 & G3)
  end.
  - lia.
  - rewrite length_replicate. lia.
  - apply Forall_replicate. lia.
  - rewrite sumZ_replicate_0 in G3. repeat split; [exact G1 | exact G2 | lia].
Qed.

(** ** Re-engagement *)

(** X27. With draws in [0, 1), a shoot-look-shoot engagement whose
    re-engagement probability is at most 0 fires at most one shot; one whose
    re-engagement probability is at least 1 and that does not kill fires the
    whole cap, the smaller of the configured maximum and the inventory. *)
Theorem sls_reengagement_extremes (tgt : Target) (params : Params) (inv : Z)
    (r : Rng) :
  uniform_draws r ->
  doctrineMode params <> "barrage" ->
  let out := fst (engageTarget tgt params inv r) in
  ((pReengage params <= 0)%Q -> shotsFired out <= 1) /\
  ((1 <= pReengage params)%Q -> killed out = false ->
   shotsFired out = Z.max 0 (Z.min (maxShotsPerTarget params) inv)).
Proof.
  intros Hu Hmode. cbv zeta. unfold engageTarget.
  apply String.eqb_neq in Hmode. rewrite Hmode.
  destruct (inv <=? 0) eqn:Hinv.
  - apply Z.leb_le in Hinv. simpl. split; intros; lia.
  - apply Z.leb_gt in Hinv.
    pose proof (slsLoop_spec
      (Z.to_nat (Z.min (maxShotsPerTarget params) inv))
      (if isWarhead tgt then pkWarhead params else pkDecoy params)
      (pReengage params) inv 0 r) as H.
    cbv zeta in H. destruct H as (m & Hm & Hshots & _ & Hearly & _ & Hnk).
    split.
    + intros Hre. destruct (decide (m <= 1)%nat) as [|Hbig]; [lia|].
      destruct (Hearly 0%nat ltac:(lia)) as [_ Hlt]. exfalso.
      apply (Qlt_not_le _ _ Hlt).
      apply Qle_trans with 0%Q; [exact Hre | apply Hu].
    + intros Hre Hk. destruct (Hnk Hk) as (_ & _ & Hlast).
      destruct (decide
        (m < Z.to_nat (Z.min (maxShotsPerTarget params) inv))%nat)
        as [Hlt|Hge]; [|lia].
      destruct (Hlast Hlt) as [_ Hfail]. exfalso. apply Hfail.
      apply Qlt_le_trans with 1%Q; [apply Hu | exact Hre].
Qed.

(** ** The further properties at the sample inputs *)

Lemma clamp01_range_witness :
  (0 <= 1 # 2 <= 1)%Q /\ (clamp01 (1 # 2) == 1 # 2)%Q /\
  (0 <= clamp01 (3 # 2) <= 1)%Q.
Proof.
  split; [split; discriminate|].
  split.
  - apply (proj1 (proj2 (clamp01_range (1 # 2)))). split; discriminate.
  - exact (proj1 (clamp01_range (3 # 2))).
Defined.

Lemma bernoulli_extremes_witness :
  uniform_draws demoRng /\ (1 <= 1)%Q /\
  fst (bernoulli 1 demoRng) = true.
Proof.
  split; [exact demoRng_uniform|]. split; [discriminate|].
  apply (bernoulli_extremes 1 demoRng demoRng_uniform). discriminate.
Defined.

Lemma shuffle_permutes_witness :
  uniform_draws demoRng /\
  fst (shuffle [1; 2; 3; 4; 5] demoRng) ≡ₚ [1; 2; 3; 4; 5] /\
  snd (shuffle [1; 2; 3; 4; 5] demoRng) = advance 4 demoRng.
Proof.
  split; [exact demoRng_uniform|].
  pose proof (shuffle_permutes Z [1; 2; 3; 4; 5] demoRng demoRng_uniform)
    as (H1 & _ & H3).
  split; [exact H1 | exact H3].
Defined.

Lemma degradation_never_improves_witness :
  valid_config demoParams /\
  (0 <= pkWarhead_trial (fst (applyTrialDegradation demoParams demoRng))
     <= pkWarhead demoParams)%Q.
Proof.
  split; [exact demoParams_valid|].
  pose proof (degradation_never_improves demoParams demoRng demoParams_valid)
    as H.
  cbv zeta in H. exact (proj1 (proj2 (proj2 (proj2 (proj2 (proj2 H)))))).
Defined.

Lemma certain_and_impossible_kills_witness :
  uniform_draws demoRng /\ 0 < 8 /\ 1 <= perTargetCap sureParams /\
  (1 <= killProbability demoWarhead sureParams)%Q /\
  killed (fst (engageTarget demoWarhead sureParams 8 demoRng)) = true.
Proof.
  split; [exact demoRng_uniform|]. split; [lia|].
  split; [vm_compute; discriminate|]. split; [discriminate|].
  apply (certain_and_impossible_kills demoWarhead sureParams 8 demoRng
           demoRng_uniform ltac:(lia) ltac:(vm_compute; discriminate)).
  discriminate.
Defined.

Lemma demoParams_exact : nInventory demoParams <= exactBound.
Proof. unfold exactBound. simpl. lia. Qed.

Lemma trial_diagnostics_consistent_witness :
  nInventory demoParams <= exactBound /\
  shotsTotal (fst (runOneTrial demoParams demoRng)) =
    shotsAtTrueWarheads (fst (runOneTrial demoParams demoRng)) +
    shotsAtDecoys (fst (runOneTrial demoParams demoRng)).
Proof.
  split; [exact demoParams_exact|].
  pose proof (trial_diagnostics_consistent demoParams demoRng) as H.
  cbv zeta in H. destruct H as (_ & _ & _ & _ & _ & _ & _ & _ & _ & _ & _ & H).
  exact (proj1 (H demoParams_exact)).
Defined.

Lemma shots_bounded_by_engaged_tracks_witness :
  nInventory demoParams <= exactBound /\
  shotsTotal (fst (runOneTrial demoParams demoRng)) <=
    2 * (truePositives (fst (runOneTrial demoParams demoRng)) +
         falsePositives (fst (runOneTrial demoParams demoRng))).
Proof.
  split; [exact demoParams_exact|].
  pose proof (shots_bounded_by_engaged_tracks demoParams demoRng
                demoParams_exact) as H.
  cbv zeta in H. exact (proj2 (proj2 H)).
Defined.

Lemma trial_counts_bounded_witness :
  valid_config demoParams /\ uniform_draws demoRng /\
  nInventory demoParams <= exactBound /\
  0 <= shotsTotal (fst (runOneTrial demoParams demoRng))
    <= nInventory demoParams.
Proof.
  split; [exact demoParams_valid|]. split; [exact demoRng_uniform|].
  split; [exact demoParams_exact|].
  pose proof (trial_counts_bounded demoParams demoRng demoParams_valid
                demoRng_uniform) as H.
  cbv zeta in H. destruct H as (_ & _ & _ & _ & _ & H).
  exact (proj1 (H demoParams_exact)).
Defined.

Lemma zero_detection_everything_penetrates_witness :
  (pDetectTrack blindParams == 0)%Q /\ 0 <= nMissiles blindParams /\
  0 <= mirvsPerMissile blindParams /\ 0 <= decoysPerWarhead blindParams /\
  uniform_draws demoRng /\
  detectedObjects (fst (runOneTrial blindParams demoRng)) = 0 /\
  penetratedRealWarheads (fst (runOneTrial blindParams demoRng)) =
    realWarheads (fst (runOneTrial blindParams demoRng)).
Proof.
  split; [reflexivity|]. do 3 (split; [simpl; lia|]).
  split; [exact demoRng_uniform|].
  pose proof (zero_detection_everything_penetrates blindParams demoRng
                ltac:(reflexivity) ltac:(simpl; lia) ltac:(simpl; lia)
                ltac:(simpl; lia) demoRng_uniform) as H.
  cbv zeta in H. destruct H as (H1 & _ & _ & _ & _ & _ & _ & H8).
  split; [exact H1 | exact H8].
Defined.

Lemma empty_inventory_everything_penetrates_witness :
  nInventory scenarioParams <= 0 /\ 0 <= nMissiles scenarioParams /\
  0 <= mirvsPerMissile scenarioParams /\
  0 <= decoysPerWarhead scenarioParams /\ uniform_draws demoRng /\
  shotsTotal (fst (runOneTrial scenarioParams demoRng)) = 0 /\
  interceptedRealWarheads (fst (runOneTrial scenarioParams demoRng)) = 0 /\
  penetratedRealWarheads (fst (runOneTrial scenarioParams demoRng)) =
    realWarheads (fst (runOneTrial scenarioParams demoRng)).
Proof.
  do 4 (split; [simpl; lia|]). split; [exact demoRng_uniform|].
  pose proof (empty_inventory_everything_penetrates scenarioParams demoRng
                ltac:(simpl; lia)) as H.
  cbv zeta in H. destruct H as (H1 & _ & _ & H4 & _ & H6).
  split; [exact H1|]. split; [exact H4|].
  apply H6; [simpl; lia | simpl; lia | simpl; lia | exact demoRng_uniform].
Defined.

Lemma no_false_alarm_no_shot_at_decoys_witness :
  (pFalseAlarmDecoy sureParams <= 0)%Q /\ uniform_draws demoRng /\
  falsePositives (fst (runOneTrial sureParams demoRng)) = 0 /\
  shotsAtDecoys (fst (runOneTrial sureParams demoRng)) = 0.
Proof.
  split; [discriminate|]. split; [exact demoRng_uniform|].
  pose proof (no_false_alarm_no_shot_at_decoys sureParams demoRng
                ltac:(discriminate) demoRng_uniform) as H.
  cbv zeta in H. destruct H as (H1 & H2 & _).
  split; [exact H1 | exact H2].
Defined.

Lemma salvo_identifiers_distinct_witness :
  0 <= nMissiles demoParams /\ 0 <= mirvsPerMissile demoParams /\
  0 <= decoysPerWarhead demoParams /\ uniform_draws demoRng /\
  NoDup (id <$> targets (fst (generateTargets demoParams demoRng))).
Proof.
  do 3 (split; [simpl; lia|]). split; [exact demoRng_uniform|].
  exact (proj1 (salvo_identifiers_distinct demoParams demoRng
                  ltac:(simpl; lia) ltac:(simpl; lia) ltac:(simpl; lia)
                  demoRng_uniform)).
Defined.

Lemma mean_fates_add_up_witness :
  valid_config demoParams /\ uniform_draws demoRng /\
  num_eq
    (num_add (meanPenReal (summary (fst (runMonteCarlo demoParams demoRng))))
             (meanIntReal (summary (fst (runMonteCarlo demoParams demoRng)))))
    (Fin 4).
Proof.
  split; [exact demoParams_valid|]. split; [exact demoRng_uniform|].
  exact (mean_fates_add_up demoParams demoRng demoParams_valid
           demoRng_uniform).
Defined.

Lemma penetration_rate_is_a_fraction_witness :
  valid_config demoParams /\ uniform_draws demoRng /\
  exists q : Q,
    meanPenRateReal (summary (fst (runMonteCarlo demoParams demoRng))) = Fin q
    /\ (0 <= q <= 1)%Q.
Proof.
  split; [exact demoParams_valid|]. split; [exact demoRng_uniform|].
  exact (penetration_rate_is_a_fraction demoParams demoRng demoParams_valid
           demoRng_uniform).
Defined.

Lemma system_up_share_is_a_fraction_witness :
  1 <= nTrials demoParams /\
  exists q : Q,
    meanSystemUp (summary (fst (runMonteCarlo demoParams demoRng))) = Fin q
    /\ (0 <= q <= 1)%Q.
Proof.
  split; [simpl; lia|].
  exact (system_up_share_is_a_fraction demoParams demoRng ltac:(simpl; lia)).
Defined.

Lemma no_trials_no_statistics_witness :
  nTrials noTrialsParams <= 0 /\
  resPenReal (fst (runMonteCarlo noTrialsParams demoRng)) = [] /\
  meanPenRateReal (summary (fst (runMonteCarlo noTrialsParams demoRng)))
    = Fin 0.
Proof.
  split; [simpl; lia|].
  pose proof (no_trials_no_statistics noTrialsParams demoRng
                ltac:(simpl; lia)) as H.
  cbv zeta in H. split; [exact (proj1 (proj2 H))|].
  exact (proj2 (proj2 (proj2 (proj2 (proj2 (proj2 (proj2 (proj2 (proj2
           (proj2 (proj2 (proj2 (proj2 H))))))))))))).
Defined.

Lemma percentile_endpoints_witness :
  [4; 2; 1; 3]%Q <> [] /\
  exists lo hi : Q,
    lo ∈ [4; 2; 1; 3]%Q /\ hi ∈ [4; 2; 1; 3]%Q /\
    percentile [4; 2; 1; 3]%Q 0 = Fin lo /\
    percentile [4; 2; 1; 3]%Q 100 = Fin hi /\
    Forall (fun x => (lo <= x <= hi)%Q) [4; 2; 1; 3]%Q.
Proof.
  split; [discriminate|].
  exact (percentile_endpoints [4; 2; 1; 3]%Q ltac:(discriminate)).
Defined.

Lemma form_reader_yields_valid_config_witness :
  (form_doctrineMode demoForm = "barrage" \/
   form_doctrineMode demoForm = "sls") /\
  valid_config (readParamsFromUI demoForm) /\
  nTrials (readParamsFromUI demoForm) = 1000 /\
  nInventory (readParamsFromUI demoForm) = 0 /\
  mirvsPerMissile (readParamsFromUI demoForm) = 1.
Proof.
  split; [right; reflexivity|].
  split; [apply form_reader_yields_valid_config; right; reflexivity|].
  repeat split.
Defined.

Lemma form_reader_keeps_valid_values_witness :
  valid_config demoParams /\
  same_config (readParamsFromUI (formOf demoParams)) demoParams.
Proof.
  split; [exact demoParams_valid|].
  exact (form_reader_keeps_valid_values demoParams demoParams_valid).
Defined.

Lemma histogram_counts_every_value_once_witness :
  [0; 4; 1; 4; 2]%Q <> [] /\ 1 <= 20 <= 4294967295 /\
  Forall (fun v => (- halfUnitBound < v < halfUnitBound)%Q)
    [0; 4; 1; 4; 2]%Q /\
  exists counts : list Z,
    histogramCounts [0; 4; 1; 4; 2]%Q 20 = Bins counts /\
    Z.of_nat (length counts) = 20 /\
    Forall (fun c => 0 <= c) counts /\
    sumZ counts = 5.
Proof.
  assert (H : Forall (fun v => (- halfUnitBound < v < halfUnitBound)%Q)
                [0; 4; 1; 4; 2]%Q)
    by (repeat constructor; reflexivity).
  split; [discriminate|]. split; [lia|]. split; [exact H|].
  exact (proj2 (histogram_counts_every_value_once [0; 4; 1; 4; 2]%Q 20)
           ltac:(discriminate) ltac:(lia) H).
Defined.

Lemma sls_reengagement_extremes_witness :
  uniform_draws demoRng /\ doctrineMode singleShotParams <> "barrage" /\
  (pReengage singleShotParams <= 0)%Q /\
  shotsFired (fst (engageTarget demoWarhead singleShotParams 5 demoRng)) <= 1.
Proof.
  split; [exact demoRng_uniform|]. split; [discriminate|].
  split; [discriminate|].
  apply (sls_reengagement_extremes demoWarhead singleShotParams 5 demoRng
           demoRng_uniform ltac:(discriminate)).
  discriminate.
Defined.

Lemma perfect_defence_within_exact_range_witness :
  uniform_draws demoRng /\
  perTargetCap sureParams *
    (nMissiles sureParams * mirvsPerMissile sureParams)
    <= nInventory sureParams /\
  nInventory sureParams <= exactBound /\
  penetratedRealWarheads (fst (runOneTrial sureParams demoRng)) = 0 /\
  interceptedRealWarheads (fst (runOneTrial sureParams demoRng)) =
    realWarheads (fst (runOneTrial sureParams demoRng)).
Proof.
  split; [exact demoRng_uniform|]. split; [vm_compute; discriminate|].
  split; [vm_compute; discriminate|].
  pose proof (perfect_defence_within_exact_range sureParams demoRng
                demoRng_uniform ltac:(simpl; lia) ltac:(simpl; lia)
                ltac:(simpl; lia) ltac:(discriminate) ltac:(discriminate)
                ltac:(discriminate) ltac:(discriminate) ltac:(discriminate)
                ltac:(vm_compute; discriminate)
                ltac:(vm_compute; discriminate)
                ltac:(vm_compute; discriminate)) as H.
  cbv zeta in H. destruct H as (H1 & H2 & _).
  split; [exact H1 | exact H2].
Defined.
